(** * Dex job-search engine: identity merge, enrichment checkpoints,
      digest exclusion and the application tracker.

    A shallow embedding of the JavaScript sources under
    [.scripts/job-search/], with the properties of the engine stated and
    proved (or refuted) over it.

    Conventions of the embedding.
    - A JavaScript string is the list of its UTF-16 code units
      ([jsstring]); [js "..."] is the literal of an ASCII text.
      [toLowerCase] and case-insensitive matching are given for the code
      units below U+0100 and leave the others unchanged.
    - [null]/[undefined] fields are [option]s; truthiness of a string is
      non-emptiness.
    - Files are explicit values threaded through the functions; the clock
      ([new Date().toISOString().split('T')[0]]) is an explicit argument.
    - Objects mutated through an alias are updated in the list that owns
      them. *)

From Stdlib Require Import String Ascii.
From stdpp Require Import base option list gmap sorting.

Local Open Scope Z_scope.

(** ** JavaScript strings *)

Abbreviation jsstring := (list N).

Module JsString.

Definition js (s : string) : jsstring :=
  map N_of_ascii (list_ascii_of_string s).

(** Truthiness of a string value. *)
Definition truthy (s : jsstring) : bool :=
  match s with [] => false | _ => true end.

(** Truthiness of a value that is [null] or a string. *)
Definition truthy_opt (o : option jsstring) : bool :=
  match o with Some s => truthy s | None => false end.

(** [a || b] on strings. *)
Definition or_else (a : option jsstring) (b : jsstring) : jsstring :=
  match a with
  | Some s => if truthy s then s else b
  | None => b
  end.

Definition eqb (a b : jsstring) : bool := bool_decide (a = b).

Fixpoint startsWith (p s : jsstring) : bool :=
  match p, s with
  | [], _ => true
  | c :: p', d :: s' => if (c =? d)%N then startsWith p' s' else false
  | _ :: _, [] => false
  end.

(** [s.includes(p)] *)
Fixpoint includes (p s : jsstring) : bool :=
  startsWith p s ||
  match s with
  | [] => false
  | _ :: s' => includes p s'
  end.

(** [s.slice(a, b)] for [0 <= a], [0 <= b]. *)
Definition slice (a b : nat) (s : jsstring) : jsstring :=
  take (b - a)%nat (drop a s).

(** Code units matched by [\s] (WhiteSpace and LineTerminator). *)
Definition is_space (c : N) : bool :=
  match c with
  | 9 | 10 | 11 | 12 | 13 | 32 | 160 | 5760 | 8232 | 8233 | 8239
  | 8287 | 12288 | 65279 => true
  | _ => ((8192 <=? c) && (c <=? 8202))%N
  end%N.

Definition is_digit (c : N) : bool := ((48 <=? c) && (c <=? 57))%N.

(** Code units matched by [\w]. *)
Definition is_word (c : N) : bool :=
  (is_digit c || ((65 <=? c) && (c <=? 90)) || ((97 <=? c) && (c <=? 122))
   || (c =? 95))%N.

(** [toLowerCase] on one code unit (Basic Latin and Latin-1). *)
Definition lower1 (c : N) : N :=
  if ((65 <=? c) && (c <=? 90))%N then (c + 32)%N
  else if ((192 <=? c) && (c <=? 222) && negb (c =? 215))%N then (c + 32)%N
  else c.

Definition toLowerCase (s : jsstring) : jsstring := map lower1 s.

Fixpoint trimStart (s : jsstring) : jsstring :=
  match s with
  | c :: s' => if is_space c then trimStart s' else s
  | [] => []
  end.

Definition trimEnd (s : jsstring) : jsstring :=
  reverse (trimStart (reverse s)).

Definition trim (s : jsstring) : jsstring := trimEnd (trimStart s).

(** [s.replace(/\s+/g, ' ')]: every maximal run of white space becomes
    one space. *)
Fixpoint collapse_ws_from (in_run : bool) (s : jsstring) : jsstring :=
  match s with
  | [] => []
  | c :: s' =>
      if is_space c
      then if in_run then collapse_ws_from true s'
           else 32%N :: collapse_ws_from true s'
      else c :: collapse_ws_from false s'
  end.

Definition collapse_ws (s : jsstring) : jsstring := collapse_ws_from false s.

(** [s.replace(/\|/g, ' ')] *)
Definition replace_pipes (s : jsstring) : jsstring :=
  map (fun c => if (c =? 124)%N then 32%N else c) s.

(** Decimal rendering of a natural number (template interpolation). *)
Fixpoint digits_from (fuel : nat) (k : N) (acc : jsstring) : jsstring :=
  match fuel with
  | O => acc
  | S fuel' =>
      let acc' := (48 + k mod 10)%N :: acc in
      if (k <? 10)%N then acc' else digits_from fuel' (k / 10)%N acc'
  end.

Definition digits_of_nat (n : nat) : jsstring :=
  digits_from (S n) (N.of_nat n) [].

(** *** Regular expressions

    The patterns of the sources, as syntax, with a backtracking matcher
    in continuation-passing style.  [prev] is the code unit before the
    current position, which [\b] and [^] look at.  Only the existence of
    a match is computed ([RegExp.prototype.test]); the literals used are
    ASCII, for which the case-insensitive comparison below is the one of
    the [i] flag on every code unit.  A round of [star] that consumes
    nothing is refused, as in JavaScript, so every round shortens the
    input and the fuel [S (length s)] is never exhausted. *)

Inductive regex :=
| Lit (l : jsstring)
| Cls (p : N -> bool)
| Seq (r1 r2 : regex)
| Alt (r1 r2 : regex)
| Opt (r : regex)
| Star (r : regex)
| Plus (r : regex)
| Bow
| Bol
| Eol.

(** Canonicalize of the [i] flag: the upper-case code unit. *)
Definition canon (c : N) : N :=
  if ((97 <=? c) && (c <=? 122))%N then (c - 32)%N
  else if ((224 <=? c) && (c <=? 254) && negb (c =? 247))%N then (c - 32)%N
  else c.

Definition same_char (ci : bool) (c d : N) : bool :=
  if ci then (canon c =? canon d)%N else (c =? d)%N.

Abbreviation cont := (option N -> jsstring -> bool).

Fixpoint match_lit (ci : bool) (l : jsstring) (prev : option N)
    (s : jsstring) (k : cont) : bool :=
  match l with
  | [] => k prev s
  | c :: l' =>
      match s with
      | d :: s' => same_char ci c d && match_lit ci l' (Some d) s' k
      | [] => false
      end
  end.

Fixpoint star (m : option N -> jsstring -> cont -> bool) (fuel : nat)
    (prev : option N) (s : jsstring) (k : cont) : bool :=
  k prev s ||
  match fuel with
  | O => false
  | S fuel' =>
      m prev s
        (fun p' s' => (length s' <? length s)%nat && star m fuel' p' s' k)
  end.

Definition word_before (prev : option N) : bool :=
  match prev with Some c => is_word c | None => false end.

Definition word_after (s : jsstring) : bool :=
  match s with c :: _ => is_word c | [] => false end.

Fixpoint rmatch (ci : bool) (r : regex) (prev : option N) (s : jsstring)
    (k : cont) {struct r} : bool :=
  match r with
  | Lit l => match_lit ci l prev s k
  | Cls p =>
      match s with
      | c :: s' => p c && k (Some c) s'
      | [] => false
      end
  | Seq r1 r2 => rmatch ci r1 prev s (fun p' s' => rmatch ci r2 p' s' k)
  | Alt r1 r2 => rmatch ci r1 prev s k || rmatch ci r2 prev s k
  | Opt r1 => rmatch ci r1 prev s k || k prev s
  | Star r1 => star (rmatch ci r1) (S (length s)) prev s k
  | Plus r1 =>
      rmatch ci r1 prev s
        (fun p' s' => star (rmatch ci r1) (S (length s')) p' s' k)
  | Bow => xorb (word_before prev) (word_after s) && k prev s
  | Bol => match prev with None => k prev s | Some _ => false end
  | Eol => match s with [] => k prev s | _ :: _ => false end
  end.

Definition matches_here (ci : bool) (r : regex) (prev : option N)
    (s : jsstring) : bool :=
  rmatch ci r prev s (fun _ _ => true).

Fixpoint search (ci : bool) (r : regex) (prev : option N) (s : jsstring)
  : bool :=
  matches_here ci r prev s ||
  match s with
  | [] => false
  | c :: s' => search ci r (Some c) s'
  end.

(** [re.test(s)]; [ci] is the [i] flag. *)
Definition test (ci : bool) (r : regex) (s : jsstring) : bool :=
  search ci r None s.

(** [s.replace(re, '')] for a pattern that ends in [$]: whatever matches
    runs to the end of [s], so what remains is the text before the
    leftmost position where the pattern matches. *)
Fixpoint cut_at_match (ci : bool) (r : regex) (prev : option N)
    (s : jsstring) : jsstring :=
  if matches_here ci r prev s then []
  else match s with
       | [] => []
       | c :: s' => c :: cut_at_match ci r (Some c) s'
       end.

Definition alts (l : list regex) : regex :=
  match l with
  | [] => Lit []
  | r :: l' => fold_left Alt l' r
  end.

Definition lits (l : list string) : regex := alts (map (fun s => Lit (js s)) l).

Definition ws : regex := Cls is_space.

(** [l.join(sep)] *)
Fixpoint join (sep : jsstring) (l : list jsstring) : jsstring :=
  match l with
  | [] => []
  | [x] => x
  | x :: l' => x ++ sep ++ join sep l'
  end.

Definition endsWith (p s : jsstring) : bool :=
  startsWith (reverse p) (reverse s).

(** Some code units outside ASCII that the sources write. *)
Definition MIDDOT : N := 183.
Definition EM_DASH : N := 8212.
Definition NL : N := 10.

(** [' · '] *)
Definition SEP : jsstring := [32%N; MIDDOT; 32%N].

(** [c.toUpperCase()] for one code unit of Basic Latin or Latin-1. *)
Definition upper1 (c : N) : jsstring :=
  if ((97 <=? c) && (c <=? 122))%N then [(c - 32)%N]
  else if ((224 <=? c) && (c <=? 254) && negb (c =? 247))%N then [(c - 32)%N]
  else if (c =? 223)%N then [83%N; 83%N]
  else if (c =? 181)%N then [924%N]
  else if (c =? 255)%N then [376%N]
  else [c].

Definition is_line_terminator (c : N) : bool :=
  ((c =? 10) || (c =? 13) || (c =? 8232) || (c =? 8233))%N.

(** [s.replace(/^./, c => c.toUpperCase())] *)
Definition capitalize (s : jsstring) : jsstring :=
  match s with
  | c :: s' => if is_line_terminator c then s else upper1 c ++ s'
  | [] => []
  end.

End JsString.

Import JsString.

(** ** track-application.js: the application tracker *)

Module Tracker.

Definition APPLIED : jsstring := js "applied".
Definition RESPONDED : jsstring := js "responded".
Definition INTERVIEW : jsstring := js "interview".
Definition OFFER : jsstring := js "offer".
Definition REJECTED : jsstring := js "rejected".
Definition WITHDRAWN : jsstring := js "withdrawn".

Record history_entry := HistoryEntry {
  h_status : jsstring;
  h_date : jsstring;
  h_notes : jsstring
}.

Record application := Application {
  id : jsstring;
  date_applied : jsstring;
  role : jsstring;
  company : jsstring;
  source : jsstring;
  url : jsstring;
  jobId : option jsstring;
  location : jsstring;
  industry : jsstring;
  status : jsstring;
  status_history : list history_entry;
  response_date : option jsstring;
  response_days : option Z;
  interview_dates : list jsstring;
  offer_date : option jsstring;
  rejection_date : option jsstring;
  feedback_type : option jsstring;
  feedback_text : option jsstring;
  notes : jsstring;
  tags : list jsstring
}.

Record meta_info := Meta {
  version : jsstring;
  created : jsstring;
  last_updated : jsstring
}.

Record tracker := TrackerFile {
  meta : meta_info;
  applications : list application
}.

(** The tracker file: [None] when [TRACKER_FILE] does not exist. *)
Abbreviation file := (option tracker).

#[global] Instance history_entry_eq_dec : EqDecision history_entry.
Proof. solve_decision. Defined.
#[global] Instance application_eq_dec : EqDecision application.
Proof. solve_decision. Defined.
#[global] Instance meta_info_eq_dec : EqDecision meta_info.
Proof. solve_decision. Defined.
#[global] Instance tracker_eq_dec : EqDecision tracker.
Proof. solve_decision. Defined.

(** Field assignments [app.f = v]. *)
Definition set_status (v : jsstring) (a : application) : application :=
  Application (id a) (date_applied a) (role a) (company a) (source a) (url a)
    (jobId a) (location a) (industry a) v (status_history a)
    (response_date a) (response_days a) (interview_dates a) (offer_date a)
    (rejection_date a) (feedback_type a) (feedback_text a) (notes a) (tags a).

Definition set_status_history (v : list history_entry) (a : application)
  : application :=
  Application (id a) (date_applied a) (role a) (company a) (source a) (url a)
    (jobId a) (location a) (industry a) (status a) v
    (response_date a) (response_days a) (interview_dates a) (offer_date a)
    (rejection_date a) (feedback_type a) (feedback_text a) (notes a) (tags a).

Definition set_response (d : option jsstring) (n : option Z)
    (a : application) : application :=
  Application (id a) (date_applied a) (role a) (company a) (source a) (url a)
    (jobId a) (location a) (industry a) (status a) (status_history a)
    d n (interview_dates a) (offer_date a)
    (rejection_date a) (feedback_type a) (feedback_text a) (notes a) (tags a).

Definition set_interview_dates (v : list jsstring) (a : application)
  : application :=
  Application (id a) (date_applied a) (role a) (company a) (source a) (url a)
    (jobId a) (location a) (industry a) (status a) (status_history a)
    (response_date a) (response_days a) v (offer_date a)
    (rejection_date a) (feedback_type a) (feedback_text a) (notes a) (tags a).

Definition set_offer_date (v : option jsstring) (a : application)
  : application :=
  Application (id a) (date_applied a) (role a) (company a) (source a) (url a)
    (jobId a) (location a) (industry a) (status a) (status_history a)
    (response_date a) (response_days a) (interview_dates a) v
    (rejection_date a) (feedback_type a) (feedback_text a) (notes a) (tags a).

Definition set_rejection_date (v : option jsstring) (a : application)
  : application :=
  Application (id a) (date_applied a) (role a) (company a) (source a) (url a)
    (jobId a) (location a) (industry a) (status a) (status_history a)
    (response_date a) (response_days a) (interview_dates a) (offer_date a)
    v (feedback_type a) (feedback_text a) (notes a) (tags a).

Definition set_notes (v : jsstring) (a : application) : application :=
  Application (id a) (date_applied a) (role a) (company a) (source a) (url a)
    (jobId a) (location a) (industry a) (status a) (status_history a)
    (response_date a) (response_days a) (interview_dates a) (offer_date a)
    (rejection_date a) (feedback_type a) (feedback_text a) v (tags a).

Definition set_jobId (v : option jsstring) (a : application) : application :=
  Application (id a) (date_applied a) (role a) (company a) (source a) (url a)
    v (location a) (industry a) (status a) (status_history a)
    (response_date a) (response_days a) (interview_dates a) (offer_date a)
    (rejection_date a) (feedback_type a) (feedback_text a) (notes a) (tags a).

Definition set_url (v : jsstring) (a : application) : application :=
  Application (id a) (date_applied a) (role a) (company a) (source a) v
    (jobId a) (location a) (industry a) (status a) (status_history a)
    (response_date a) (response_days a) (interview_dates a) (offer_date a)
    (rejection_date a) (feedback_type a) (feedback_text a) (notes a) (tags a).

Definition set_role (v : jsstring) (a : application) : application :=
  Application (id a) (date_applied a) v (company a) (source a) (url a)
    (jobId a) (location a) (industry a) (status a) (status_history a)
    (response_date a) (response_days a) (interview_dates a) (offer_date a)
    (rejection_date a) (feedback_type a) (feedback_text a) (notes a) (tags a).

Definition set_location (v : jsstring) (a : application) : application :=
  Application (id a) (date_applied a) (role a) (company a) (source a) (url a)
    (jobId a) v (industry a) (status a) (status_history a)
    (response_date a) (response_days a) (interview_dates a) (offer_date a)
    (rejection_date a) (feedback_type a) (feedback_text a) (notes a) (tags a).

(** [loadTracker()] *)
Definition loadTracker (today : jsstring) (f : file) : tracker :=
  match f with
  | None => TrackerFile (Meta (js "1.0") today today) []
  | Some t => t
  end.

(** [saveTracker(tracker)]: stamps [meta.last_updated] and writes. *)
Definition saveTracker (today : jsstring) (t : tracker) : file :=
  Some (TrackerFile (Meta (version (meta t)) (created (meta t)) today)
          (applications t)).

Definition has_id (i : jsstring) (a : application) : bool := eqb (id a) i.

(** [applications.find(a => a.id === applicationId)] *)
Definition find_app (i : jsstring) (l : list application)
  : option application :=
  List.find (has_id i) l.

(** The write through the alias returned by [find]: the first record
    with the id is the one that changes. *)
Fixpoint update_first (i : jsstring) (f : application -> application)
    (l : list application) : list application :=
  match l with
  | [] => []
  | a :: l' => if has_id i a then f a :: l' else a :: update_first i f l'
  end.

Definition MS_PER_DAY : Z := 1000 * 60 * 60 * 24.

Section WithDate.

(** [new Date(s).getTime()], [None] for an invalid date (NaN). *)
Variable Date_ms : jsstring -> option Z.

(** [Math.floor((responseDate - appliedDate) / (1000*60*60*24))];
    [None] stands for NaN, which the JSON file stores as [null]. *)
Definition day_difference (applied response : jsstring) : option Z :=
  match Date_ms response, Date_ms applied with
  | Some r, Some a => Some ((r - a) / MS_PER_DAY)
  | _, _ => None
  end.

(** The body of [updateStatus] after the record was found. *)
Definition apply_status (newStatus updateDate notes_arg : jsstring)
    (app : application) : application :=
  let app := set_status newStatus app in
  let app :=
    set_status_history
      (status_history app ++ [HistoryEntry newStatus updateDate notes_arg])
      app in
  let app :=
    if eqb newStatus RESPONDED && negb (truthy_opt (response_date app))
    then set_response (Some updateDate)
           (day_difference (date_applied app) updateDate) app
    else app in
  let app :=
    if eqb newStatus INTERVIEW
    then if bool_decide (updateDate ∈ interview_dates app) then app
         else set_interview_dates (interview_dates app ++ [updateDate]) app
    else app in
  let app :=
    if eqb newStatus OFFER then set_offer_date (Some updateDate) app
    else app in
  let app :=
    if eqb newStatus REJECTED then set_rejection_date (Some updateDate) app
    else app in
  if truthy notes_arg
  then set_notes
         ((if truthy (notes app) then notes app ++ [NL; NL] else [])
          ++ updateDate ++ js ": " ++ notes_arg) app
  else app.

(** [updateStatus(applicationId, newStatus, date = null, notes = '')]:
    the returned record ([None] for [null]) and the tracker file
    afterwards. *)
Definition updateStatus (today : jsstring) (f : file)
    (applicationId newStatus : jsstring) (date : option jsstring)
    (notes_arg : jsstring) : option application * file :=
  let t := loadTracker today f in
  match find_app applicationId (applications t) with
  | None => (None, f)
  | Some app =>
      let updateDate := or_else date today in
      let app' := apply_status newStatus updateDate notes_arg app in
      (Some app',
       saveTracker today
         (TrackerFile (meta t)
            (update_first applicationId
               (apply_status newStatus updateDate notes_arg)
               (applications t))))
  end.

(** One invocation of [updateStatus], with the clock reading it saw. *)
Record call := Call {
  c_today : jsstring;
  c_id : jsstring;
  c_status : jsstring;
  c_date : option jsstring;
  c_notes : jsstring
}.

(** [date || new Date().toISOString().split('T')[0]] *)
Definition effective_date (c : call) : jsstring :=
  or_else (c_date c) (c_today c).

Definition perform (f : file) (c : call) : file :=
  snd (updateStatus (c_today c) f (c_id c) (c_status c) (c_date c) (c_notes c)).

Definition perform_all (f : file) (cs : list call) : file :=
  fold_left perform cs f.

End WithDate.

Definition apps_of (f : file) : list application :=
  match f with
  | Some t => applications t
  | None => []
  end.

(** The record an id denotes in a tracker file. *)
Definition stored (i : jsstring) (f : file) : option application :=
  find_app i (apps_of f).

(** A [Date] for the calendar dates the tracker writes itself
    ("YYYY-MM-DD", read as UTC midnight); other texts are not dates
    here. *)
Definition digit_val (c : N) : option Z :=
  if is_digit c then Some (Z.of_N c - 48) else None.

Fixpoint number_of (acc : Z) (s : jsstring) : option Z :=
  match s with
  | [] => Some acc
  | c :: s' =>
      match digit_val c with
      | Some d => number_of (10 * acc + d) s'
      | None => None
      end
  end.

Definition days_from_civil (y m d : Z) : Z :=
  let y' := if m <=? 2 then y - 1 else y in
  let era := y' / 400 in
  let yoe := y' - era * 400 in
  let doy := (153 * (if m >? 2 then m - 3 else m + 9) + 2) / 5 + d - 1 in
  let doe := yoe * 365 + yoe / 4 - yoe / 100 + doy in
  era * 146097 + doe - 719468.

Definition iso_date_ms (s : jsstring) : option Z :=
  match s with
  | [y1; y2; y3; y4; 45%N; m1; m2; 45%N; d1; d2] =>
      match number_of 0 [y1; y2; y3; y4], number_of 0 [m1; m2],
            number_of 0 [d1; d2] with
      | Some y, Some m, Some d =>
          if (1 <=? m) && (m <=? 12) && (1 <=? d) && (d <=? 31)
          then Some (days_from_civil y m d * MS_PER_DAY)
          else None
      | _, _, _ => None
      end
  | _ => None
  end.

(** A record as [addApplication] creates it. *)
Definition new_application (i applied r c : jsstring) : application :=
  Application i applied r c (js "linkedin") [] None [] [] APPLIED
    [HistoryEntry APPLIED applied []]
    None None [] None None None None [] [].

Definition acme_application : application :=
  new_application (js "app-1") (js "2026-02-01") (js "Senior Product Manager")
    (js "Acme").

(** The scenario of the specification: a response five days after the
    application, then an interview, then 'responded' once more. *)
Definition first_response : call :=
  Call (js "2026-02-06") (js "app-1") RESPONDED None [].

Definition later_transitions : list call :=
  [ Call (js "2026-02-09") (js "app-1") INTERVIEW None [];
    Call (js "2026-02-20") (js "app-1") RESPONDED None [] ].

Definition acme_file : file :=
  Some (TrackerFile (Meta (js "1.0") (js "2026-02-01") (js "2026-02-01"))
          [acme_application]).

End Tracker.

(** ** scrape-linkedin-search-playwright.cjs: the in-run job map *)

Module Scrape.

Fixpoint take_digits (s : jsstring) : jsstring :=
  match s with
  | c :: s' => if is_digit c then c :: take_digits s' else []
  | [] => []
  end.

(** [(url || '').match(/\/jobs\/view\/(\d+)/)], then [m ? m[1] : null]:
    the digits after the leftmost "/jobs/view/" that is followed by
    one. *)
Fixpoint getJobId (url : jsstring) : option jsstring :=
  match (if startsWith (js "/jobs/view/") url
         then take_digits (drop 11 url) else []) with
  | d :: ds => Some (d :: ds)
  | [] =>
      match url with
      | [] => None
      | _ :: url' => getJobId url'
      end
  end.

Definition getJobViewUrl (url : jsstring) : option jsstring :=
  match getJobId url with
  | Some i => Some (js "https://www.linkedin.com/comm/jobs/view/" ++ i)
  | None => None
  end.

Definition pm_titles : regex :=
  alts [Lit (js "product manager"); Lit (js "product owner");
        Lit (js "head of product"); Seq (Lit (js "cpo")) Bow;
        Lit (js "chief product"); Lit (js "compliance manager")].

Definition engineer_titles : regex :=
  Seq Bow
    (Seq (alts [Lit (js "software engineer"); Lit (js "c# engineer");
                Lit (js ".net engineer"); Lit (js "java engineer");
                Lit (js "r&d engineer"); Lit (js "backend engineer");
                Lit (js "frontend engineer");
                Seq (Lit (js "fullstac"))
                  (Seq (Opt (Lit (js "k")))
                     (Seq (Plus ws) (Lit (js "engineer"))));
                Lit (js "devops engineer"); Lit (js "qa engineer");
                Lit (js "data engineer"); Lit (js "ml engineer");
                Lit (js "game engineer")])
       Bow).

Definition developer_titles : regex :=
  Seq Bow
    (Seq (alts [Lit (js "backend developer"); Lit (js "frontend developer");
                Seq (Lit (js "fullstac"))
                  (Seq (Opt (Lit (js "k")))
                     (Seq (Plus ws) (Lit (js "developer"))));
                Lit (js ".net developer"); Lit (js "java developer");
                Lit (js "c# developer")])
       Bow).

Definition developer_word : regex := Seq Bow (Seq (Lit (js "developer")) Bow).

(** [isNonPmRole(title)] *)
Definition isNonPmRole (title : jsstring) : bool :=
  if negb (truthy title) then false
  else
    let t := toLowerCase title in
    if test false pm_titles t then false
    else if test true engineer_titles t then true
    else if test true developer_titles t then true
    else if test true developer_word t
            && negb (test true (Lit (js "product")) t)
    then true
    else false.

(** [isJobsSimilarLink(title)] *)
Definition isJobsSimilarLink (title : jsstring) : bool :=
  test true (Seq Bol (Seq (Lit (js "jobs similar to")) ws)) (trim title).

Definition VIEW_JOB : jsstring := js "View job".

Definition with_verification : regex :=
  Seq (Plus ws) (Seq (Lit (js "with verification")) (Seq (Star ws) Eol)).

(** [normalizeTitle(title)] *)
Definition normalizeTitle (title : jsstring) : jsstring :=
  if negb (truthy title) then VIEW_JOB
  else
    let t :=
      collapse_ws (trim (cut_at_match true with_verification None title)) in
    let half := (length t / 2)%nat in
    let t :=
      if (10 <? half)%nat
         && eqb (slice 0 half t) (slice half (half + half) t)
      then slice 0 half t else t in
    if (0 <? length t)%nat then slice 0 200 t else VIEW_JOB.

(** What [a.href] and [a.textContent] gave for one link of the page. *)
Record item := Item {
  href : jsstring;
  link_title : jsstring
}.

(** A value of [jobById]. *)
Record posting := Posting {
  viewUrl : jsstring;
  title : jsstring
}.

#[global] Instance posting_eq_dec : EqDecision posting.
Proof. solve_decision. Defined.

(** The guards every loop over the links starts with: the id, the view
    URL and the normalized title of a link that is not skipped. *)
Definition accept (existingIds : gset jsstring) (it : item)
  : option (jsstring * jsstring * jsstring) :=
  match getJobViewUrl (href it) with
  | None => None
  | Some v =>
      match getJobId v with
      | None => None
      | Some i =>
          if bool_decide (i ∈ existingIds) then None
          else if isJobsSimilarLink (link_title it) then None
          else
            let normalizedTitle := normalizeTitle (link_title it) in
            if isNonPmRole normalizedTitle then None
            else Some (i, v, normalizedTitle)
      end
  end.

(** The test under which a known posting takes the incoming title. *)
Definition better_title (incoming existing : jsstring) : bool :=
  negb (eqb incoming VIEW_JOB)
  && (eqb existing VIEW_JOB || (length existing <? length incoming)%nat).

(** The body of the loops over [list] and [finalExtraction]. *)
Definition merge_item (existingIds : gset jsstring)
    (jobById : gmap jsstring posting) (it : item) : gmap jsstring posting :=
  match accept existingIds it with
  | None => jobById
  | Some (i, v, normalizedTitle) =>
      match jobById !! i with
      | None => <[i := Posting v normalizedTitle]> jobById
      | Some existing =>
          if better_title normalizedTitle (title existing)
          then <[i := Posting (viewUrl existing) normalizedTitle]> jobById
          else jobById
      end
  end.

(** The body of the loops over [allLinks] and [finalLinks] of the
    scrolling phase: a known id is left alone. *)
Definition insert_item (existingIds : gset jsstring)
    (jobById : gmap jsstring posting) (it : item) : gmap jsstring posting :=
  match accept existingIds it with
  | None => jobById
  | Some (i, v, normalizedTitle) =>
      match jobById !! i with
      | None => <[i := Posting v normalizedTitle]> jobById
      | Some _ => jobById
      end
  end.

Definition merge_items (existingIds : gset jsstring)
    (jobById : gmap jsstring posting) (l : list item) : gmap jsstring posting :=
  fold_left (merge_item existingIds) l jobById.

Definition stored_title (jobById : gmap jsstring posting) (i : jsstring)
  : option jsstring :=
  title <$> jobById !! i.

(** The two raw records of the scenario of the specification, as links
    of a search page, and the first one with its phrase doubled without
    a separator. *)
Definition REPEATED_TITLE : jsstring :=
  js "Senior PM (verified) Senior PM (verified)".

Definition record_1 : item :=
  Item (js "https://www.linkedin.com/jobs/view/123?x=1") REPEATED_TITLE.

Definition record_2 : item :=
  Item (js "https://www.linkedin.com/jobs/view/123")
    (js "Senior Product Manager").

Definition record_1_doubled : item :=
  Item (js "https://www.linkedin.com/jobs/view/123?x=1")
    (js "Senior PM (verified)Senior PM (verified)").

Definition placeholder_record : item :=
  Item (js "https://www.linkedin.com/jobs/view/123?x=1") [].

Definition VIEW_URL_PREFIX : jsstring :=
  js "https://www.linkedin.com/comm/jobs/view/".

End Scrape.

(** ** track-application.js: new applications and feedback *)

Module Intake.

Import Tracker Scrape.

(** The [data] argument of [addApplication]; a property that is missing
    is [None]. *)
Record application_data := Data {
  d_date_applied : option jsstring;
  d_role : jsstring;
  d_company : jsstring;
  d_source : option jsstring;
  d_url : option jsstring;
  d_jobId : option jsstring;
  d_location : option jsstring;
  d_industry : option jsstring;
  d_notes : option jsstring;
  d_tags : option (list jsstring)
}.

(** [addApplication(data)] with [syncAppliedMd] false: the record
    returned and the tracker file afterwards; [newId] is what
    [generateId()] returns, [today] the calendar day of the clock. *)
Definition addApplication (today newId : jsstring) (f : file)
    (data : application_data) : application * file :=
  let t := loadTracker today f in
  let jobIdMatch :=
    if truthy_opt (d_url data) then getJobId (default [] (d_url data))
    else None in
  let jobId := if truthy_opt (d_jobId data) then d_jobId data else jobIdMatch in
  let applied := or_else (d_date_applied data) today in
  let app :=
    Application newId applied (d_role data) (d_company data)
      (or_else (d_source data) (js "linkedin")) (or_else (d_url data) [])
      jobId (or_else (d_location data) []) (or_else (d_industry data) [])
      APPLIED [HistoryEntry APPLIED applied (or_else (d_notes data) [])]
      None None [] None None None None (or_else (d_notes data) [])
      (default [] (d_tags data)) in
  (app, saveTracker today (TrackerFile (meta t) (applications t ++ [app]))).

Definition set_feedback (ty txt : option jsstring) (a : application)
  : application :=
  Application (id a) (date_applied a) (role a) (company a) (source a) (url a)
    (jobId a) (location a) (industry a) (status a) (status_history a)
    (response_date a) (response_days a) (interview_dates a) (offer_date a)
    (rejection_date a) ty txt (notes a) (tags a).

(** [addFeedback(applicationId, feedbackType, feedbackText = '')] *)
Definition addFeedback (today : jsstring) (f : file)
    (applicationId feedbackType feedbackText : jsstring)
  : option application * file :=
  let t := loadTracker today f in
  match find_app applicationId (applications t) with
  | None => (None, f)
  | Some app =>
      (Some (set_feedback (Some feedbackType) (Some feedbackText) app),
       saveTracker today
         (TrackerFile (meta t)
            (update_first applicationId
               (set_feedback (Some feedbackType) (Some feedbackText))
               (applications t))))
  end.

(** The call of the command line: role and company, a URL and no
    source. *)
Definition acme_data : application_data :=
  Data None (js "Head of Product") (js "Acme")
    None (Some (js "https://www.linkedin.com/jobs/view/4366369039/"))
    None None None None None.

End Intake.

(** ** Digest documents: the marked job lines *)

Module DigestText.

Import Scrape.

Fixpoint span_until (stop : N) (s : jsstring) : jsstring * jsstring :=
  match s with
  | [] => ([], [])
  | c :: s' =>
      if (c =? stop)%N then ([], s)
      else let '(a, b) := span_until stop s' in (c :: a, b)
  end.

(** One match of
    [- \[M\] \[[^\]]*\]\((https?:[^)]+)\)] at the head of [s], for a
    marker [M] out of [markers]: the marker, the link text, the URL and
    what follows the match. *)
Definition parse_job_line (markers : list N) (s : jsstring)
  : option (N * jsstring * jsstring * jsstring) :=
  match s with
  | 45%N :: 32%N :: 91%N :: mk :: 93%N :: 32%N :: 91%N :: s1 =>
      if bool_decide (mk ∈ markers) then
        match span_until 93 s1 with
        | (label, 93%N :: 40%N :: s2) =>
            let scheme :=
              if startsWith (js "https:") s2 then Some 6%nat
              else if startsWith (js "http:") s2 then Some 5%nat
              else None in
            match scheme with
            | Some n =>
                match span_until 41 (drop n s2) with
                | (c :: body, 41%N :: rest) =>
                    Some (mk, label, take n s2 ++ c :: body, rest)
                | _ => None
                end
            | None => None
            end
        | _ => None
        end
      else None
  | _ => None
  end.

Definition line_start (prev : option N) : bool :=
  match prev with
  | None => true
  | Some c => is_line_terminator c
  end.

(** The [while ((m = re.exec(content)) !== null)] loop for
    [/^- \[(x|-)\] \[[^\]]*\]\((https?:[^)]+)\)/gm]: the URLs of all
    matches, left to right; [inside] counts the code units still covered
    by the previous match. *)
Fixpoint marked_urls (prev : option N) (inside : nat) (s : jsstring)
  : list jsstring :=
  match s with
  | [] => []
  | c :: s' =>
      match inside with
      | S n => marked_urls (Some c) n s'
      | O =>
          if line_start prev then
            match parse_job_line [120%N; 45%N] s with
            | Some (_, _, u, rest) =>
                u :: marked_urls (Some c) (length s - length rest - 1) s'
            | None => marked_urls (Some c) 0 s'
            end
          else marked_urls (Some c) 0 s'
      end
  end.

(** The files of [DIGESTS_DIR], by name. *)
Abbreviation directory := (gmap jsstring jsstring).

Definition is_digest_name (f : jsstring) : bool :=
  startsWith (js "linkedin-jobs-") f && endsWith (js ".md") f.

Definition ids_of_urls (l : list jsstring) : gset jsstring :=
  foldr (fun u acc =>
           match getJobId u with
           | Some i => {[ i ]} ∪ acc
           | None => acc
           end) ∅ l.

(** [getExcludedJobIdsFromPreviousDigests()] *)
Definition getExcludedJobIdsFromPreviousDigests (dir : directory)
  : gset jsstring :=
  map_fold (fun name content acc =>
              if is_digest_name name
              then ids_of_urls (marked_urls None 0 content) ∪ acc
              else acc) ∅ dir.

(** The name of the digest of a day. *)
Definition digest_name (today : jsstring) : jsstring :=
  js "linkedin-jobs-" ++ today ++ js ".md".

(** No code unit [c] in [s]. *)
Definition free_of (c : N) (s : jsstring) : bool :=
  forallb (fun d => negb (d =? c)%N) s.

(** The text of a job line of a digest: marker, link text, URL. *)
Definition job_line_text (mk : N) (label u : jsstring) : jsstring :=
  js "- [" ++ [mk] ++ js "] [" ++ label ++ js "](" ++ u ++ js ")".

(** The URLs [https?:[^)]+] matches as a whole. *)
Definition is_link_url (u : jsstring) : bool :=
  (startsWith (js "https:") u && (6 <? length u)%nat
   || startsWith (js "http:") u && (5 <? length u)%nat)
  && free_of 41 u.

(** No line terminator in [s]. *)
Definition plain (s : jsstring) : bool :=
  forallb (fun c => negb (is_line_terminator c)) s.

(** The last code unit of [p :: s]. *)
Definition last_or (p : N) (s : jsstring) : N := default p (last s).

End DigestText.

(** ** parse-linkedin-job-emails.cjs: the e-mail path *)

Module EmailDigest.

Import Scrape DigestText.

(** A record as [extractJobLinks] returns it. *)
Record job := Job {
  url : jsstring;
  title : jsstring;
  company : jsstring;
  workType : jsstring
}.

#[global] Instance job_eq_dec : EqDecision job.
Proof. solve_decision. Defined.

Definition RELEVANCE_KEYWORDS : list jsstring :=
  map js ["igaming"; "i-gaming"; "casino"; "live casino"; "tv games"; "bingo";
          "lottery"; "lotteries"; "gambling"; "sportsbook"; "betting"; "slot";
          "product manager"; "head of product"; "cpo"; "compliance";
          "compliance manager"; "remote"; "mga"]%string.

Definition title_and_url (j : job) : jsstring :=
  toLowerCase (title j ++ js " " ++ url j).

Definition isRelevant (j : job) : bool :=
  existsb (fun kw => includes (toLowerCase kw) (title_and_url j))
    RELEVANCE_KEYWORDS.

Definition EXCLUDE_KEYWORDS : list jsstring :=
  map js ["on-site"; "onsite"; "on site"; "in-office"; "in office"; "hybrid";
          "relocation"]%string.

Definition isExcluded (j : job) : bool :=
  existsb (fun kw => includes kw (title_and_url j)) EXCLUDE_KEYWORDS.

(** [isNonPmRole(job)] *)
Definition isNonPmRole (j : job) : bool :=
  let t := toLowerCase (title j) in
  if test false pm_titles t then false
  else if test true engineer_titles t then true
  else if test true developer_titles t then true
  else if test true developer_word t
          && negb (test true (Lit (js "product")) t)
  then true
  else false.

Record collected := Collected {
  seenUrls : gset jsstring;
  seenJobIds : gset jsstring;
  results : list job
}.

Definition nothing_collected : collected := Collected ∅ ∅ [].

(** The body of [for (const job of jobs)] in [main]. *)
Definition collect (st : collected) (j : job) : collected :=
  if negb (isRelevant j) then st
  else if isExcluded j then st
  else if isNonPmRole j then st
  else
    match getJobId (url j) with
    | Some jobId =>
        if bool_decide (jobId ∈ seenJobIds st) then st
        else Collected ({[ url j ]} ∪ seenUrls st)
               ({[ jobId ]} ∪ seenJobIds st) (results st ++ [j])
    | None =>
        if bool_decide (url j ∈ seenUrls st) then st
        else Collected ({[ url j ]} ∪ seenUrls st) (seenJobIds st)
               (results st ++ [j])
    end.

Definition collect_all (l : list job) : collected :=
  fold_left collect l nothing_collected.

Definition has_igaming : regex :=
  alts [Seq Bow (Seq (Lit (js "igaming")) Bow); Lit (js "i-gaming");
        Lit (js "gambling"); Lit (js "casino"); Lit (js "sportsbook");
        Lit (js "betting"); Seq (Lit (js "mga")) Bow; Lit (js "live casino");
        Lit (js "bingo"); Lit (js "lottery"); Seq (Lit (js "slot")) Bow].

(** [scoreJob(job)] *)
Definition scoreJob (j : job) : Z :=
  let t := title_and_url j in
  let hasIgaming := test false has_igaming t in
  let add (c : bool) (n : Z) (score : Z) := if c then score + n else score in
  let score := 0 in
  let score :=
    add (hasIgaming
         && test false (lits ["compliance"; "gambling"; "casino"; "sportsbook";
                              "betting"; "mga"; "igaming"]%string) t) 3 score in
  let score :=
    add (hasIgaming
         && test false (alts [Lit (js "live casino"); Lit (js "bingo");
                              Lit (js "lottery"); Seq (Lit (js "slot")) Bow]) t)
      2 score in
  let score :=
    add (test false (Lit (js "compliance")) t && negb hasIgaming
         && test false
              (alts [Lit (js "banking"); Lit (js "private bank");
                     Lit (js "revolut"); Lit (js "fintech");
                     Seq (Lit (js "payments")) Bow;
                     Seq (Lit (js "trading")) Bow; Lit (js "brokerage");
                     Seq (Lit (js "wealth")) Bow; Seq (Lit (js "crypto")) Bow;
                     Lit (js "financial services")]) t) (-3) score in
  let score :=
    add (test false
           (alts [Lit (js "senior product manager"); Lit (js "head of product");
                  Seq (Lit (js "cpo")) Bow; Lit (js "chief product")]) t)
      2 score in
  let score :=
    add (test false
           (alts [Seq (Lit (js "compliance "))
                    (Seq (Opt (Lit (js "product "))) (Lit (js "manager")));
                  Lit (js "product owner")]) t && hasIgaming) 1 score in
  let score := add (test false (Lit (js "product manager")) t) 1 score in
  let score := add (test false (Lit (js "remote")) t) 1 score in
  let score :=
    add (test false
           (alts [Lit (js "star trek"); Lit (js "fleet command");
                  Lit (js "video game"); Lit (js "esports");
                  Seq (Lit (js "game studio")) Bow; Seq (Lit (js "unity")) Bow;
                  Seq (Lit (js "unreal")) Bow]) t) (-2) score in
  let score :=
    add (test false
           (alts [Lit (js "junior"); Seq (Lit (js "intern")) Bow;
                  Lit (js "graduate")]) t) (-2) score in
  let score := add (negb (includes (js "/jobs/view/") (url j))) (-5) score in
  Z.max 0 (Z.min 10 score).

(** [.sort((a, b) => b.score - a.score)], stable. *)
Fixpoint insert_by_score (x : job * Z) (l : list (job * Z)) : list (job * Z) :=
  match l with
  | [] => [x]
  | y :: l' =>
      if x.2 - y.2 <=? 0 then y :: insert_by_score x l' else x :: l
  end.

Definition sort_by_score (l : list (job * Z)) : list (job * Z) :=
  fold_left (fun acc x => insert_by_score x acc) l [].

Definition is_excluded_id (excludedIds : gset jsstring) (j : job) : bool :=
  match getJobId (url j) with
  | Some i => bool_decide (i ∈ excludedIds)
  | None => false
  end.

(** [withScore] after the exclusion of the applied and rejected ids. *)
Definition withScore (excludedIds : gset jsstring) (res : list job)
  : list (job * Z) :=
  filter (fun x => is_excluded_id excludedIds (x.1) = false)
    (sort_by_score
       (map (fun j => (j, scoreJob j))
          (filter (fun j => includes (js "/jobs/view/") (url j) = true) res))).

(** [fmt(j)] for a record without summary fields. *)
Definition fmt (j : job) : jsstring :=
  let t :=
    replace_pipes
      (if truthy (title j) && (length (title j) <? 120)%nat
       then title j else VIEW_JOB) in
  let c :=
    replace_pipes (if truthy (company j) then company j else [EM_DASH]) in
  let ty :=
    capitalize (if truthy (workType j) then workType j else js "unknown") in
  js "- [ ] [" ++ t ++ SEP ++ c ++ SEP ++ ty ++ js "](" ++ url j ++ js ")".

Definition EXCLUSION_NOTE : jsstring :=
  js "Applied/rejected (from previous digests) are excluded below.*".

Definition OTHER_HEADING : jsstring :=
  js "## Other (PM roles, check if relevant)".

Definition header_lines (today : jsstring) (best other : nat) : list jsstring :=
  [ js "# LinkedIn jobs (from your Job Alert emails) " ++ [EM_DASH]
      ++ js " " ++ today;
    [];
    js "*Parsed from inbox (last 7 days). Sorted by relevance to iGaming + "
      ++ js "Senior PM / Head of Product / CPO / Compliance.*";
    js "*`[ ]` to process " ++ [MIDDOT] ++ js " `[x]` applied " ++ [MIDDOT]
      ++ js " `[-]` rejected. See `data/Applied.md` for applications. "
      ++ EXCLUSION_NOTE;
    [];
    js "**Best match: " ++ digits_of_nat best ++ js "** | Other: "
      ++ digits_of_nat other;
    [];
    js "---";
    [];
    js "## Best match (iGaming / target role)";
    [] ].

(** The text [main] writes for the records that passed the loop. *)
Definition digest_content (today : jsstring) (excludedIds : gset jsstring)
    (res : list job) : jsstring :=
  let ws := withScore excludedIds res in
  let best := filter (fun x => 5 <= x.2) ws in
  let other := filter (fun x => x.2 < 5) ws in
  let lines :=
    header_lines today (length best) (length other)
    ++ concat (map (fun x => [fmt (x.1); []]) best)
    ++ [js "---"; []; OTHER_HEADING; []]
    ++ concat (map (fun x => [fmt (x.1); []]) other) in
  join [NL] lines.

(** [main], from the records extracted from the mail on: the digest
    directory afterwards. *)
Definition main (today : jsstring) (dryRun : bool) (dir : directory)
    (raw : list job) : directory :=
  let res := results (collect_all raw) in
  let content :=
    digest_content today (getExcludedJobIdsFromPreviousDigests dir) res in
  if dryRun then dir
  else <[digest_name today := content]> dir.

(** The two raw records of the scenario of the specification, as
    [extractJobLinks] would return them. *)
Definition mail_record_1 : job :=
  Job (js "https://www.linkedin.com/jobs/view/123?x=1") REPEATED_TITLE [] [].

Definition mail_record_2 : job :=
  Job (js "https://www.linkedin.com/jobs/view/123")
    (js "Senior Product Manager") (js "Acme") [].

(** The key under which the loop of [main] remembers a record: the
    LinkedIn job id of its URL, or the URL itself when it has none. *)
Definition identity (j : job) : jsstring + jsstring :=
  match getJobId (url j) with
  | Some i => inl i
  | None => inr (url j)
  end.

(** The three filters at the head of the loop. *)
Definition passes (j : job) : bool :=
  isRelevant j && negb (isExcluded j) && negb (isNonPmRole j).

(** What the loop keeps between two records: the records kept so far
    have distinct identities, and the two sets hold exactly their URLs
    and ids. *)
Definition collected_ok (st : collected) : Prop :=
  NoDup (identity <$> results st) /\
  (forall u, u ∈ seenUrls st <-> exists j, j ∈ results st /\ url j = u) /\
  (forall i, i ∈ seenJobIds st <->
             exists j, j ∈ results st /\ getJobId (url j) = Some i).

(** The order of the digest: no record before one with a higher
    score. *)
Definition by_score (a b : job * Z) : Prop := b.2 <= a.2.

(** A record whose digest line is one line and a job line: no "]" and
    no line feed in title, company and work type, and a URL the
    job-line pattern accepts, without line feed. *)
Definition printable (j : job) : bool :=
  free_of 93 (title j) && free_of 93 (company j) && free_of 93 (workType j)
  && free_of 10 (title j) && free_of 10 (company j) && free_of 10 (workType j)
  && is_link_url (url j) && free_of 10 (url j).

End EmailDigest.

(** ** fetch-remote-pm-rss.cjs: the RSS merge path *)

Module RssMerge.

Import DigestText.

(** What the feed parsers return for one item. *)
Record feed_item := FeedItem {
  item_title : jsstring;
  link : jsstring;
  item_location : jsstring
}.

(** An element of a [byFeed] list. *)
Record entry := Entry {
  e_title : jsstring;
  e_url : jsstring;
  e_location : option jsstring
}.

(** [RSS_SOURCES] with [FEED_TO_SOURCE]: feed id and source key. *)
Definition RSS_SOURCES : list (jsstring * jsstring) :=
  [ (js "Remotive Product", js "remotive");
    (js "Remotive PM", js "remotive");
    (js "WWR", js "wwr");
    (js "RemoteOK", js "remoteok");
    (js "JobsCollider Product", js "jobscollider");
    (js "JobsCollider PM", js "jobscollider") ].

Definition FOORILLA : jsstring := js "Foorilla".

(** [sanitizeTitleForMarkdown(title)] *)
Definition sanitizeTitleForMarkdown (t : jsstring) : jsstring :=
  slice 0 120 (trim (collapse_ws (replace_pipes t))).

Definition PM_TITLE_INCLUDE : list jsstring :=
  map js ["product manager"; "product lead"; "head of product"; "cpo";
          "chief product officer"; "product owner"; "product director";
          "product head"; "growth product"; "technical product manager";
          "senior product manager"; "lead product manager";
          "principal product manager"; "product specialist";
          "director of product"; "vp product"; "vice president product";
          "product management"]%string.

Definition PM_TITLE_EXCLUDE : list jsstring :=
  map js ["account executive"; "sales manager"; "sales representative";
          "business development"; "support engineer"; "customer support";
          "client support"; "tier 1 support"; "tier 2 support";
          "wordpress developer"; "software engineer"; "developer";
          "devsecops"; "devops"; "qa analyst"; "quality assurance";
          "werkstudent"; "intern "; " intern"; "product engineer";
          "product developer"]%string.

(** [isProductRole(title)] *)
Definition isProductRole (t : jsstring) : bool :=
  let t := toLowerCase t in
  existsb (fun kw => includes kw t) PM_TITLE_INCLUDE
  && negb (existsb (fun kw => includes kw t) PM_TITLE_EXCLUDE).

(** [isFoorillaProductRelated(title)] *)
Definition isFoorillaProductRelated (t : jsstring) : bool :=
  let t := toLowerCase t in
  if negb (includes (js "product") t) then false
  else negb (existsb (fun kw => includes kw t)
               (map js ["product engineer"; "product developer";
                        "product designer"]%string)).

Definition FOORILLA_EUROPE_KEYWORDS : list jsstring :=
  map js ["europe"; "eu "; " uk"; "united kingdom"; "germany"; "deutschland";
          "france"; "spain"; "italy"; "netherlands"; "holland"; "poland";
          "portugal"; "ireland"; "belgium"; "austria"; "switzerland";
          "sweden"; "norway"; "denmark"; "finland"; "romania"; "czech";
          "greece"; "hungary"; "luxembourg"; "croatia"; "bulgaria"; "serbia";
          "slovenia"; "slovakia"; "estonia"; "latvia"; "lithuania"; "malta";
          "cyprus"; "iceland"; "munich"; "berlin"; "london"; "dublin";
          "amsterdam"; "paris"; "madrid"; "barcelona"; "warsaw"; "lisbon";
          "vienna"; "zurich"; "stockholm"; "oslo"; "copenhagen"; "helsinki";
          "bucharest"; "prague"; "athens"; "budapest"; "zagreb"; "sofia";
          "belgrade"; "ljubljana"; "bratislava"; "tallinn"; "riga"; "vilnius";
          "valletta"; "reykjavik"]%string.

(** [isEuropeanLocation(location)] *)
Definition isEuropeanLocation (location : jsstring) : bool :=
  if negb (truthy (trim location)) then false
  else
    let lower := js " " ++ toLowerCase location ++ js " " in
    existsb (fun kw =>
               includes (js " " ++ kw) lower
               || includes (js " " ++ kw ++ js ",") lower
               || includes (js "-" ++ kw) lower)
      FOORILLA_EUROPE_KEYWORDS.

Record gathered := Gathered {
  seenUrls : gset jsstring;
  byFeed : gmap jsstring (list entry)
}.

Definition push_entry (feedId : jsstring) (e : entry) (g : gathered)
  : gathered :=
  Gathered ({[ e_url e ]} ∪ seenUrls g)
    (<[feedId := default [] (byFeed g !! feedId) ++ [e]]> (byFeed g)).

(** The body of [for (const item of items)] for an RSS source. *)
Definition take_rss_item (feedId : jsstring) (g : gathered) (it : feed_item)
  : gathered :=
  let url := trim (link it) in
  if negb (truthy url) || bool_decide (url ∈ seenUrls g) then g
  else if negb (isProductRole (item_title it)) then g
  else push_entry feedId
         (Entry (sanitizeTitleForMarkdown (item_title it)) url None) g.

(** One RSS source; [None] stands for a fetch that throws. *)
Definition take_source (fetched : jsstring -> option (list feed_item))
    (g : gathered) (source : jsstring * jsstring) : gathered :=
  let feedId := source.1 in
  let g :=
    match byFeed g !! feedId with
    | Some _ => g
    | None => Gathered (seenUrls g) (<[feedId := []]> (byFeed g))
    end in
  match fetched feedId with
  | Some items => fold_left (take_rss_item feedId) items g
  | None => g
  end.

(** The body of [for (const item of foorillaItems)]. *)
Definition take_foorilla_item (g : gathered) (it : feed_item) : gathered :=
  let url := trim (link it) in
  if negb (truthy url) || bool_decide (url ∈ seenUrls g) then g
  else if negb (isProductRole (item_title it))
          && negb (isFoorillaProductRelated (item_title it)) then g
  else
    let location := collapse_ws (trim (item_location it)) in
    if negb (isEuropeanLocation location) then g
    else push_entry FOORILLA
           (Entry (sanitizeTitleForMarkdown (item_title it)) url
              (Some location)) g.

(** What the gathering loops keep: the URL of every entry is
    non-empty and in [seenUrls], no feed has a URL twice, and no URL is
    in two feeds. *)
Definition gathered_ok (g : gathered) : Prop :=
  (forall f l e, byFeed g !! f = Some l -> e ∈ l ->
                 e_url e ∈ seenUrls g /\ e_url e <> []) /\
  (forall f l, byFeed g !! f = Some l -> NoDup (e_url <$> l)) /\
  (forall f1 f2 l1 l2 e1 e2,
     f1 <> f2 -> byFeed g !! f1 = Some l1 -> byFeed g !! f2 = Some l2 ->
     e1 ∈ l1 -> e2 ∈ l2 -> e_url e1 <> e_url e2).

Definition job_line (feedId : jsstring) (e : entry) : jsstring :=
  let display :=
    if truthy (e_title e) then
      match e_location e with
      | Some l =>
          if truthy l then e_title e ++ SEP ++ l ++ SEP ++ feedId
          else e_title e ++ SEP ++ feedId
      | None => e_title e ++ SEP ++ feedId
      end
    else feedId in
  js "- [ ] [" ++ display ++ js "](" ++ e_url e ++ js ")".

(** The lines and the statistics of one source, in the loop over
    [ALL_SOURCES]. *)
Definition source_lines (g : gathered) (feedId : jsstring)
  : list jsstring * jsstring * nat :=
  let l := default [] (byFeed g !! feedId) in
  let stat := feedId ++ js ": " ++ digits_of_nat (length l) in
  match l with
  | [] => ([], stat, 0%nat)
  | _ =>
      (([NL] ++ js "### " ++ feedId ++ js " (" ++ digits_of_nat (length l)
          ++ js ")" ++ [NL]) :: map (job_line feedId) l,
       stat, length l)
  end.

Definition RSS_HEADING : jsstring := js "## Remote job boards (RSS)".

Definition sectionHeader : jsstring := [NL; NL] ++ RSS_HEADING ++ [NL; NL].

Definition sectionIntro : jsstring :=
  [42; 1055; 1086; 32; 1092; 1080; 1076; 1072; 1084; 58; 32]%N
  ++ js "Remotive, WWR, RemoteOK, JobsCollider (Product/PM), "
  ++ js "Foorilla (scrape). BettingJobs "
  ++ [8212; 32; 1086; 1090; 1076; 1077; 1083; 1100; 1085; 1099; 1081; 32;
      1092; 1072; 1081; 1083; 32]%N
  ++ js "digests/bettingjobs-YYYY-MM-DD.md.*  " ++ [NL].

Definition stats_label : jsstring :=
  [42; 42; 1055; 1086; 32; 1092; 1080; 1076; 1072; 1084; 58; 42; 42; 32]%N.

Definition foorilla_header (today : jsstring) : jsstring :=
  js "# Foorilla PM jobs " ++ [EM_DASH] ++ js " " ++ today ++ [NL; NL]
  ++ [42; 1048; 1089; 1090; 1086; 1095; 1085; 1080; 1082; 58; 32]%N
  ++ js "[Foorilla](https://foorilla.com/hiring/) (Product/PM).*" ++ [NL; NL].

Definition default_digest (today : jsstring) : jsstring :=
  js "# Job digest " ++ [EM_DASH] ++ js " " ++ today ++ [NL; NL]
  ++ js "*Sources: LinkedIn (email) + Remotive, We Work Remotely, "
  ++ js "RemoteOK, JobsCollider (RSS).*"
  ++ [NL] ++ js "*[ ] to process " ++ [MIDDOT] ++ js " [x] applied "
  ++ [MIDDOT] ++ js " [-] rejected.*" ++ [NL].

Record options := Options {
  dryRun : bool;
  noMerge : bool;
  onlyFoorilla : bool;
  sourceFlags : gset jsstring
}.

(** [main], from the parsed feeds on: the digest directory afterwards. *)
Definition main (today : jsstring) (o : options)
    (fetched : jsstring -> option (list feed_item))
    (foorillaItems : list feed_item) (dir : directory) : directory :=
  let useAllSources := bool_decide (sourceFlags o = ∅) in
  let rssSourcesToRun :=
    if useAllSources then RSS_SOURCES
    else filter (fun src => src.2 ∈ sourceFlags o) RSS_SOURCES in
  let runFoorilla :=
    useAllSources || bool_decide (js "foorilla" ∈ sourceFlags o) in
  let g := Gathered ∅ ∅ in
  let g :=
    if negb (onlyFoorilla o)
    then fold_left (take_source fetched) rssSourcesToRun g
    else g in
  let g :=
    if runFoorilla || onlyFoorilla o
    then
      let g :=
        match byFeed g !! FOORILLA with
        | Some _ => g
        | None => Gathered (seenUrls g) (<[FOORILLA := []]> (byFeed g))
        end in
      fold_left take_foorilla_item foorillaItems g
    else g in
  let ALL_SOURCES :=
    if onlyFoorilla o then [FOORILLA]
    else map fst rssSourcesToRun ++ (if runFoorilla then [FOORILLA] else []) in
  let per_source := map (source_lines g) ALL_SOURCES in
  let jobLines := concat (map (fun x => x.1.1) per_source) in
  let feedStats := map (fun x => x.1.2) per_source in
  let statsLine := stats_label ++ join (js " | ") feedStats ++ [NL; NL] in
  let block :=
    sectionHeader ++ sectionIntro ++ statsLine ++ join [NL; NL] jobLines
    ++ (match jobLines with [] => [] | _ => [NL] end) in
  if dryRun o then dir
  else
    let rssOnlyName :=
      (if onlyFoorilla o then js "foorilla-pm-" else js "remote-pm-rss-")
      ++ today ++ js ".md" in
    let rssOnlyContent :=
      (if onlyFoorilla o then foorilla_header today else sectionIntro)
      ++ statsLine ++ trim (join [NL; NL] jobLines) ++ [NL] in
    let dir := <[rssOnlyName := rssOnlyContent]> dir in
    if noMerge o || onlyFoorilla o then dir
    else
      let mainContent :=
        match dir !! digest_name today with
        | Some c => c
        | None => default_digest today
        end in
      if includes RSS_HEADING mainContent then dir
      else <[digest_name today := trimEnd mainContent ++ block]> dir.

(** A digest of the day before, with one LinkedIn job and one job from
    the Remotive feed, both marked as applied; the records of a later
    day, which bring both jobs again. *)
Definition REMOTIVE_URL : jsstring :=
  js "https://remotive.com/remote-jobs/product/senior-product-manager-1234".

Definition earlier_digest : jsstring :=
  join [NL]
    [ js "# Job digest";
      [];
      js "- [x] [Head of Product " ++ [MIDDOT] ++ js " Acme " ++ [MIDDOT]
        ++ js " Remote](https://www.linkedin.com/comm/jobs/view/555)";
      [];
      RSS_HEADING;
      [];
      js "- [x] [Senior Product Manager " ++ [MIDDOT]
        ++ js " Remotive Product](" ++ REMOTIVE_URL ++ js ")";
      [] ].

Definition earlier_directory : directory :=
  {[ js "linkedin-jobs-2026-02-06.md" := earlier_digest ]}.

Definition later_mail : list EmailDigest.job :=
  [ EmailDigest.Job (js "https://www.linkedin.com/comm/jobs/view/555")
      (js "Head of Product (Remote)") (js "Acme") (js "remote");
    EmailDigest.Job (js "https://www.linkedin.com/comm/jobs/view/556")
      (js "Senior Product Manager, Casino") [] [] ].

Definition later_feeds (feedId : jsstring) : option (list feed_item) :=
  if eqb feedId (js "Remotive Product")
  then Some [FeedItem (js "Senior Product Manager") REMOTIVE_URL []]
  else Some [].

Definition all_sources : options := Options false false false ∅.

(** The directory after the e-mail step and the RSS step of the later
    day. *)
Definition later_directory : directory :=
  main (js "2026-02-07") all_sources later_feeds []
    (EmailDigest.main (js "2026-02-07") false earlier_directory later_mail).

End RssMerge.

(** ** filter-digest-remote-playwright.cjs: enrichment with checkpoints *)

Module FilterDigest.

Import Scrape DigestText.

(** A value of [stateResults]: [{ remove: true }] or
    [{ remove: false, newLine }]. *)
Record saved := SavedResult {
  remove : bool;
  newLine : option jsstring
}.

#[global] Instance saved_eq_dec : EqDecision saved.
Proof. solve_decision. Defined.

(** [digest-filter-state.json]: digest name to [results]; a missing or
    unreadable file is the empty object. *)
Record disk := Disk {
  digest : option jsstring;
  filterState : gmap jsstring (gmap jsstring saved)
}.

#[global] Instance disk_eq_dec : EqDecision disk.
Proof. solve_decision. Defined.

(** [loadFilterState(digestName)], then [stateSlice.results || {}] *)
Definition loadFilterState (digestName : jsstring) (d : disk)
  : gmap jsstring saved :=
  default ∅ (filterState d !! digestName).

(** [saveFilterState(digestName, { results })] *)
Definition saveFilterState (digestName : jsstring)
    (results : gmap jsstring saved) (d : disk) : disk :=
  Disk (digest d) (<[digestName := results]> (filterState d)).

(** [line.match(JOB_LINE_RE)]: marker, link text and URL. *)
Definition match_job_line (line : jsstring)
  : option (N * jsstring * jsstring) :=
  match parse_job_line [32%N; 120%N; 45%N] line with
  | Some (mk, label, u, []) => Some (mk, label, u)
  | _ => None
  end.

Definition is_job_line (line : jsstring) : bool :=
  match match_job_line line with Some _ => true | None => false end.

(** [s.split(' · ')[0]] *)
Fixpoint before_sep (s : jsstring) : jsstring :=
  if startsWith SEP s then []
  else match s with
       | [] => []
       | c :: s' => c :: before_sep s'
       end.

(** [isGenericLinkText(linkText)] *)
Definition isGenericLinkText (linkText : jsstring) : bool :=
  if negb (truthy linkText) || negb (truthy (trim linkText)) then true
  else
    let t := trim (before_sep linkText) in
    test true (Seq Bol (Seq (Lit (js "View job"))
                          (Seq (Opt (Lit (js "."))) Eol))) t
    || (length t <? 4)%nat.

Inductive work_type := Remote | Hybrid | OnSite | UnknownType.

Definition work_type_text (w : work_type) : jsstring :=
  match w with
  | Remote => js "remote"
  | Hybrid => js "hybrid"
  | OnSite => js "on-site"
  | UnknownType => js "unknown"
  end.

(** What the browser gave for one job page, as far as [runFilter]
    looks at it: the predicates on the final URL and on the HTML
    ([isLoginOrAuthwallPage], [isJobClosed], [getWorkTypeFromPage]) and
    the texts taken from the page ([parseTitleAndCompanyFromPageTitle],
    [getCompanyFromPage]) are represented by their results. *)
Inductive visit :=
| Throws
| LoginRedirect
| AuthwallPage
| ClosedPage
| JobPage (workType : work_type) (pageTitle pageCompany htmlCompany : jsstring).

Record run_state := RunState {
  stateResults : gmap jsstring saved;
  toRemove : gset nat;
  skipBlankAfter : gset nat;
  lineUpdates : gmap nat jsstring;
  processedThisRun : nat;
  on_disk : disk
}.

Definition header_prefix : jsstring := js "**Best match: ".
Definition header_middle : jsstring := js "** | Other: ".

(** A match of [\*\*Best match: (\d+)\*\* \| Other: (\d+)$] (flag [m])
    at the head of [s]: its length. *)
Definition header_at (s : jsstring) : option nat :=
  if startsWith header_prefix s then
    let s1 := drop (length header_prefix) s in
    let d1 := take_digits s1 in
    let s2 := drop (length d1) s1 in
    if (0 <? length d1)%nat && startsWith header_middle s2 then
      let s3 := drop (length header_middle) s2 in
      let d2 := take_digits s3 in
      let ends :=
        match drop (length d2) s3 with
        | [] => true
        | c :: _ => is_line_terminator c
        end in
      if (0 <? length d2)%nat && ends
      then Some (length header_prefix + length d1 + length header_middle
                 + length d2)%nat
      else None
    else None
  else None.

(** [newContent.replace(headerCountRe, ...)]: the first header line. *)
Fixpoint replace_header (repl : jsstring) (prev : option N) (s : jsstring)
  : jsstring :=
  match s with
  | [] => []
  | c :: s' =>
      match (if line_start prev then header_at s else None) with
      | Some n => repl ++ drop n s
      | None => c :: replace_header repl (Some c) s'
      end
  end.

Definition OTHER_HEADING : jsstring :=
  js "## Other (PM roles, check if relevant)".

(** The loop of [writeDigestFromState] over the lines: the lines kept,
    and the two counters. *)
Fixpoint kept_lines (toRemove skipBlankAfter : gset nat)
    (lineUpdates : gmap nat jsstring) (i : nat) (inBest : bool)
    (lines : list jsstring) : list jsstring * nat * nat :=
  match lines with
  | [] => ([], 0%nat, 0%nat)
  | line :: rest =>
      if bool_decide (i ∈ toRemove) || bool_decide (i ∈ skipBlankAfter)
      then kept_lines toRemove skipBlankAfter lineUpdates (S i) inBest rest
      else
        let inBest := if eqb line OTHER_HEADING then false else inBest in
        let '(l, b, o) :=
          kept_lines toRemove skipBlankAfter lineUpdates (S i) inBest rest in
        let l := default line (lineUpdates !! i) :: l in
        if is_job_line line
        then if inBest then (l, S b, o) else (l, b, S o)
        else (l, b, o)
  end.

(** [writeDigestFromState(filePath, lines, toRemove, skipBlankAfter,
    lineUpdates)]: the text written. *)
Definition digest_from_state (lines : list jsstring)
    (toRemove skipBlankAfter : gset nat) (lineUpdates : gmap nat jsstring)
  : jsstring :=
  let '(newLines, bestCount, otherCount) :=
    kept_lines toRemove skipBlankAfter lineUpdates 0 true lines in
  replace_header
    (header_prefix ++ digits_of_nat bestCount ++ header_middle
     ++ digits_of_nat otherCount)
    None (join [NL] newLines).

(** [writeDigestFromState] followed by [saveFilterState], from the
    values the run holds in memory. *)
Definition persist (digestName : jsstring) (lines : list jsstring)
    (st : run_state) : run_state :=
  RunState (stateResults st) (toRemove st) (skipBlankAfter st)
    (lineUpdates st) (processedThisRun st)
    (saveFilterState digestName (stateResults st)
       (Disk (Some (digest_from_state lines (toRemove st) (skipBlankAfter st)
                      (lineUpdates st)))
          (filterState (on_disk st)))).

Definition DEFAULT_BATCH_SIZE : nat := 15.

(** [stateResults[jobId] = { remove: true }] with its two sets. *)
Definition mark_removed (lines : list jsstring) (lineIdx : nat)
    (jobId : jsstring) (st : run_state) : run_state :=
  RunState (<[jobId := SavedResult true None]> (stateResults st))
    ({[ lineIdx ]} ∪ toRemove st)
    (if bool_decide (lines !! S lineIdx = Some [])
     then {[ S lineIdx ]} ∪ skipBlankAfter st else skipBlankAfter st)
    (lineUpdates st) (S (processedThisRun st)) (on_disk st).

Definition mark_enriched (lineIdx : nat) (jobId line : jsstring)
    (st : run_state) : run_state :=
  RunState (<[jobId := SavedResult false (Some line)]> (stateResults st))
    (toRemove st) (skipBlankAfter st)
    (<[lineIdx := line]> (lineUpdates st))
    (S (processedThisRun st)) (on_disk st).

(** The line an open remote (or unclassified) job gets. *)
Definition enriched_line (mk : N) (linkText url : jsstring) (w : work_type)
    (pageTitle pageCompany htmlCompany : jsstring) : jsstring :=
  let currentTitle :=
    if includes SEP linkText then trim (before_sep linkText)
    else trim linkText in
  let title :=
    if isGenericLinkText linkText && truthy pageTitle then pageTitle
    else currentTitle in
  let company :=
    if truthy pageCompany then pageCompany
    else if truthy htmlCompany then htmlCompany
    else [EM_DASH] in
  js "- [" ++ [mk] ++ js "] [" ++ title ++ SEP ++ company ++ SEP
  ++ capitalize (work_type_text w) ++ js "](" ++ url ++ js ")".

(** How an iteration of the batch loop ends: with the next iteration,
    or with the [return] at the batch limit. *)
Inductive flow :=
| Next (st : run_state)
| Return (st : run_state).

(** The batch test at the end of an iteration. *)
Definition after_item (digestName : jsstring) (lines : list jsstring)
    (batchSize : option nat) (st : run_state) : flow :=
  let hitBatchLimit :=
    match batchSize with
    | Some b => (b <=? processedThisRun st)%nat
    | None => false
    end in
  let periodicSave :=
    match batchSize with
    | Some _ => false
    | None =>
        (0 <? processedThisRun st)%nat
        && (processedThisRun st mod DEFAULT_BATCH_SIZE =? 0)%nat
    end in
  let st :=
    if hitBatchLimit || periodicSave then persist digestName lines st
    else st in
  if hitBatchLimit then Return st else Next st.

(** One iteration of [for (let k = 0; k < jobLineIndices.length; k++)];
    [batchSize] is [None] for [Number.POSITIVE_INFINITY]. *)
Definition iteration (digestName : jsstring) (lines : list jsstring)
    (batchSize : option nat) (page : nat -> visit) (k lineIdx : nat)
    (st : run_state) : flow :=
  match match_job_line (default [] (lines !! lineIdx)) with
  | None => Next st
  | Some (mk, linkText, url) =>
      match getJobId url with
      | None => Next st
      | Some jobId =>
          match stateResults st !! jobId with
          | Some _ => Next st
          | None =>
              match page k with
              | LoginRedirect | AuthwallPage => Next st
              | Throws => after_item digestName lines batchSize st
              | ClosedPage =>
                  after_item digestName lines batchSize
                    (mark_removed lines lineIdx jobId st)
              | JobPage w pageTitle pageCompany htmlCompany =>
                  match w with
                  | Hybrid | OnSite =>
                      after_item digestName lines batchSize
                        (mark_removed lines lineIdx jobId st)
                  | Remote | UnknownType =>
                      after_item digestName lines batchSize
                        (mark_enriched lineIdx jobId
                           (enriched_line mk linkText url w pageTitle
                              pageCompany htmlCompany) st)
                  end
              end
          end
      end
  end.

(** The batch loop from index [k] on. *)
Fixpoint batch_loop (digestName : jsstring) (lines : list jsstring)
    (batchSize : option nat) (page : nat -> visit) (k : nat)
    (indices : list nat) (st : run_state) : flow :=
  match indices with
  | [] => Next st
  | lineIdx :: rest =>
      match iteration digestName lines batchSize page k lineIdx st with
      | Return st' => Return st'
      | Next st' => batch_loop digestName lines batchSize page (S k) rest st'
      end
  end.

(** [content.split('\n')] *)
Fixpoint split_lines_from (cur : jsstring) (s : jsstring) : list jsstring :=
  match s with
  | [] => [reverse cur]
  | c :: s' =>
      if (c =? NL)%N then reverse cur :: split_lines_from [] s'
      else split_lines_from (c :: cur) s'
  end.

Definition split_lines (s : jsstring) : list jsstring := split_lines_from [] s.

Fixpoint job_line_indices (i : nat) (lines : list jsstring) : list nat :=
  match lines with
  | [] => []
  | line :: rest =>
      if is_job_line line then i :: job_line_indices (S i) rest
      else job_line_indices (S i) rest
  end.

(** The loop of [applyStateToDigest], folded into the state of the
    run. *)
Definition apply_saved (lines : list jsstring) (st : run_state)
    (lineIdx : nat) : run_state :=
  match match_job_line (default [] (lines !! lineIdx)) with
  | None => st
  | Some (_, _, url) =>
      match getJobId url with
      | None => st
      | Some jobId =>
          match stateResults st !! jobId with
          | None => st
          | Some sv =>
              if remove sv then
                RunState (stateResults st) ({[ lineIdx ]} ∪ toRemove st)
                  (if bool_decide (lines !! S lineIdx = Some [])
                   then {[ S lineIdx ]} ∪ skipBlankAfter st
                   else skipBlankAfter st)
                  (lineUpdates st) (processedThisRun st) (on_disk st)
              else if truthy_opt (newLine sv) then
                RunState (stateResults st) (toRemove st) (skipBlankAfter st)
                  (<[lineIdx := default [] (newLine sv)]> (lineUpdates st))
                  (processedThisRun st) (on_disk st)
              else st
          end
      end
  end.

(** The state of a run when the batch loop starts. *)
Definition initial_state (digestName : jsstring) (lines : list jsstring)
    (d : disk) : run_state :=
  fold_left (apply_saved lines) (job_line_indices 0 lines)
    (RunState (loadFilterState digestName d) ∅ ∅ ∅ 0 d).

(** Is there a job line whose id has no saved result yet? *)
Definition is_remaining (lines : list jsstring) (results : gmap jsstring saved)
    (lineIdx : nat) : bool :=
  match match_job_line (default [] (lines !! lineIdx)) with
  | Some (_, _, url) =>
      match getJobId url with
      | Some jobId =>
          match results !! jobId with Some _ => false | None => true end
      | None => false
      end
  | None => false
  end.

(** What a run holds, in memory and on disk, when it is killed after
    [n] iterations of the batch loop (or has returned before). *)
Definition interrupted_after (n : nat) (digestName : jsstring)
    (batchSize : option nat) (page : nat -> visit) (d : disk) : flow :=
  let lines := split_lines (default [] (digest d)) in
  batch_loop digestName lines batchSize page 0
    (take n (job_line_indices 0 lines))
    (initial_state digestName lines d).

(** The results a run holds in memory and those the state file has. *)
Definition in_memory (f : flow) : gmap jsstring saved :=
  match f with Next st | Return st => stateResults st end.

Definition persisted (digestName : jsstring) (f : flow)
  : gmap jsstring saved :=
  match f with
  | Next st | Return st => loadFilterState digestName (on_disk st)
  end.

(** The id of the job line at an index of the digest. *)
Definition line_id (lines : list jsstring) (lineIdx : nat) : option jsstring :=
  match match_job_line (default [] (lines !! lineIdx)) with
  | Some (_, _, url) => getJobId url
  | None => None
  end.

(** Processed items whose results can be in memory only: those since
    the last periodic save, or all of the run while its batch is not
    full. *)
Definition pending (batchSize : option nat) (processed : nat) : nat :=
  match batchSize with
  | None => (processed mod DEFAULT_BATCH_SIZE)%nat
  | Some _ => processed
  end.

(** The collaborator could not be reached for a visit. *)
Definition unreachable (v : visit) : bool :=
  match v with
  | Throws | LoginRedirect | AuthwallPage => true
  | ClosedPage | JobPage _ _ _ _ => false
  end.

(** [runFilter(filePath, batchSize)]: the disk when the process has
    ended; [sessionExpired] is the test on the feed page before the
    loop. *)
Definition runFilter (digestName : jsstring) (batchSize : option nat)
    (sessionExpired : bool) (page : nat -> visit) (d : disk) : disk :=
  match digest d with
  | None => d
  | Some content =>
      let lines := split_lines content in
      let indices := job_line_indices 0 lines in
      match indices with
      | [] => d
      | _ =>
          let st := initial_state digestName lines d in
          if forallb (fun i => negb (is_remaining lines (stateResults st) i))
               indices
          then
            Disk (Some (digest_from_state lines (toRemove st)
                          (skipBlankAfter st) (lineUpdates st)))
              (filterState d)
          else if sessionExpired then d
          else
            match batch_loop digestName lines batchSize page 0 indices st with
            | Return st' => on_disk st'
            | Next st' => on_disk (persist digestName lines st')
            end
      end
  end.

(** The state a run holds when an iteration has ended. *)
Definition state_of (f : flow) : run_state :=
  match f with Next st | Return st => st end.

(** What every iteration of a run on the disk [d] keeps: the results
    saved before the run are on disk, the disk holds a part of the
    results in memory, the state of the other digests is as it was, and
    every result in memory is one saved before the run or the result
    for the id of a job line of the digest. *)
Definition run_kept (digestName : jsstring) (lines : list jsstring)
    (d : disk) (st : run_state) : Prop :=
  loadFilterState digestName d ⊆ loadFilterState digestName (on_disk st) /\
  loadFilterState digestName (on_disk st) ⊆ stateResults st /\
  (forall name, name <> digestName ->
                filterState (on_disk st) !! name = filterState d !! name) /\
  (forall j, is_Some (stateResults st !! j) ->
             is_Some (loadFilterState digestName d !! j) \/
             exists i, line_id lines i = Some j).

(** An item was processed: one result for [jobId] more in memory, the
    disk as before. *)
Definition marked (jobId : jsstring) (st st1 : run_state) : Prop :=
  (exists sv, stateResults st1 = <[jobId := sv]> (stateResults st)) /\
  processedThisRun st1 = S (processedThisRun st) /\
  on_disk st1 = on_disk st.

(** What holds between two iterations, and at the [return]: the state
    file has a part of the results in memory, and those it lacks are as
    many as the items pending. *)
Definition checkpointed (digestName : jsstring) (batchSize : option nat)
    (f : flow) : Prop :=
  match f with
  | Next st =>
      loadFilterState digestName (on_disk st) ⊆ stateResults st /\
      size (stateResults st)
      = (size (loadFilterState digestName (on_disk st))
         + pending batchSize (processedThisRun st))%nat /\
      match batchSize with
      | Some b => (processedThisRun st < b)%nat
      | None => True
      end
  | Return st => loadFilterState digestName (on_disk st) = stateResults st
  end.

(** No result for [j], in memory or on disk. *)
Definition absent (digestName : jsstring) (j : jsstring) (f : flow) : Prop :=
  in_memory f !! j = None /\ persisted digestName f !! j = None.

(** A digest of two jobs as the e-mail path writes it, and an empty
    state file. *)
Definition two_jobs_digest : jsstring :=
  EmailDigest.digest_content (js "2026-02-07") ∅
    [EmailDigest.Job (js "https://www.linkedin.com/comm/jobs/view/101")
       (js "Senior Product Manager, Casino") [] [];
     EmailDigest.Job (js "https://www.linkedin.com/comm/jobs/view/102")
       (js "Head of Product (Remote)") [] []].

Definition two_jobs_disk : disk := Disk (Some two_jobs_digest) ∅.

Definition TODAY_DIGEST : jsstring := js "linkedin-jobs-2026-02-07.md".

Definition remote_page : visit :=
  JobPage Remote (js "Head of Product") (js "Acme") [].

(** A line of a digest as the steps write it: no line terminator
    inside, and a job line for [JOB_LINE_RE] when it starts with
    "- [". *)
Definition digest_line (line : jsstring) : bool :=
  plain line && (is_job_line line || negb (startsWith (js "- [") line)).

(** A digest with two marked job lines out of three. *)
Definition marked_digest_lines : list jsstring :=
  [ js "## Best match (iGaming / target role)";
    js "- [x] [Head of Product](https://www.linkedin.com/jobs/view/1)";
    [];
    js "- [ ] [Product Owner](https://example.com/jobs/2)";
    js "- [-] [Senior PM](http://example.com/jobs/3)" ].

(** The URL of a job line marked applied or rejected. *)
Definition marked_url (line : jsstring) : option jsstring :=
  match match_job_line line with
  | Some (mk, _, u) =>
      if bool_decide (mk ∈ [120%N; 45%N]) then Some u else None
  | None => None
  end.

End FilterDigest.

(** ** deduplicate-applications.js: merging duplicate applications *)

Module Dedupe.

Import Tracker.

(** The literal [statusOrder]; a key that is not one of its five own
    properties yields no number. *)
Definition statusOrder (s : jsstring) : option nat :=
  if eqb s (js "applied") then Some 0%nat
  else if eqb s (js "responded") then Some 1%nat
  else if eqb s (js "interview") then Some 2%nat
  else if eqb s (js "offer") then Some 3%nat
  else if eqb s (js "rejected") then Some 4%nat
  else None.

(** [x > y] on two looked-up ranks: a comparison with [undefined] (or
    with an inherited property) is false. *)
Definition rank_gt (x y : option nat) : bool :=
  match x, y with
  | Some n, Some m => (m <? n)%nat
  | _, _ => false
  end.

Definition UNKNOWN_ROLE : jsstring := js "Unknown Role".

Definition blank_line : jsstring := [10%N; 10%N].

(** The body of the loop over the other records of a company: what one
    [other] contributes to [main]. *)
Definition merge_into (main other : application) : application :=
  let main :=
    if truthy_opt (jobId other) && negb (truthy_opt (jobId main))
    then set_jobId (jobId other) main else main in
  let main :=
    if truthy (url other) && negb (truthy (url main))
    then set_url (url other) main else main in
  let main :=
    if truthy (role other) && negb (eqb (role other) UNKNOWN_ROLE)
       && (eqb (role main) UNKNOWN_ROLE
           || (length (role main) <? length (role other))%nat)
    then set_role (role other) main else main in
  let main :=
    if truthy (location other) && negb (truthy (location main))
    then set_location (location other) main else main in
  let main :=
    if rank_gt (statusOrder (status other)) (statusOrder (status main))
    then set_status_history (status_history main ++ status_history other)
           (set_status (status other) main)
    else main in
  if truthy (notes other) && negb (includes (notes other) (notes main))
  then set_notes
         ((if truthy (notes main) then notes main ++ blank_line else [])
          ++ notes other) main
  else main.

(** [app.company.toLowerCase().trim()] *)
Definition company_key (a : application) : jsstring :=
  trim (toLowerCase (company a)).

(** A record together with its position in [tracker.applications]: the
    groups hold the very objects of that array. *)
Abbreviation cell := (nat * application)%type.

(** Keys for which [byCompany[key]] is already truthy on the empty
    object literal (inherited from [Object.prototype]); [push] does not
    exist on those values and the call throws. *)
Definition inherited_key (k : jsstring) : bool :=
  eqb k (js "constructor") || eqb k (js "__proto__").

Fixpoint group_push (k : jsstring) (x : cell)
    (g : list (jsstring * list cell)) : list (jsstring * list cell) :=
  match g with
  | [] => [(k, [x])]
  | (k', l) :: g' =>
      if eqb k' k then (k', l ++ [x]) :: g'
      else (k', l) :: group_push k x g'
  end.

(** The [forEach] that fills [byCompany], in insertion order of the
    keys; [None] when it throws. *)
Fixpoint group_all (apps : list cell) (g : list (jsstring * list cell))
  : option (list (jsstring * list cell)) :=
  match apps with
  | [] => Some g
  | x :: apps' =>
      let k := company_key (x.2) in
      if inherited_key k then None
      else group_all apps' (group_push k x g)
  end.

(** Property names that are array indices: canonical decimal numerals
    below 2^32 - 1. [Object.entries] lists them first, in ascending
    order. *)
Fixpoint numeral_value (acc : N) (s : jsstring) : N :=
  match s with
  | [] => acc
  | c :: s' => numeral_value (10 * acc + (c - 48))%N s'
  end.

Definition is_array_index (k : jsstring) : bool :=
  match k with
  | [] => false
  | c :: rest =>
      forallb is_digit k
      && (negb (c =? 48)%N || match rest with [] => true | _ => false end)
      && (length k <=? 10)%nat
      && (numeral_value 0 k <? 4294967295)%N
  end.

Fixpoint insert_index (e : jsstring * list cell)
    (l : list (jsstring * list cell)) : list (jsstring * list cell) :=
  match l with
  | [] => [e]
  | e' :: l' =>
      if (numeral_value 0 (e.1) <? numeral_value 0 (e'.1))%N
      then e :: l
      else e' :: insert_index e l'
  end.

(** [Object.entries(byCompany)] *)
Definition entries (g : list (jsstring * list cell))
  : list (jsstring * list cell) :=
  foldr insert_index [] (filter (fun e => is_array_index (e.1) = true) g)
  ++ filter (fun e => is_array_index (e.1) = false) g.

Definition COMPANY_SITE : jsstring := js "company_site".

(** The comparator passed to [companyApps.sort]. *)
Definition compare_source (a b : application) : Z :=
  if eqb (source a) COMPANY_SITE && negb (eqb (source b) COMPANY_SITE)
  then -1
  else if negb (eqb (source a) COMPANY_SITE) && eqb (source b) COMPANY_SITE
  then 1
  else 0.

(** [Array.prototype.sort] is stable: an element goes after those that
    do not compare greater than it. *)
Fixpoint insert_stable (x : cell) (l : list cell) : list cell :=
  match l with
  | [] => [x]
  | y :: l' =>
      if compare_source (y.2) (x.2) <=? 0 then y :: insert_stable x l'
      else x :: l
  end.

Definition sort_cells (l : list cell) : list cell :=
  fold_left (fun acc x => insert_stable x acc) l [].

Record progress := Progress {
  heap : list application;      (* [apps], with the writes to the mains *)
  merged : list application;
  toRemove : gset jsstring
}.

(** One iteration of [duplicates.forEach]. *)
Definition merge_group (p : progress) (companyApps : list cell) : progress :=
  match sort_cells companyApps with
  | [] => p
  | (idx, main0) :: others =>
      let main := fold_left (fun m o => merge_into m (o.2)) others main0 in
      Progress (<[idx := main]> (heap p))
        (merged p ++ [main])
        (foldr (fun o acc => {[ id (o.2) ]} ∪ acc) (toRemove p) others)
  end.

(** [deduplicated.findIndex(a => a.id === mergedApp.id)] and the
    assignment at that index. *)
Fixpoint put_at_first_id (m : application) (l : list application)
  : list application :=
  match l with
  | [] => []
  | a :: l' => if has_id (id m) a then m :: l' else a :: put_at_first_id m l'
  end.

Inductive outcome :=
| Throws
| NoDuplicates
| Saved (f : file).

Fixpoint number_from (n : nat) (l : list application) : list cell :=
  match l with
  | [] => []
  | a :: l' => (n, a) :: number_from (S n) l'
  end.

(** [deduplicateApplications()] on an existing tracker file. *)
Definition deduplicateApplications (today : jsstring) (t : tracker)
  : outcome :=
  let apps := applications t in
  match group_all (number_from 0 apps) [] with
  | None => Throws
  | Some byCompany =>
      let duplicates :=
        filter (fun e => (1 < length (e.2))%nat) (entries byCompany) in
      match duplicates with
      | [] => NoDuplicates
      | _ =>
          let p :=
            fold_left (fun p e => merge_group p (e.2)) duplicates
              (Progress apps [] ∅) in
          let deduplicated :=
            filter (fun a => id a ∉ toRemove p) (heap p) in
          let deduplicated :=
            fold_left (fun l m => put_at_first_id m l) (merged p)
              deduplicated in
          Saved (saveTracker today (TrackerFile (meta t) deduplicated))
      end
  end.

(** Two records for "Acme" created by two ingestion paths, two days
    apart, neither carrying a job id. *)
Definition acme_scan : application :=
  Application (js "app-2") (js "2026-02-03") (js "Unknown Role") (js "ACME ")
    COMPANY_SITE [] None [] [] APPLIED
    [HistoryEntry APPLIED (js "2026-02-03") (js "resume found in Applied")]
    None None [] None None None None [] [].

Definition acme_pair : tracker :=
  TrackerFile (Meta (js "1.0") (js "2026-02-01") (js "2026-02-03"))
    [acme_application; acme_scan].

Definition acme_withdrawn : application :=
  Application (js "app-3") (js "2026-02-03") (js "Senior Product Manager")
    (js "Acme") (js "linkedin") [] None [] [] WITHDRAWN
    [HistoryEntry APPLIED (js "2026-02-03") [];
     HistoryEntry WITHDRAWN (js "2026-02-05") []]
    None None [] None None None None [] [].

Definition acme_rejected : application :=
  Application (js "app-4") (js "2026-02-03") (js "Senior Product Manager")
    (js "Acme") (js "linkedin") [] None [] [] REJECTED
    [HistoryEntry APPLIED (js "2026-02-03") [];
     HistoryEntry REJECTED (js "2026-02-07") []]
    None None [] None (Some (js "2026-02-07")) None None [] [].

Definition tracker_of (l : list application) : tracker :=
  TrackerFile (Meta (js "1.0") (js "2026-02-01") (js "2026-02-03")) l.



End Dedupe.

(* ===================================================================== *)
(** * Properties *)
(* ===================================================================== *)

(** ** The application tracker *)

Section TrackerFacts.

Import Tracker.

Variable Date_ms : jsstring -> option Z.

Lemma has_id_true i a : has_id i a = true <-> id a = i.
Proof. unfold has_id, eqb. apply bool_decide_eq_true. Qed.

Lemma has_id_false i a : has_id i a = false <-> id a <> i.
Proof. unfold has_id, eqb. apply bool_decide_eq_false. Qed.

Lemma find_app_id i l a : find_app i l = Some a -> id a = i.
Proof.
  unfold find_app. intros H. apply find_some in H as [_ H].
  by apply has_id_true.
Qed.

Lemma find_update_first_same i f l :
  (forall a, id (f a) = id a) ->
  find_app i (update_first i f l) = f <$> find_app i l.
Proof.
  intros Hid. unfold find_app.
  induction l as [|a l IH]; [done|]. simpl.
  destruct (has_id i a) eqn:E; simpl.
  - assert (has_id i (f a) = true) as ->; [|done].
    apply has_id_true. rewrite Hid. by apply has_id_true.
  - by rewrite E.
Qed.

Lemma find_update_first_other i j f l :
  (forall a, id (f a) = id a) -> i <> j ->
  find_app i (update_first j f l) = find_app i l.
Proof.
  intros Hid Hne. unfold find_app.
  induction l as [|a l IH]; [done|]. simpl.
  destruct (has_id j a) eqn:E; simpl.
  - apply has_id_true in E.
    assert (has_id i a = false) as -> by (apply has_id_false; congruence).
    assert (has_id i (f a) = false) as ->; [|done].
    apply has_id_false. rewrite Hid. congruence.
  - by rewrite IH.
Qed.

Lemma apply_status_id st d n a : id (apply_status Date_ms st d n a) = id a.
Proof. unfold apply_status. repeat (case_match; simpl); done. Qed.

Lemma apply_status_date_applied st d n a :
  date_applied (apply_status Date_ms st d n a) = date_applied a.
Proof. unfold apply_status. repeat (case_match; simpl); done. Qed.

Lemma apply_status_history st d n a :
  status_history (apply_status Date_ms st d n a)
  = status_history a ++ [HistoryEntry st d n].
Proof. unfold apply_status. repeat (case_match; simpl); done. Qed.

Lemma apply_status_status st d n a :
  status (apply_status Date_ms st d n a) = st.
Proof. unfold apply_status. repeat (case_match; simpl); done. Qed.

(** The response fields after one transition. *)
Lemma apply_status_response st d n a :
  (response_date (apply_status Date_ms st d n a),
   response_days (apply_status Date_ms st d n a))
  = if eqb st RESPONDED && negb (truthy_opt (response_date a))
    then (Some d, day_difference Date_ms (date_applied a) d)
    else (response_date a, response_days a).
Proof. unfold apply_status. repeat (case_match; simpl in * ); done. Qed.

Lemma apply_status_offer_date st d n a :
  offer_date (apply_status Date_ms st d n a)
  = if eqb st OFFER then Some d else offer_date a.
Proof. unfold apply_status. repeat (case_match; simpl in * ); done. Qed.

Lemma apply_status_rejection_date st d n a :
  rejection_date (apply_status Date_ms st d n a)
  = if eqb st REJECTED then Some d else rejection_date a.
Proof. unfold apply_status. repeat (case_match; simpl in * ); done. Qed.

Lemma apps_of_loadTracker today f :
  applications (loadTracker today f) = apps_of f.
Proof. by destruct f. Qed.

(** What one call does to the record an id denotes. *)
Lemma stored_perform i f c :
  stored i (perform Date_ms f c)
  = if bool_decide (c_id c = i)
    then apply_status Date_ms (c_status c) (effective_date c) (c_notes c)
           <$> stored i f
    else stored i f.
Proof.
  unfold perform, updateStatus, stored.
  rewrite apps_of_loadTracker.
  destruct (find_app (c_id c) (apps_of f)) as [a|] eqn:E; simpl.
  - case_bool_decide as Hi.
    + subst i. rewrite find_update_first_same, E; [done|].
      intros. apply apply_status_id.
    + rewrite find_update_first_other; [done| |done].
      intros. apply apply_status_id.
  - case_bool_decide as Hi; [|done]. subst i. by rewrite E.
Qed.

(** An invariant of the record of [i] that every call preserves holds
    after any sequence of calls. *)
Lemma perform_all_invariant (P : application -> Prop) (Q : call -> Prop) i :
  (forall c a, Q c -> c_id c = i -> P a ->
     P (apply_status Date_ms (c_status c) (effective_date c) (c_notes c) a)) ->
  forall cs f a,
    Forall Q cs -> stored i f = Some a -> P a ->
    exists a', stored i (perform_all Date_ms f cs) = Some a' /\ P a'.
Proof.
  intros Hstep cs. induction cs as [|c cs IH]; intros f a HQ Hf HP.
  - exists a. done.
  - apply Forall_cons in HQ as [Hc HQ]. simpl.
    pose proof (stored_perform i f c) as Hs. rewrite Hf in Hs.
    case_bool_decide as Hi; simpl in Hs.
    + eapply IH; [done|exact Hs|]. by apply Hstep.
    + eapply IH; [done|exact Hs|done].
Qed.

Lemma truthy_or_else d t : t <> [] -> truthy (or_else d t) = true.
Proof.
  intros Ht. unfold or_else. destruct d as [s|].
  - destruct (truthy s) eqn:E; [done|]. by destruct t.
  - by destruct t.
Qed.

(** Between two dates that are whole days, the difference is the number
    of days between them. *)
Lemma day_difference_whole_days applied response x y :
  Date_ms applied = Some (x * MS_PER_DAY) ->
  Date_ms response = Some (y * MS_PER_DAY) ->
  day_difference Date_ms applied response = Some (y - x).
Proof.
  intros Ha Hr. unfold day_difference. rewrite Ha, Hr. f_equal.
  rewrite <- Z.mul_sub_distr_r. by apply Z.div_mul.
Qed.

(** C2: [response_days] is computed exactly once, at the first
    transition into 'responded' of a record that has no response date
    yet, as the floor of the time between [date_applied] and the
    response date in days; whatever calls follow (for any record, any
    status, any date) leave [response_date] and [response_days] as that
    transition set them. *)
Theorem C2_response_days_computed_once :
  forall (f : file) (i : jsstring) (a : application)
         (before : list call) (c : call) (after : list call),
    stored i f = Some a ->
    truthy_opt (response_date a) = false ->
    Forall (fun c' => ~ (c_id c' = i /\ c_status c' = RESPONDED)) before ->
    c_id c = i -> c_status c = RESPONDED ->
    Forall (fun c' => c_today c' <> []) (c :: after) ->
    exists a',
      stored i (perform_all Date_ms f (before ++ c :: after)) = Some a' /\
      response_date a' = Some (effective_date c) /\
      response_days a'
      = day_difference Date_ms (date_applied a) (effective_date c).
Proof.
  intros f i a before c after Hf Hnone Hbefore Hid Hst Htoday.
  unfold perform_all. rewrite fold_left_app. simpl.
  (* before the first response: no response date, same applied date *)
  destruct (perform_all_invariant
              (fun x => truthy_opt (response_date x) = false /\
                        date_applied x = date_applied a)
              (fun c' => ~ (c_id c' = i /\ c_status c' = RESPONDED)) i)
    with (cs := before) (f := f) (a := a) as (a1 & Hs1 & Hn1 & Hd1);
    [|done|done|done|].
  { intros c' x Hc' Hi' [Hx1 Hx2]. split.
    - pose proof (apply_status_response (c_status c') (effective_date c')
                    (c_notes c') x) as Hr.
      assert (eqb (c_status c') RESPONDED = false) as Hne.
      { apply bool_decide_eq_false. intros ?. by apply Hc'. }
      rewrite Hne in Hr. simpl in Hr. injection Hr as -> _. done.
    - by rewrite apply_status_date_applied. }
  fold (perform_all Date_ms f before) in *.
  (* the first response *)
  pose proof (stored_perform i (perform_all Date_ms f before) c) as Hs2.
  rewrite Hs1, bool_decide_true in Hs2 by done. simpl in Hs2.
  pose proof (apply_status_response (c_status c) (effective_date c)
                (c_notes c) a1) as Hr.
  rewrite Hst, Hn1 in Hr.
  replace (eqb RESPONDED RESPONDED) with true in Hr by done. simpl in Hr.
  injection Hr as Hr1 Hr2.
  apply Forall_cons in Htoday as [Hc Hafter].
  (* afterwards: the response fields are fixed *)
  destruct (perform_all_invariant
              (fun x => response_date x = Some (effective_date c) /\
                        response_days x
                        = day_difference Date_ms (date_applied a)
                            (effective_date c))
              (fun c' => c_today c' <> []) i)
    with (cs := after) (f := perform Date_ms (perform_all Date_ms f before) c)
         (a := apply_status Date_ms (c_status c) (effective_date c)
                 (c_notes c) a1)
    as (a2 & Hs3 & Hd3 & Hn3); [|done|done| |].
  { intros c' x Hc' Hi' [Hx1 Hx2].
    pose proof (apply_status_response (c_status c') (effective_date c')
                  (c_notes c') x) as Hr.
    rewrite Hx1 in Hr. simpl in Hr.
    unfold effective_date at 3 in Hr.
    rewrite truthy_or_else in Hr by done.
    rewrite andb_false_r in Hr. injection Hr as -> ->. done. }
  { rewrite Hst. split; [done|]. by rewrite Hr2, Hd1. }
  exists a2. done.
Qed.

(** C8 as stated fails: a second transition to 'offer' replaces the
    offer date that the first one set. *)
Lemma C8_second_offer_overwrites_date :
  let f1 := perform iso_date_ms acme_file
              (Call (js "2026-02-10") (js "app-1") OFFER None []) in
  let f2 := perform iso_date_ms f1
              (Call (js "2026-02-20") (js "app-1") OFFER None []) in
  (offer_date <$> stored (js "app-1") f1) = Some (Some (js "2026-02-10")) /\
  (offer_date <$> stored (js "app-1") f2) = Some (Some (js "2026-02-20")).
Proof. split; vm_compute; reflexivity. Qed.

(** C8, amended: every transition to 'offer' (to 'rejected') stores the
    date of that transition in [offer_date] ([rejection_date]), whatever
    the field held before, and appends one entry to the status history:
    the last write wins. *)
Theorem C8_offer_rejected_last_write_wins :
  forall (today : jsstring) (f : file) (i : jsstring) (a : application)
         (st : jsstring) (date : option jsstring) (n : jsstring),
    stored i f = Some a ->
    st = OFFER \/ st = REJECTED ->
    exists a',
      fst (updateStatus Date_ms today f i st date n) = Some a' /\
      stored i (snd (updateStatus Date_ms today f i st date n)) = Some a' /\
      status_history a'
      = status_history a ++ [HistoryEntry st (or_else date today) n] /\
      (st = OFFER -> offer_date a' = Some (or_else date today)) /\
      (st = REJECTED -> rejection_date a' = Some (or_else date today)).
Proof.
  intros today f i a st date n Hf Hst.
  exists (apply_status Date_ms st (or_else date today) n a).
  pose proof (stored_perform i f (Call today i st date n)) as Hs.
  unfold perform in Hs. simpl in Hs.
  rewrite bool_decide_true, Hf in Hs by done.
  split; [|split; [exact Hs|]].
  - unfold updateStatus. rewrite apps_of_loadTracker.
    unfold stored in Hf. by rewrite Hf.
  - split; [apply apply_status_history|].
    split; intros ->.
    + by rewrite apply_status_offer_date.
    + by rewrite apply_status_rejection_date.
Qed.

(** C10: an id that matches no record makes [updateStatus] return
    [null] and leave the tracker file exactly as it was: nothing is
    written, so neither [meta.last_updated] nor any record nor any
    status history changes. *)
Theorem C10_unknown_id_writes_nothing :
  forall (today : jsstring) (f : file) (i st : jsstring)
         (date : option jsstring) (n : jsstring),
    stored i f = None ->
    updateStatus Date_ms today f i st date n = (None, f).
Proof.
  intros today f i st date n Hf.
  unfold updateStatus. rewrite apps_of_loadTracker.
  unfold stored in Hf. by rewrite Hf.
Qed.

End TrackerFacts.

(** C2, the scenario of the specification: a response on day 5, then an
    interview, then 'responded' again: [response_days] stays 5. *)
Lemma C2_response_days_witness :
  exists a',
    Tracker.stored (js "app-1")
      (Tracker.perform_all Tracker.iso_date_ms Tracker.acme_file
         ([] ++ Tracker.first_response :: Tracker.later_transitions))
    = Some a' /\
    Tracker.response_date a' = Some (js "2026-02-06") /\
    Tracker.response_days a' = Some 5.
Proof.
  apply (C2_response_days_computed_once Tracker.iso_date_ms
           Tracker.acme_file (js "app-1") Tracker.acme_application []
           Tracker.first_response Tracker.later_transitions).
  - reflexivity.
  - reflexivity.
  - constructor.
  - reflexivity.
  - reflexivity.
  - repeat constructor; discriminate.
Defined.


Lemma C8_last_write_witness :
  exists a',
    fst (Tracker.updateStatus Tracker.iso_date_ms (js "2026-02-20")
           Tracker.acme_file (js "app-1") Tracker.OFFER None []) = Some a' /\
    Tracker.stored (js "app-1")
      (snd (Tracker.updateStatus Tracker.iso_date_ms (js "2026-02-20")
              Tracker.acme_file (js "app-1") Tracker.OFFER None []))
    = Some a' /\
    Tracker.status_history a'
    = Tracker.status_history Tracker.acme_application ++
      [Tracker.HistoryEntry Tracker.OFFER
         (or_else None (js "2026-02-20")) []] /\
    (Tracker.OFFER = Tracker.OFFER ->
     Tracker.offer_date a' = Some (or_else None (js "2026-02-20"))) /\
    (Tracker.OFFER = Tracker.REJECTED ->
     Tracker.rejection_date a' = Some (or_else None (js "2026-02-20"))).
Proof.
  apply (C8_offer_rejected_last_write_wins Tracker.iso_date_ms
           (js "2026-02-20") Tracker.acme_file (js "app-1")
           Tracker.acme_application Tracker.OFFER None []).
  - reflexivity.
  - left. reflexivity.
Defined.

Lemma C10_unknown_id_witness :
  Tracker.updateStatus Tracker.iso_date_ms (js "2026-02-20")
    Tracker.acme_file (js "app-404") Tracker.RESPONDED None (js "call back")
  = (None, Tracker.acme_file).
Proof.
  apply (C10_unknown_id_writes_nothing Tracker.iso_date_ms (js "2026-02-20")
           Tracker.acme_file (js "app-404") Tracker.RESPONDED None
           (js "call back")).
  reflexivity.
Defined.

(** ** Merging duplicate applications *)

Section DedupeFacts.

Import Tracker Dedupe.

Lemma merge_into_id main other : id (merge_into main other) = id main.
Proof. unfold merge_into. repeat (case_match; simpl); done. Qed.

(** Status and history after one merge step, by the rank test alone. *)
Lemma merge_into_status_history main other :
  (status (merge_into main other), status_history (merge_into main other))
  = if rank_gt (statusOrder (status other)) (statusOrder (status main))
    then (status other, status_history main ++ status_history other)
    else (status main, status_history main).
Proof. unfold merge_into. repeat (case_match; simpl in * ); done. Qed.

Lemma statusOrder_Some s n :
  statusOrder s = Some n ->
  (s = js "applied" /\ n = 0%nat) \/ (s = js "responded" /\ n = 1%nat) \/
  (s = js "interview" /\ n = 2%nat) \/ (s = js "offer" /\ n = 3%nat) \/
  (s = js "rejected" /\ n = 4%nat).
Proof.
  unfold statusOrder, eqb. intros H.
  repeat case_bool_decide; simplify_eq; auto 10.
Qed.

Lemma removed_pair (x y : jsstring) :
  x ∈ ({[y]} ∪ ∅ : gset jsstring) <-> x = y.
Proof.
  rewrite elem_of_union, elem_of_singleton. split; [|by left].
  intros [?|H]; [done|]. by apply elem_of_empty in H.
Qed.

Lemma entries_single (e : jsstring * list cell) : entries [e] = [e].
Proof.
  unfold entries. rewrite !filter_cons, !filter_nil.
  destruct (is_array_index e.1); repeat case_decide; try done.
Qed.

(** C6 as stated fails: the two Acme records, both still 'applied',
    merge into one record whose history holds only the entry of the
    record that became the main one; the entry of the other is gone. *)
Lemma C6_history_of_other_record_dropped :
  exists m,
    deduplicateApplications (js "2026-02-04") acme_pair
    = Saved (Some (TrackerFile
                     (Meta (js "1.0") (js "2026-02-01") (js "2026-02-04")) [m]))
    /\ status_history m = status_history acme_scan
    /\ ~ (forall h, h ∈ status_history acme_application ->
                    h ∈ status_history m).
Proof.
  eexists. split; [vm_compute; reflexivity|]. split; [reflexivity|].
  intros H.
  specialize (H (HistoryEntry APPLIED (js "2026-02-01") [])).
  assert (HistoryEntry APPLIED (js "2026-02-01") []
          ∈ status_history acme_application) as Hin by (vm_compute; left).
  apply H in Hin. vm_compute in Hin.
  apply list_elem_of_singleton in Hin. discriminate.
Qed.

(** C6, amended: two records of one organization (same normalized
    company name, distinct ids; dates and job ids play no part) are
    replaced by exactly one record, the main one after the merge.  The
    main record is the first of the two unless only the second comes
    from 'company_site'.  Its status is the other record's when that one
    ranks strictly higher in applied < responded < interview < offer <
    rejected, and then its history is its own followed by the other's;
    otherwise both its status and its history stay its own. *)
Theorem C6_two_records_merge_into_one :
  forall (today : jsstring) (mt : meta_info) (a b : application),
    company_key a = company_key b ->
    inherited_key (company_key a) = false ->
    id a <> id b ->
    exists main other m,
      (main, other)
      = (if negb (eqb (source a) COMPANY_SITE) && eqb (source b) COMPANY_SITE
         then (b, a) else (a, b)) /\
      deduplicateApplications today (TrackerFile mt [a; b])
      = Saved (saveTracker today (TrackerFile mt [m])) /\
      m = merge_into main other /\
      (status m, status_history m)
      = if rank_gt (statusOrder (status other)) (statusOrder (status main))
        then (status other, status_history main ++ status_history other)
        else (status main, status_history main).
Proof.
  intros today mt a b Hkey Hinh Hid.
  assert (eqb (company_key a) (company_key b) = true) as Heq
    by (by apply bool_decide_eq_true).
  unfold deduplicateApplications. simpl.
  rewrite <- Hkey, Hinh. simpl. rewrite Hkey in Heq |- *. rewrite Heq.
  rewrite entries_single. rewrite filter_cons. simpl.
  unfold merge_group, sort_cells.
  cbn [fold_left insert_stable snd heap merged toRemove].
  unfold compare_source.
  destruct (eqb (source a) COMPANY_SITE) eqn:Ea,
           (eqb (source b) COMPANY_SITE) eqn:Eb; simpl.
  all: eexists _, _, _; split; [reflexivity|].
  all: split; [|split; [reflexivity|apply merge_into_status_history]].
  all: do 2 f_equal; f_equal.
  all: rewrite !filter_cons, filter_nil, ?merge_into_id.
  all: repeat case_decide; rewrite ?removed_pair in *;
    try (exfalso; naive_solver).
  all: simpl; unfold has_id, eqb; rewrite ?merge_into_id.
  all: by rewrite bool_decide_true.
Qed.

(** C7 as stated fails for 'withdrawn': merged into a record that is
    still 'applied', a 'withdrawn' record leaves the status 'applied';
    and a record that is 'withdrawn' keeps that status when a 'rejected'
    one is merged into it. *)
Lemma C7_withdrawn_is_not_authoritative :
  (exists m,
     deduplicateApplications (js "2026-02-08")
       (tracker_of [acme_application; acme_withdrawn])
     = Saved (saveTracker (js "2026-02-08") (tracker_of [m]))
     /\ status m = APPLIED) /\
  (exists m,
     deduplicateApplications (js "2026-02-08")
       (tracker_of [acme_withdrawn; acme_rejected])
     = Saved (saveTracker (js "2026-02-08") (tracker_of [m]))
     /\ status m = WITHDRAWN).
Proof.
  split; eexists; (split; [vm_compute; reflexivity|reflexivity]).
Qed.

(** C7, amended: the status that survives a merge is the most advanced
    of the two under applied < responded < interview < offer < rejected,
    so 'rejected' wins against each of these from either side.
    'withdrawn' (like any other text) has no rank: it is never taken over
    from the record merged in, and a main record that holds it keeps it,
    also against 'rejected'. *)
Theorem C7_merged_status :
  forall main other : application,
    (forall n m,
        statusOrder (status main) = Some n ->
        statusOrder (status other) = Some m ->
        statusOrder (status (merge_into main other)) = Some (n `max` m)%nat) /\
    ((status main = REJECTED \/
      (status other = REJECTED /\ is_Some (statusOrder (status main)))) ->
     status (merge_into main other) = REJECTED) /\
    (statusOrder (status other) = None ->
     status (merge_into main other) = status main) /\
    (statusOrder (status main) = None ->
     status (merge_into main other) = status main) /\
    statusOrder WITHDRAWN = None.
Proof.
  intros main other.
  assert (status (merge_into main other)
          = if rank_gt (statusOrder (status other)) (statusOrder (status main))
            then status other else status main) as H.
  { pose proof (merge_into_status_history main other) as H.
    destruct (rank_gt _ _); by injection H as -> _. }
  rewrite H. clear H.
  repeat split.
  - intros n m Hn Hm. rewrite Hn, Hm. unfold rank_gt.
    destruct (Nat.ltb_spec n m).
    + rewrite Hm. f_equal. lia.
    + rewrite Hn. f_equal. lia.
  - intros [Hm|[Ho [n Hn]]].
    + rewrite Hm.
      replace (statusOrder REJECTED) with (Some 4%nat) by done.
      destruct (statusOrder (status other)) as [k|] eqn:Ek; [|done].
      unfold rank_gt. destruct (Nat.ltb_spec 4 k); [|done].
      apply statusOrder_Some in Ek.
      destruct Ek as [[_ ->]|[[_ ->]|[[_ ->]|[[_ ->]|[_ ->]]]]]; lia.
    + rewrite Ho, Hn.
      replace (statusOrder REJECTED) with (Some 4%nat) by done.
      unfold rank_gt. destruct (Nat.ltb_spec n 4); [done|].
      apply statusOrder_Some in Hn.
      destruct Hn as [[_ ->]|[[_ ->]|[[_ ->]|[[_ ->]|[-> _]]]]];
        try lia; done.
  - intros Ho. by rewrite Ho.
  - intros Hm. rewrite Hm. by destruct (statusOrder (status other)).
Qed.

End DedupeFacts.

Lemma C6_two_records_witness :
  exists main other m,
    (main, other)
    = (if negb (eqb (Tracker.source Tracker.acme_application)
                  Dedupe.COMPANY_SITE)
          && eqb (Tracker.source Dedupe.acme_rejected) Dedupe.COMPANY_SITE
       then (Dedupe.acme_rejected, Tracker.acme_application)
       else (Tracker.acme_application, Dedupe.acme_rejected)) /\
    Dedupe.deduplicateApplications (js "2026-02-08")
      (Tracker.TrackerFile
         (Tracker.Meta (js "1.0") (js "2026-02-01") (js "2026-02-03"))
         [Tracker.acme_application; Dedupe.acme_rejected])
    = Dedupe.Saved
        (Tracker.saveTracker (js "2026-02-08")
           (Tracker.TrackerFile
              (Tracker.Meta (js "1.0") (js "2026-02-01") (js "2026-02-03"))
              [m])) /\
    m = Dedupe.merge_into main other /\
    (Tracker.status m, Tracker.status_history m)
    = if Dedupe.rank_gt (Dedupe.statusOrder (Tracker.status other))
           (Dedupe.statusOrder (Tracker.status main))
      then (Tracker.status other,
            Tracker.status_history main ++ Tracker.status_history other)
      else (Tracker.status main, Tracker.status_history main).
Proof.
  apply (C6_two_records_merge_into_one (js "2026-02-08")
           (Tracker.Meta (js "1.0") (js "2026-02-01") (js "2026-02-03"))
           Tracker.acme_application Dedupe.acme_rejected).
  - reflexivity.
  - reflexivity.
  - discriminate.
Defined.

Lemma C7_merged_status_witness :
  Tracker.status (Dedupe.merge_into Tracker.acme_application
                    Dedupe.acme_rejected) = Tracker.REJECTED.
Proof.
  apply (C7_merged_status Tracker.acme_application Dedupe.acme_rejected).
  right. split; [reflexivity|]. exists 0%nat. reflexivity.
Defined.

(** ** Enrichment with checkpoints *)

Section FilterFacts.

Import Scrape DigestText FilterDigest.

Variable digestName : jsstring.
Variable lines : list jsstring.
Variable page : nat -> visit.

Lemma persist_memory st :
  stateResults (persist digestName lines st) = stateResults st /\
  processedThisRun (persist digestName lines st) = processedThisRun st.
Proof. done. Qed.

Lemma persist_disk st :
  loadFilterState digestName (on_disk (persist digestName lines st))
  = stateResults st.
Proof.
  unfold persist, loadFilterState, saveFilterState. simpl.
  by rewrite lookup_insert_eq.
Qed.

Lemma mark_removed_marked i jobId st :
  marked jobId st (mark_removed lines i jobId st).
Proof. split; [by eexists|done]. Qed.

Lemma mark_enriched_marked i jobId l st :
  marked jobId st (mark_enriched i jobId l st).
Proof. split; [by eexists|done]. Qed.

(** The ways through one iteration. *)
Lemma iteration_cases batchSize k i st :
  iteration digestName lines batchSize page k i st = Next st \/
  exists jobId,
    line_id lines i = Some jobId /\ stateResults st !! jobId = None /\
    ((page k = Throws /\
      iteration digestName lines batchSize page k i st
      = after_item digestName lines batchSize st) \/
     (unreachable (page k) = false /\
      exists st1,
        marked jobId st st1 /\
        iteration digestName lines batchSize page k i st
        = after_item digestName lines batchSize st1)).
Proof.
  unfold iteration, line_id.
  destruct (match_job_line (default [] (lines !! i)))
    as [[[mk linkText] u]|]; [|by left].
  destruct (getJobId u) as [jobId|]; [|by left].
  destruct (stateResults st !! jobId) eqn:Hres; [by left|].
  destruct (page k) as [| | | |w pt pc hc] eqn:Hpage; try by left.
  - right. exists jobId. repeat split; try done. by left.
  - right. exists jobId. repeat split; try done. right. split; [done|].
    eexists. split; [|reflexivity]. apply mark_removed_marked.
  - right. exists jobId. repeat split; try done. right. split; [done|].
    destruct w; (eexists; split; [|reflexivity]);
      first [apply mark_removed_marked|apply mark_enriched_marked].
Qed.

Lemma after_item_unbounded st :
  after_item digestName lines None st
  = Next (if (0 <? processedThisRun st)%nat
             && (processedThisRun st mod 15 =? 0)%nat
          then persist digestName lines st else st).
Proof. reflexivity. Qed.

Lemma after_item_bounded b st :
  after_item digestName lines (Some b) st
  = if (b <=? processedThisRun st)%nat
    then Return (persist digestName lines st) else Next st.
Proof. unfold after_item. by destruct (b <=? processedThisRun st)%nat. Qed.

Lemma after_item_checkpointed batchSize st1 :
  loadFilterState digestName (on_disk st1) ⊆ stateResults st1 ->
  match batchSize with
  | Some b =>
      size (stateResults st1)
      = (size (loadFilterState digestName (on_disk st1))
         + processedThisRun st1)%nat /\
      (processedThisRun st1 <= b)%nat
  | None =>
      (processedThisRun st1 = 0 \/ processedThisRun st1 mod 15 <> 0)%nat ->
      size (stateResults st1)
      = (size (loadFilterState digestName (on_disk st1))
         + processedThisRun st1 mod 15)%nat
  end ->
  checkpointed digestName batchSize
    (after_item digestName lines batchSize st1).
Proof.
  intros Hsub Hcount. destruct batchSize as [b|].
  - rewrite after_item_bounded. destruct Hcount as [Hsize Hle].
    destruct (Nat.leb_spec b (processedThisRun st1)).
    + unfold checkpointed. by rewrite persist_disk.
    + done.
  - rewrite after_item_unbounded. unfold checkpointed, pending.
    destruct ((0 <? processedThisRun st1)%nat
              && (processedThisRun st1 mod 15 =? 0)%nat) eqn:E.
    + apply andb_true_iff in E as [_ Hz]. apply Nat.eqb_eq in Hz.
      rewrite persist_disk. destruct (persist_memory st1) as [-> ->].
      unfold DEFAULT_BATCH_SIZE. rewrite Hz. split; [done|]. split; [lia|done].
    + split; [done|]. split; [|done]. apply Hcount.
      apply andb_false_iff in E as [E|E].
      * left. apply Nat.ltb_ge in E. lia.
      * right. by apply Nat.eqb_neq in E.
Qed.

Lemma iteration_checkpointed batchSize k i st :
  checkpointed digestName batchSize (Next st) ->
  checkpointed digestName batchSize
    (iteration digestName lines batchSize page k i st).
Proof.
  intros Hinv.
  destruct (iteration_cases batchSize k i st)
    as [->|(jobId & _ & Hnone & [[_ ->]|(_ & st1 & Hm & ->)])]; [done| |].
  - destruct Hinv as (Hsub & Hsize & Hb).
    apply after_item_checkpointed; [done|].
    unfold pending in Hsize. destruct batchSize; [split; [done|lia]|done].
  - destruct Hinv as (Hsub & Hsize & Hb).
    destruct Hm as ([sv Hres] & Hp & Hd).
    apply after_item_checkpointed; rewrite ?Hres, ?Hd, ?Hp.
    + etrans; [exact Hsub|]. by apply insert_subseteq.
    + rewrite map_size_insert_None by done. rewrite Hsize.
      unfold pending, DEFAULT_BATCH_SIZE. destruct batchSize.
      * split; lia.
      * intros [?|Hnz]; [lia|].
        pose proof (Nat.div_mod_eq (processedThisRun st) 15).
        pose proof (Nat.div_mod_eq (S (processedThisRun st)) 15).
        pose proof (Nat.mod_upper_bound (processedThisRun st) 15).
        pose proof (Nat.mod_upper_bound (S (processedThisRun st)) 15).
        lia.
Qed.

Lemma batch_loop_checkpointed batchSize indices : forall k st,
  checkpointed digestName batchSize (Next st) ->
  checkpointed digestName batchSize
    (batch_loop digestName lines batchSize page k indices st).
Proof.
  induction indices as [|i indices IH]; intros k st Hinv; [done|].
  simpl. pose proof (iteration_checkpointed batchSize k i st Hinv) as H.
  destruct (iteration digestName lines batchSize page k i st); [|done].
  by apply IH.
Qed.

Lemma apply_saved_keeps st i :
  stateResults (apply_saved lines st i) = stateResults st /\
  processedThisRun (apply_saved lines st i) = processedThisRun st /\
  on_disk (apply_saved lines st i) = on_disk st.
Proof. unfold apply_saved. repeat case_match; done. Qed.

Lemma initial_state_keeps d :
  stateResults (initial_state digestName lines d)
  = loadFilterState digestName d /\
  processedThisRun (initial_state digestName lines d) = 0%nat /\
  on_disk (initial_state digestName lines d) = d.
Proof.
  unfold initial_state.
  generalize (job_line_indices 0 lines).
  assert (forall l st,
    stateResults (fold_left (apply_saved lines) l st) = stateResults st /\
    processedThisRun (fold_left (apply_saved lines) l st)
    = processedThisRun st /\
    on_disk (fold_left (apply_saved lines) l st) = on_disk st) as H.
  { induction l as [|i l IH]; intros st; [done|]. simpl.
    destruct (IH (apply_saved lines st i)) as (-> & -> & ->).
    apply apply_saved_keeps. }
  intros l. apply H.
Qed.

Lemma initial_state_checkpointed batchSize d :
  batchSize <> Some 0%nat ->
  checkpointed digestName batchSize
    (Next (initial_state digestName lines d)).
Proof.
  intros Hb. destruct (initial_state_keeps d) as (Hr & Hp & Hd).
  unfold checkpointed. rewrite Hr, Hp, Hd.
  split; [done|]. split.
  - unfold pending. destruct batchSize; simpl; lia.
  - destruct batchSize as [[|b]|]; [done|lia|done].
Qed.

(** The skipped items: an authwall or a login redirect ends the
    iteration with nothing changed, and the loop goes on. *)
Lemma iteration_not_logged_in batchSize k i st :
  page k = LoginRedirect \/ page k = AuthwallPage ->
  iteration digestName lines batchSize page k i st = Next st.
Proof.
  intros Hp. unfold iteration. repeat case_match; try done.
  all: destruct Hp; congruence.
Qed.

Lemma after_item_absent batchSize j st1 :
  absent digestName j (Next st1) ->
  absent digestName j (after_item digestName lines batchSize st1).
Proof.
  intros [Hm Hd]. destruct batchSize as [b|].
  - rewrite after_item_bounded.
    destruct (b <=? processedThisRun st1)%nat; [|done].
    split; [done|]. unfold persisted. by rewrite persist_disk.
  - rewrite after_item_unbounded.
    destruct ((0 <? processedThisRun st1)%nat
              && (processedThisRun st1 mod 15 =? 0)%nat); [|done].
    split; [done|]. unfold persisted. by rewrite persist_disk.
Qed.

Lemma iteration_absent batchSize j k i st :
  (line_id lines i = Some j -> unreachable (page k) = true) ->
  absent digestName j (Next st) ->
  absent digestName j (iteration digestName lines batchSize page k i st).
Proof.
  intros Hun Habs.
  destruct (iteration_cases batchSize k i st)
    as [->|(jobId & Hid & Hnone & [[_ ->]|(Hre & st1 & Hm & ->)])]; [done| |].
  - by apply after_item_absent.
  - apply after_item_absent.
    destruct Habs as [Hmem Hdisk], Hm as ([sv Hres] & _ & Hd).
    assert (jobId <> j) as Hne.
    { intros ->. rewrite Hun in Hre by done. done. }
    split; simpl in *.
    + by rewrite Hres, lookup_insert_ne.
    + by rewrite Hd.
Qed.

Lemma batch_loop_absent batchSize j indices : forall k st,
  (forall n i, indices !! n = Some i -> line_id lines i = Some j ->
               unreachable (page (k + n)) = true) ->
  absent digestName j (Next st) ->
  absent digestName j (batch_loop digestName lines batchSize page k indices st).
Proof.
  induction indices as [|i indices IH]; intros k st Hun Habs; [done|].
  simpl.
  assert (absent digestName j
            (iteration digestName lines batchSize page k i st)) as H.
  { apply iteration_absent; [|done]. intros Hid.
    specialize (Hun 0%nat i eq_refl Hid). by rewrite Nat.add_0_r in Hun. }
  destruct (iteration digestName lines batchSize page k i st); [|done].
  apply IH; [|done]. intros n i' Hn Hid.
  specialize (Hun (S n) i' Hn Hid). by rewrite Nat.add_succ_r in Hun.
Qed.

End FilterFacts.

(** A run that is not interrupted ends with every result it holds in
    the state file. *)
Lemma runFilter_saves_all_results :
  forall (digestName : jsstring) (batchSize : option nat)
         (page : nat -> FilterDigest.visit) (d : FilterDigest.disk)
         (content : jsstring),
    batchSize <> Some 0%nat ->
    FilterDigest.digest d = Some content ->
    let lines := FilterDigest.split_lines content in
    let indices := FilterDigest.job_line_indices 0 lines in
    let st := FilterDigest.initial_state digestName lines d in
    forallb (fun i => negb (FilterDigest.is_remaining lines
                              (FilterDigest.stateResults st) i)) indices
    = false ->
    FilterDigest.loadFilterState digestName
      (FilterDigest.runFilter digestName batchSize false page d)
    = FilterDigest.in_memory
        (FilterDigest.batch_loop digestName lines batchSize page 0 indices st).
Proof.
  intros digestName batchSize page d content Hb Hd lines indices st Hrem.
  unfold FilterDigest.runFilter. rewrite Hd.
  fold lines. fold indices. fold st. rewrite Hrem.
  pose proof (batch_loop_checkpointed digestName lines page batchSize
                indices 0 st
                (initial_state_checkpointed digestName lines batchSize d Hb))
    as H.
  destruct indices as [|i0 rest]; [done|].
  destruct (FilterDigest.batch_loop digestName lines batchSize page 0
              (i0 :: rest) st) as [st'|st'].
  - apply persist_disk.
  - exact H.
Qed.

(** C3 as stated fails: with a batch of three, a run killed after its
    second item has processed both jobs of the digest, holds both
    results in memory, and has written neither the state file nor the
    digest. *)
Lemma C3_processed_items_not_persisted :
  exists st,
    FilterDigest.interrupted_after 2 FilterDigest.TODAY_DIGEST (Some 3%nat)
      (fun _ => FilterDigest.remote_page) FilterDigest.two_jobs_disk
    = FilterDigest.Next st /\
    FilterDigest.processedThisRun st = 2%nat /\
    size (FilterDigest.stateResults st) = 2%nat /\
    FilterDigest.on_disk st = FilterDigest.two_jobs_disk.
Proof.
  eexists. split; [vm_compute; reflexivity|].
  repeat split; vm_compute; reflexivity.
Qed.

(** C3, amended: the state file and the digest are written when the
    batch limit is reached, after every fifteenth processed item of a
    run without batch limit, and at the end of the run.  At whatever
    iteration a run is interrupted, the state file holds a part of the
    results in memory, and the results it lacks are those of the pending
    items: at most 14 without a batch limit, at most [b - 1] with a
    batch of [b >= 1]; after the [return] at the batch limit it holds
    them all. *)
Theorem C3_unsaved_results_are_bounded :
  forall (n : nat) (digestName : jsstring) (batchSize : option nat)
         (page : nat -> FilterDigest.visit) (d : FilterDigest.disk),
    batchSize <> Some 0%nat ->
    let f := FilterDigest.interrupted_after n digestName batchSize page d in
    FilterDigest.checkpointed digestName batchSize f /\
    FilterDigest.persisted digestName f ⊆ FilterDigest.in_memory f /\
    (size (FilterDigest.in_memory f)
     <= size (FilterDigest.persisted digestName f)
        + match batchSize with
          | None => 14
          | Some b => b - 1
          end)%nat.
Proof.
  intros n digestName batchSize page d Hb f.
  assert (FilterDigest.checkpointed digestName batchSize f) as H.
  { apply batch_loop_checkpointed. by apply initial_state_checkpointed. }
  split; [exact H|].
  destruct f as [st|st]; simpl in *.
  - destruct H as (Hsub & Hsize & Hlt). split; [done|].
    rewrite Hsize. unfold FilterDigest.pending, FilterDigest.DEFAULT_BATCH_SIZE.
    destruct batchSize.
    + lia.
    + pose proof (Nat.mod_upper_bound (FilterDigest.processedThisRun st) 15).
      lia.
  - rewrite H. split; [done|lia].
Qed.

Lemma C3_unsaved_results_witness :
  let f := FilterDigest.interrupted_after 1 FilterDigest.TODAY_DIGEST None
             (fun _ => FilterDigest.remote_page) FilterDigest.two_jobs_disk in
  FilterDigest.checkpointed FilterDigest.TODAY_DIGEST None f /\
  FilterDigest.persisted FilterDigest.TODAY_DIGEST f
    ⊆ FilterDigest.in_memory f /\
  (size (FilterDigest.in_memory f)
   <= size (FilterDigest.persisted FilterDigest.TODAY_DIGEST f) + 14)%nat.
Proof.
  apply (C3_unsaved_results_are_bounded 1 FilterDigest.TODAY_DIGEST None
           (fun _ => FilterDigest.remote_page) FilterDigest.two_jobs_disk).
  discriminate.
Defined.

(** C4 as stated fails: the first job page shows the authwall, the loop
    goes on, processes the second job and records it. *)
Lemma C4_loop_continues_after_authwall :
  let d :=
    FilterDigest.runFilter FilterDigest.TODAY_DIGEST (Some 15%nat) false
      (fun k => match k with
                | O => FilterDigest.AuthwallPage
                | S _ => FilterDigest.remote_page
                end)
      FilterDigest.two_jobs_disk in
  FilterDigest.loadFilterState FilterDigest.TODAY_DIGEST d !! js "101" = None /\
  is_Some
    (FilterDigest.loadFilterState FilterDigest.TODAY_DIGEST d !! js "102").
Proof.
  split; [vm_compute; reflexivity|]. eexists. vm_compute. reflexivity.
Qed.

(** C4, amended: when every visit to the lines of a job identity ends
    at a login redirect or an authwall (or throws), no result is written
    for that identity: a state file without a record for it has none
    after the run either, so the next run visits it again.  The batch
    loop does not end there: such an iteration changes nothing and the
    loop goes on with the next line. *)
Theorem C4_unreachable_job_is_not_recorded :
  forall (digestName : jsstring) (batchSize : option nat)
         (sessionExpired : bool) (page : nat -> FilterDigest.visit)
         (d : FilterDigest.disk) (j : jsstring),
    FilterDigest.loadFilterState digestName d !! j = None ->
    (forall n i,
        FilterDigest.job_line_indices 0
          (FilterDigest.split_lines (default [] (FilterDigest.digest d))) !! n
        = Some i ->
        FilterDigest.line_id
          (FilterDigest.split_lines (default [] (FilterDigest.digest d))) i
        = Some j ->
        FilterDigest.unreachable (page n) = true) ->
    FilterDigest.loadFilterState digestName
      (FilterDigest.runFilter digestName batchSize sessionExpired page d) !! j
    = None /\
    (forall lines k i st,
        page k = FilterDigest.LoginRedirect \/
        page k = FilterDigest.AuthwallPage ->
        FilterDigest.iteration digestName lines batchSize page k i st
        = FilterDigest.Next st).
Proof.
  intros digestName batchSize sessionExpired page d j Hnone Hun.
  split; [|intros; by apply iteration_not_logged_in].
  unfold FilterDigest.runFilter.
  destruct (FilterDigest.digest d) as [content|] eqn:Hd; [|done].
  simpl in Hun.
  destruct (FilterDigest.job_line_indices 0 (FilterDigest.split_lines content))
    as [|i0 rest] eqn:Hidx; [done|].
  destruct (forallb _ _); [done|].
  destruct sessionExpired; [done|].
  destruct (initial_state_keeps digestName
              (FilterDigest.split_lines content) d) as (Hr & Hp & Hdk).
  pose proof (batch_loop_absent digestName
                (FilterDigest.split_lines content) page batchSize j
                (i0 :: rest) 0
                (FilterDigest.initial_state digestName
                   (FilterDigest.split_lines content) d)) as H.
  destruct H as [Hm Hdisk].
  - intros n i Hn Hi. by apply (Hun n i).
  - split; simpl; by rewrite ?Hr, ?Hdk.
  - destruct (FilterDigest.batch_loop _ _ _ _ _ _ _) as [st|st].
    + rewrite persist_disk. exact Hm.
    + exact Hdisk.
Qed.

Lemma C4_unreachable_job_witness :
  FilterDigest.loadFilterState FilterDigest.TODAY_DIGEST
    (FilterDigest.runFilter FilterDigest.TODAY_DIGEST (Some 15%nat) false
       (fun k => match k with
                 | O => FilterDigest.AuthwallPage
                 | S _ => FilterDigest.remote_page
                 end)
       FilterDigest.two_jobs_disk) !! js "101"
  = None /\
  (forall lines k i st,
      match k with
      | O => FilterDigest.AuthwallPage
      | S _ => FilterDigest.remote_page
      end = FilterDigest.LoginRedirect \/
      match k with
      | O => FilterDigest.AuthwallPage
      | S _ => FilterDigest.remote_page
      end = FilterDigest.AuthwallPage ->
      FilterDigest.iteration FilterDigest.TODAY_DIGEST lines (Some 15%nat)
        (fun k => match k with
                  | O => FilterDigest.AuthwallPage
                  | S _ => FilterDigest.remote_page
                  end) k i st
      = FilterDigest.Next st).
Proof.
  apply (C4_unreachable_job_is_not_recorded FilterDigest.TODAY_DIGEST
           (Some 15%nat) false
           (fun k => match k with
                     | O => FilterDigest.AuthwallPage
                     | S _ => FilterDigest.remote_page
                     end)
           FilterDigest.two_jobs_disk (js "101")).
  - reflexivity.
  - intros n i Hn Hi.
    destruct n as [|[|n]]; [reflexivity| |].
    + vm_compute in Hn. injection Hn as <-. vm_compute in Hi. discriminate.
    + vm_compute in Hn. discriminate.
Defined.

(** ** The in-run job map of the scrape path *)

Section ScrapeFacts.

Import Scrape.

Variable existingIds : gset jsstring.

Lemma accept_title it i v t :
  accept existingIds it = Some (i, v, t) -> t = normalizeTitle (link_title it).
Proof.
  unfold accept. intros H.
  repeat (case_match; simplify_eq); done.
Qed.

Lemma better_title_spec incoming existing :
  better_title incoming existing = true <->
  incoming <> VIEW_JOB /\
  (existing = VIEW_JOB \/ (length existing < length incoming)%nat).
Proof.
  unfold better_title, eqb.
  rewrite andb_true_iff, negb_true_iff, orb_true_iff, bool_decide_eq_false,
    bool_decide_eq_true, Nat.ltb_lt.
  done.
Qed.

(** What one merge does to the title stored for an id. *)
Lemma stored_title_merge_item jobById it i :
  stored_title (merge_item existingIds jobById it) i
  = match accept existingIds it with
    | Some (i', _, t) =>
        if bool_decide (i' = i) then
          match stored_title jobById i with
          | None => Some t
          | Some old => if better_title t old then Some t else Some old
          end
        else stored_title jobById i
    | None => stored_title jobById i
    end.
Proof.
  unfold merge_item, stored_title.
  destruct (accept existingIds it) as [[[i' v] t]|]; [|done].
  case_bool_decide as Hi.
  - subst i'. destruct (jobById !! i) as [p|] eqn:E; simpl.
    + destruct (better_title t (title p)); [|by rewrite E].
      by rewrite lookup_insert_eq.
    + by rewrite lookup_insert_eq.
  - destruct (jobById !! i') as [p|] eqn:E; simpl.
    + destruct (better_title t (title p)); [|done].
      by rewrite lookup_insert_ne.
    + by rewrite lookup_insert_ne.
Qed.

(** C1 as stated fails in its last clause: a stored placeholder is
    replaced by a real title that is shorter than it. *)
Lemma C1_replacement_can_be_shorter :
  let id123 := js "123" in
  let short := Item (js "https://www.linkedin.com/jobs/view/123") (js "CPO") in
  let before := merge_item ∅ ∅ placeholder_record in
  let after := merge_item ∅ before short in
  stored_title before id123 = Some (js "View job") /\
  stored_title after id123 = Some (js "CPO") /\
  (length (js "CPO") < length (js "View job"))%nat.
Proof. repeat split; vm_compute; first [reflexivity|lia]. Qed.

(** C1, amended: let A and B be two links that the merging loops of a
    scroll iteration accept for one identity not yet in the map, A with
    a placeholder title (empty or 'View job') and B with a title that
    normalizes to a real one.  Merging them in either order leaves B's
    normalized title stored; B then A does not bring the placeholder
    back.  Whenever a merge replaces a stored title, the new title is
    not the placeholder, and it is strictly longer than the old one
    unless the old one is the placeholder. *)
Theorem C1_merge_keeps_real_title :
  forall (jobById : gmap jsstring posting) (A B : item)
         (i vA vB tA tB : jsstring),
    accept existingIds A = Some (i, vA, tA) ->
    accept existingIds B = Some (i, vB, tB) ->
    link_title A = [] \/ link_title A = VIEW_JOB ->
    tB <> VIEW_JOB ->
    jobById !! i = None ->
    stored_title (merge_item existingIds (merge_item existingIds jobById A) B) i
    = Some tB /\
    stored_title (merge_item existingIds (merge_item existingIds jobById B) A) i
    = Some tB /\
    (forall (m : gmap jsstring posting) (it : item) (i' old new : jsstring),
        stored_title m i' = Some old ->
        stored_title (merge_item existingIds m it) i' = Some new ->
        new <> old ->
        new <> VIEW_JOB /\
        (old = VIEW_JOB \/ (length old < length new)%nat)).
Proof.
  intros jobById A B i vA vB tA tB HA HB Hplace HtB Hnone.
  assert (tA = VIEW_JOB) as ->.
  { rewrite (accept_title _ _ _ _ HA). by destruct Hplace as [->| ->]. }
  assert (stored_title jobById i = None) as Hst
    by (unfold stored_title; by rewrite Hnone).
  assert (better_title tB VIEW_JOB = true) as Hup
    by (apply better_title_spec; auto).
  assert (better_title VIEW_JOB tB = false) as Hdown.
  { apply not_true_is_false. rewrite better_title_spec. by intros [? _]. }
  repeat split.
  - rewrite !stored_title_merge_item, HA, HB, !bool_decide_true, Hst by done.
    by rewrite Hup.
  - rewrite !stored_title_merge_item, HA, HB, !bool_decide_true, Hst by done.
    by rewrite Hdown.
  - rewrite stored_title_merge_item in H0.
    destruct (accept existingIds it) as [[[i'' v] t]|]; [|congruence].
    case_bool_decide; [|congruence]. rewrite H in H0.
    destruct (better_title t old) eqn:E; [|congruence].
    apply better_title_spec in E as [E _]. congruence.
  - rewrite stored_title_merge_item in H0.
    destruct (accept existingIds it) as [[[i'' v] t]|]; [|congruence].
    case_bool_decide; [|congruence]. rewrite H in H0.
    destruct (better_title t old) eqn:E; [|congruence].
    apply better_title_spec in E as [_ E]. congruence.
Qed.

End ScrapeFacts.

Lemma C1_merge_witness :
  Scrape.stored_title
    (Scrape.merge_item ∅
       (Scrape.merge_item ∅ ∅ Scrape.placeholder_record) Scrape.record_2)
    (js "123")
  = Some (js "Senior Product Manager") /\
  Scrape.stored_title
    (Scrape.merge_item ∅
       (Scrape.merge_item ∅ ∅ Scrape.record_2) Scrape.placeholder_record)
    (js "123")
  = Some (js "Senior Product Manager") /\
  (forall (m : gmap jsstring Scrape.posting) (it : Scrape.item)
          (i' old new : jsstring),
      Scrape.stored_title m i' = Some old ->
      Scrape.stored_title (Scrape.merge_item ∅ m it) i' = Some new ->
      new <> old ->
      new <> Scrape.VIEW_JOB /\
      (old = Scrape.VIEW_JOB \/ (length old < length new)%nat)).
Proof.
  apply (C1_merge_keeps_real_title ∅ ∅ Scrape.placeholder_record
           Scrape.record_2 (js "123")
           (js "https://www.linkedin.com/comm/jobs/view/123")
           (js "https://www.linkedin.com/comm/jobs/view/123")
           Scrape.VIEW_JOB (js "Senior Product Manager")).
  - vm_compute. reflexivity.
  - vm_compute. reflexivity.
  - left. reflexivity.
  - discriminate.
  - reflexivity.
Defined.

(** C9 as stated fails: [normalizeTitle] leaves the first title as it
    is (the halves it compares are "Senior PM (verified)" and
    " Senior PM (verified"), and the merge of the scrape path keeps that
    title, which is longer than the second one. *)
Lemma C9_first_title_is_kept :
  Scrape.normalizeTitle Scrape.REPEATED_TITLE = Scrape.REPEATED_TITLE /\
  Scrape.merge_items ∅ ∅ [Scrape.record_1; Scrape.record_2]
  = {[ js "123" :=
         Scrape.Posting (js "https://www.linkedin.com/comm/jobs/view/123")
           Scrape.REPEATED_TITLE ]} /\
  Scrape.REPEATED_TITLE <> js "Senior Product Manager".
Proof.
  split; [vm_compute; reflexivity|]. split; [|discriminate].
  vm_compute. reflexivity.
Qed.

(** C9, amended: the two records resolve to one posting with identity
    '123'.  On the e-mail path, which carries the organization, that
    posting is the second record, title "Senior Product Manager" and
    organization "Acme", in either order of arrival: the first record
    contains no relevance keyword and is dropped, and no title is merged
    on this path.  On the scrape path, which merges titles and stores no
    organization, a first title that doubles its phrase exactly
    ("Senior PM (verified)Senior PM (verified)") is collapsed and then
    upgraded to "Senior Product Manager". *)
Theorem C9_scenario_resolves_to_one_posting :
  EmailDigest.results
    (EmailDigest.collect_all
       [EmailDigest.mail_record_1; EmailDigest.mail_record_2])
  = [EmailDigest.mail_record_2] /\
  EmailDigest.results
    (EmailDigest.collect_all
       [EmailDigest.mail_record_2; EmailDigest.mail_record_1])
  = [EmailDigest.mail_record_2] /\
  Scrape.getJobId (EmailDigest.url EmailDigest.mail_record_1)
  = Some (js "123") /\
  Scrape.getJobId (EmailDigest.url EmailDigest.mail_record_2)
  = Some (js "123") /\
  EmailDigest.title EmailDigest.mail_record_2 = js "Senior Product Manager" /\
  EmailDigest.company EmailDigest.mail_record_2 = js "Acme" /\
  Scrape.normalizeTitle (Scrape.link_title Scrape.record_1_doubled)
  = js "Senior PM (verified)" /\
  Scrape.merge_items ∅ ∅ [Scrape.record_1_doubled; Scrape.record_2]
  = {[ js "123" :=
         Scrape.Posting (js "https://www.linkedin.com/comm/jobs/view/123")
           (js "Senior Product Manager") ]}.
Proof.
  repeat split; vm_compute; reflexivity.
Qed.

(** ** Exclusion of applied and rejected jobs *)

Section ExclusionFacts.

Import Scrape DigestText.

(** The e-mail path drops every record whose LinkedIn id is in the
    exclusion set. *)
Lemma email_path_excludes excludedIds res x i :
  x ∈ EmailDigest.withScore excludedIds res ->
  getJobId (EmailDigest.url (x.1)) = Some i ->
  i ∉ excludedIds.
Proof.
  unfold EmailDigest.withScore. intros Hin Hid.
  apply list_elem_of_filter in Hin as [Hex _].
  unfold EmailDigest.is_excluded_id in Hex. rewrite Hid in Hex.
  by apply bool_decide_eq_false in Hex.
Qed.

(** C5 on the RSS path, at a concrete input: a job marked applied in
    the digest of 2026-02-06 is listed again, unmarked, in the digest of
    2026-02-07 when the feed still carries it, below the sentence of
    the e-mail path that applied jobs are excluded; the LinkedIn job
    marked applied in the same digest is left out. *)
Theorem C5_rss_path_lists_applied_job_again :
  RssMerge.REMOTIVE_URL ∈ marked_urls None 0 RssMerge.earlier_digest /\
  exists later,
    RssMerge.later_directory !! digest_name (js "2026-02-07") = Some later /\
    includes EmailDigest.EXCLUSION_NOTE later = true /\
    includes (js "- [ ] [Senior Product Manager " ++ [MIDDOT]
              ++ js " Remotive Product](" ++ RssMerge.REMOTIVE_URL ++ js ")")
      later = true /\
    includes (js "/jobs/view/555") later = false /\
    includes (js "/jobs/view/556") later = true.
Proof.
  split.
  - unfold RssMerge.earlier_digest.
    apply (bool_decide_unpack _). vm_compute. exact I.
  - eexists. split; [vm_compute; reflexivity|].
    repeat split; vm_compute; reflexivity.
Qed.

End ExclusionFacts.

(** * Further properties of the modelled code *)

(** ** Job ids and titles of the scrape path *)

Section ScrapeMore.

Import Scrape.

Lemma take_digits_all i :
  forallb is_digit i = true -> take_digits i = i.
Proof.
  induction i as [|c i IH]; [done|]. simpl.
  intros [Hc Hi]%andb_true_iff. rewrite Hc. by rewrite IH.
Qed.

Lemma take_digits_digits s : forallb is_digit (take_digits s) = true.
Proof.
  induction s as [|c s IH]; [done|]. simpl.
  destruct (is_digit c) eqn:E; [|done]. simpl. by rewrite E.
Qed.

Lemma getJobId_digits u i :
  getJobId u = Some i -> i <> [] /\ forallb is_digit i = true.
Proof.
  induction u as [|c u IH].
  - discriminate.
  - cbn [getJobId].
    destruct (startsWith (js "/jobs/view/") (c :: u)).
    + destruct (take_digits (drop 11 (c :: u))) as [|d ds] eqn:E; [apply IH|].
      intros [= <-]. split; [done|]. rewrite <- E. apply take_digits_digits.
    + apply IH.
Qed.

Lemma getJobId_skip c u :
  startsWith (js "/jobs/view/") (c :: u) = false ->
  getJobId (c :: u) = getJobId u.
Proof. intros H. cbn [getJobId]. by rewrite H. Qed.

Lemma startsWith_app p s : startsWith p (p ++ s) = true.
Proof.
  induction p as [|c p IH]; [done|]. simpl. by rewrite N.eqb_refl.
Qed.

Lemma getJobId_at_marker i :
  i <> [] -> forallb is_digit i = true ->
  getJobId (js "/jobs/view/" ++ i) = Some i.
Proof.
  intros Hne Hd.
  change (js "/jobs/view/" ++ i) with (47%N :: (js "jobs/view/" ++ i)).
  cbn [getJobId].
  change (47%N :: (js "jobs/view/" ++ i)) with (js "/jobs/view/" ++ i).
  rewrite startsWith_app.
  change (drop 11 (js "/jobs/view/" ++ i)) with i.
  rewrite take_digits_all by done. by destruct i.
Qed.

Lemma getJobId_view_url i :
  i <> [] -> forallb is_digit i = true ->
  getJobId (VIEW_URL_PREFIX ++ i) = Some i.
Proof.
  intros Hne Hd. unfold VIEW_URL_PREFIX.
  change (js "https://www.linkedin.com/comm/jobs/view/")
    with (js "https://www.linkedin.com/comm" ++ js "/jobs/view/").
  rewrite <- app_assoc.
  cbn [js list_ascii_of_string map app].
  repeat (rewrite getJobId_skip by reflexivity).
  by apply getJobId_at_marker.
Qed.

(** X1: the id [getJobId] finds is a non-empty string of decimal
    digits, and the view URL that [getJobViewUrl] builds from it has the
    same id: an id read from the canonical URL is the id of the link. *)
Theorem X1_view_url_keeps_the_job_id :
  forall u v : jsstring,
    getJobViewUrl u = Some v ->
    exists i,
      getJobId u = Some i /\ v = VIEW_URL_PREFIX ++ i /\
      i <> [] /\ forallb is_digit i = true /\
      getJobId v = Some i.
Proof.
  intros u v. unfold getJobViewUrl.
  destruct (getJobId u) as [i|] eqn:E; [|done].
  intros [= <-]. exists i.
  destruct (getJobId_digits u i E) as [Hne Hd].
  repeat split; try done. by apply getJobId_view_url.
Qed.

Lemma slice_0_length n s : (length (slice 0 n s) <= n)%nat.
Proof. unfold slice. rewrite length_take. simpl. lia. Qed.

Lemma capped_title_bounds t1 :
  (if (0 <? length t1)%nat then slice 0 200 t1 else VIEW_JOB) <> [] /\
  (length (if (0 <? length t1)%nat then slice 0 200 t1 else VIEW_JOB)
   <= 200)%nat.
Proof.
  destruct (Nat.ltb_spec 0 (length t1)); [|split; [done|vm_compute; lia]].
  split; [|apply slice_0_length].
  unfold slice. simpl. destruct t1; simpl in *; [lia|done].
Qed.

(** X2: [normalizeTitle] never returns the empty string and never more
    than 200 code units, whatever the link text. *)
Theorem X2_normalizeTitle_bounds :
  forall t : jsstring,
    normalizeTitle t <> [] /\ (length (normalizeTitle t) <= 200)%nat.
Proof.
  intros t. unfold normalizeTitle.
  destruct (negb (truthy t)); [split; [done|vm_compute; lia]|].
  cbv zeta. apply capped_title_bounds.
Qed.

(** What one merge does to the posting stored for an id. *)
Lemma merge_item_lookup existingIds jobById it i :
  merge_item existingIds jobById it !! i
  = match accept existingIds it with
    | Some (i', v, t) =>
        if bool_decide (i' = i) then
          match jobById !! i with
          | None => Some (Posting v t)
          | Some ex =>
              if better_title t (title ex)
              then Some (Posting (viewUrl ex) t) else Some ex
          end
        else jobById !! i
    | None => jobById !! i
    end.
Proof.
  unfold merge_item.
  destruct (accept existingIds it) as [[[i' v] t]|]; [|done].
  case_bool_decide as Hi.
  - subst i'. destruct (jobById !! i) as [p|] eqn:E.
    + destruct (better_title t (title p)); [|done].
      by rewrite lookup_insert_eq.
    + by rewrite lookup_insert_eq.
  - destruct (jobById !! i') as [p|] eqn:E.
    + destruct (better_title t (title p)); [|done].
      by rewrite lookup_insert_ne.
    + by rewrite lookup_insert_ne.
Qed.

Lemma accept_not_existing existingIds it i v t :
  accept existingIds it = Some (i, v, t) -> i ∉ existingIds.
Proof.
  unfold accept. intros H.
  repeat (case_match; simplify_eq).
  match goal with
  | H : bool_decide _ = false |- _ => by apply bool_decide_eq_false in H
  end.
Qed.

(** X3: the merging loops never collect a job whose id is already in
    the digest ([existingIds]), and they never drop a job they hold nor
    change its view URL. *)
Theorem X3_merge_respects_existing_ids :
  forall (existingIds : gset jsstring) (l : list item)
         (jobById : gmap jsstring posting) (i : jsstring),
    (i ∈ existingIds -> jobById !! i = None ->
     merge_items existingIds jobById l !! i = None) /\
    (forall p, jobById !! i = Some p ->
       exists p', merge_items existingIds jobById l !! i = Some p' /\
                  viewUrl p' = viewUrl p).
Proof.
  intros existingIds l. unfold merge_items.
  induction l as [|it l IH]; intros jobById i.
  - split; [done|]. intros p Hp. by exists p.
  - simpl. split.
    + intros Hin Hnone. apply IH; [done|].
      rewrite merge_item_lookup.
      destruct (accept existingIds it) as [[[i' v] t]|] eqn:E; [|done].
      case_bool_decide; [|done]. subst i'.
      by apply accept_not_existing in E.
    + intros p Hp.
      assert (exists p1, merge_item existingIds jobById it !! i = Some p1 /\
                         viewUrl p1 = viewUrl p) as (p1 & H1 & Hv1).
      { rewrite merge_item_lookup, Hp.
        destruct (accept existingIds it) as [[[i' v] t]|]; [|by exists p].
        case_bool_decide; [|by exists p].
        destruct (better_title t (title p)); by eexists. }
      destruct (IH (merge_item existingIds jobById it) i) as [_ H].
      destruct (H p1 H1) as (p' & Hp' & Hv'). exists p'. split; [done|].
      congruence.
Qed.

(** X4: a real title, once stored for an id, is never replaced by the
    placeholder and never by a shorter title, however many links are
    merged afterwards. *)
Theorem X4_real_title_is_never_lost :
  forall (existingIds : gset jsstring) (l : list item)
         (jobById : gmap jsstring posting) (i t : jsstring),
    stored_title jobById i = Some t ->
    t <> VIEW_JOB ->
    exists t',
      stored_title (merge_items existingIds jobById l) i = Some t' /\
      t' <> VIEW_JOB /\ (length t <= length t')%nat.
Proof.
  intros existingIds l. unfold merge_items.
  induction l as [|it l IH]; intros jobById i t Ht Hreal.
  - exists t. done.
  - simpl.
    assert (exists t1,
      stored_title (merge_item existingIds jobById it) i = Some t1 /\
      t1 <> VIEW_JOB /\ (length t <= length t1)%nat) as (t1 & H1 & Hr1 & Hl1).
    { rewrite stored_title_merge_item, Ht.
      destruct (accept existingIds it) as [[[i' v] t2]|]; [|by exists t].
      case_bool_decide; [|by exists t].
      destruct (better_title t2 t) eqn:E; [|by exists t].
      apply better_title_spec in E as [E1 [E2|E2]]; [done|].
      exists t2. split; [done|]. split; [done|lia]. }
    destruct (IH _ i t1 H1 Hr1) as (t' & Ht' & Hr' & Hl').
    exists t'. split; [done|]. split; [done|lia].
Qed.

End ScrapeMore.

Lemma X1_view_url_witness :
  exists i,
    Scrape.getJobId (js "https://www.linkedin.com/jobs/view/123?x=1") = Some i /\
    js "https://www.linkedin.com/comm/jobs/view/123"
    = Scrape.VIEW_URL_PREFIX ++ i /\
    i <> [] /\ forallb is_digit i = true /\
    Scrape.getJobId (js "https://www.linkedin.com/comm/jobs/view/123")
    = Some i.
Proof.
  apply (X1_view_url_keeps_the_job_id
           (js "https://www.linkedin.com/jobs/view/123?x=1")
           (js "https://www.linkedin.com/comm/jobs/view/123")).
  reflexivity.
Defined.

Lemma X4_real_title_witness :
  exists t',
    Scrape.stored_title
      (Scrape.merge_items ∅ (Scrape.merge_item ∅ ∅ Scrape.record_2)
         [Scrape.placeholder_record; Scrape.record_1])
      (js "123") = Some t' /\
    t' <> Scrape.VIEW_JOB /\
    (length (js "Senior Product Manager") <= length t')%nat.
Proof.
  apply (X4_real_title_is_never_lost ∅
           [Scrape.placeholder_record; Scrape.record_1]
           (Scrape.merge_item ∅ ∅ Scrape.record_2) (js "123")
           (js "Senior Product Manager")).
  - vm_compute. reflexivity.
  - discriminate.
Defined.

(** ** The e-mail path: one record per identity, ranked, without the
    applied and rejected jobs *)

Section EmailMore.

Import Scrape DigestText EmailDigest.

Lemma collect_passes st j :
  passes j = false -> collect st j = st.
Proof.
  unfold passes, collect.
  destruct (isRelevant j), (isExcluded j), (isNonPmRole j); simpl; done.
Qed.

Lemma collect_kept st j :
  passes j = true ->
  collect st j
  = match getJobId (url j) with
    | Some jobId =>
        if bool_decide (jobId ∈ seenJobIds st) then st
        else Collected ({[ url j ]} ∪ seenUrls st)
               ({[ jobId ]} ∪ seenJobIds st) (results st ++ [j])
    | None =>
        if bool_decide (url j ∈ seenUrls st) then st
        else Collected ({[ url j ]} ∪ seenUrls st) (seenJobIds st)
               (results st ++ [j])
    end.
Proof.
  unfold passes, collect.
  destruct (isRelevant j), (isExcluded j), (isNonPmRole j); simpl; done.
Qed.

Lemma identity_inl j i : identity j = inl i <-> getJobId (url j) = Some i.
Proof.
  unfold identity. destruct (getJobId (url j)); split; congruence.
Qed.

Lemma identity_inr j u :
  identity j = inr u <-> getJobId (url j) = None /\ url j = u.
Proof.
  unfold identity. destruct (getJobId (url j)); split.
  - discriminate.
  - intros [? _]. discriminate.
  - intros [= <-]. done.
  - intros [_ ->]. done.
Qed.

(** One step of the loop: the invariant stays, no record is lost, and
    the record just seen, when it passes the filters, has its identity
    among the records kept. *)
Lemma collect_step st j :
  collected_ok st ->
  collected_ok (collect st j) /\
  (forall r, r ∈ results st -> r ∈ results (collect st j)) /\
  (forall r, r ∈ results (collect st j) ->
             r ∈ results st \/ (r = j /\ passes j = true)) /\
  (passes j = true -> identity j ∈ identity <$> results (collect st j)).
Proof.
  intros (Hnd & Hu & Hi).
  destruct (passes j) eqn:Hp; cycle 1.
  { rewrite collect_passes by done.
    split; [done|]. split; [auto|]. split; [auto|discriminate]. }
  rewrite collect_kept by done.
  destruct (getJobId (url j)) as [jobId|] eqn:Hid.
  - case_bool_decide as Hseen.
    + split; [done|]. split; [auto|]. split; [auto|]. intros _.
      apply Hi in Hseen as (r & Hr & Hrid).
      apply list_elem_of_fmap. exists r. split; [|done].
      transitivity (inl (B := jsstring) jobId);
        [by apply identity_inl|symmetry; by apply identity_inl].
    + unfold collected_ok. cbn [results seenUrls seenJobIds]. repeat split.
      * rewrite fmap_app. apply NoDup_app. split; [done|].
        split; [|apply NoDup_singleton].
        intros x Hx Hx2%list_elem_of_singleton; subst x.
        apply list_elem_of_fmap in Hx as (r & Hr1 & Hr2).
        apply Hseen, Hi. exists r. split; [done|].
        apply identity_inl. rewrite <- Hr1. by apply identity_inl.
      * intros [H%elem_of_singleton|H]%elem_of_union; [subst|].
        -- exists j. split; [|done]. apply elem_of_app. right.
           by apply list_elem_of_singleton.
        -- apply Hu in H as (r & ? & ?). exists r. split; [|done].
           apply elem_of_app. by left.
      * intros (r & [Hr|Hr%list_elem_of_singleton]%elem_of_app & <-);
          [|subst r].
        -- apply elem_of_union. right. apply Hu. by exists r.
        -- apply elem_of_union. left. by apply elem_of_singleton.
      * intros [H%elem_of_singleton|H]%elem_of_union; [subst|].
        -- exists j. split; [|done]. apply elem_of_app. right.
           by apply list_elem_of_singleton.
        -- apply Hi in H as (r & ? & ?). exists r. split; [|done].
           apply elem_of_app. by left.
      * intros (r & [Hr|Hr%list_elem_of_singleton]%elem_of_app & Hri);
          [|subst r].
        -- apply elem_of_union. right. apply Hi. by exists r.
        -- apply elem_of_union. left. apply elem_of_singleton. congruence.
      * intros r Hr. apply elem_of_app. by left.
      * intros r [Hr|Hr%list_elem_of_singleton]%elem_of_app; [|subst r]; auto.
      * intros _. apply list_elem_of_fmap. exists j. split; [done|].
        apply elem_of_app. right. by apply list_elem_of_singleton.
  - case_bool_decide as Hseen.
    + split; [done|]. split; [auto|]. split; [auto|]. intros _.
      apply Hu in Hseen as (r & Hr & Hru).
      apply list_elem_of_fmap. exists r. split; [|done].
      transitivity (inr (A := jsstring) (url j)).
      * apply identity_inr. done.
      * symmetry. apply identity_inr. split; [|done]. by rewrite Hru.
    + unfold collected_ok. cbn [results seenUrls seenJobIds]. repeat split.
      * rewrite fmap_app. apply NoDup_app. split; [done|].
        split; [|apply NoDup_singleton].
        intros x Hx Hx2%list_elem_of_singleton; subst x.
        apply list_elem_of_fmap in Hx as (r & Hr1 & Hr2).
        apply Hseen, Hu. exists r. split; [done|].
        assert (identity j = inr (url j)) as Hj by (by apply identity_inr).
        rewrite Hj in Hr1. symmetry in Hr1.
        by apply identity_inr in Hr1 as [_ Hr1].
      * intros [H%elem_of_singleton|H]%elem_of_union; [subst|].
        -- exists j. split; [|done]. apply elem_of_app. right.
           by apply list_elem_of_singleton.
        -- apply Hu in H as (r & ? & ?). exists r. split; [|done].
           apply elem_of_app. by left.
      * intros (r & [Hr|Hr%list_elem_of_singleton]%elem_of_app & <-);
          [|subst r].
        -- apply elem_of_union. right. apply Hu. by exists r.
        -- apply elem_of_union. left. by apply elem_of_singleton.
      * intros H. apply Hi in H as (r & ? & ?). exists r. split; [|done].
        apply elem_of_app. by left.
      * intros (r & [Hr|Hr%list_elem_of_singleton]%elem_of_app & Hri);
          [|subst r].
        -- apply Hi. by exists r.
        -- congruence.
      * intros r Hr. apply elem_of_app. by left.
      * intros r [Hr|Hr%list_elem_of_singleton]%elem_of_app; [|subst r]; auto.
      * intros _. apply list_elem_of_fmap. exists j. split; [done|].
        apply elem_of_app. right. by apply list_elem_of_singleton.
Qed.

Lemma collect_fold l : forall st,
  collected_ok st ->
  collected_ok (fold_left collect l st) /\
  (forall r, r ∈ results st -> r ∈ results (fold_left collect l st)) /\
  (forall r, r ∈ results (fold_left collect l st) ->
             r ∈ results st \/ (r ∈ l /\ passes r = true)) /\
  (forall j, j ∈ l -> passes j = true ->
             identity j ∈ identity <$> results (fold_left collect l st)).
Proof.
  induction l as [|j l IH]; intros st Hok; simpl.
  - split; [done|]. split; [auto|]. split; [auto|].
    intros j Hj. by apply elem_of_nil in Hj.
  - destruct (collect_step st j Hok) as (Hok' & Hmono & Hfrom & Hin).
    destruct (IH _ Hok') as (Hok'' & Hmono' & Hfrom' & Hin').
    split; [done|]. split; [auto|]. split.
    + intros r Hr. apply Hfrom' in Hr as [Hr|[Hr Hp]].
      * apply Hfrom in Hr as [Hr|[-> Hp]]; [by left|].
        right. split; [apply list_elem_of_here|done].
      * right. split; [by apply list_elem_of_further|done].
    + intros j' Hj' Hp. apply elem_of_cons in Hj' as [->|Hj'].
      * apply Hin in Hp. apply list_elem_of_fmap in Hp as (r & -> & Hr).
        apply list_elem_of_fmap_2. auto.
      * by apply Hin'.
Qed.

(** X5: the loop of [main] over the records of the mail keeps only
    records that pass the three filters, keeps no two records with the
    same identity (LinkedIn job id, or URL when there is none), and for
    every record that passes the filters keeps a record of the same
    identity. *)
Theorem X5_collected_records_are_distinct :
  forall l : list job,
    NoDup (identity <$> results (collect_all l)) /\
    (forall r, r ∈ results (collect_all l) -> r ∈ l /\ passes r = true) /\
    (forall j, j ∈ l -> passes j = true ->
               identity j ∈ identity <$> results (collect_all l)).
Proof.
  intros l. unfold collect_all.
  assert (collected_ok nothing_collected) as Hok.
  { split; [apply NoDup_nil_2|]. split; intros x; split.
    - intros H. by apply elem_of_empty in H.
    - intros (j & Hj & _). by apply elem_of_nil in Hj.
    - intros H. by apply elem_of_empty in H.
    - intros (j & Hj & _). by apply elem_of_nil in Hj. }
  destruct (collect_fold l _ Hok) as ((Hnd & _) & _ & Hfrom & Hin).
  split; [done|]. split; [|done].
  intros r Hr. apply Hfrom in Hr as [Hr|Hr]; [|done].
  by apply elem_of_nil in Hr.
Qed.

Lemma insert_by_score_elem x y l :
  y ∈ insert_by_score x l <-> y = x \/ y ∈ l.
Proof.
  induction l as [|z l IH]; simpl.
  - rewrite list_elem_of_singleton. split; [auto|].
    intros [?|H]; [done|]. by apply elem_of_nil in H.
  - destruct (x.2 - z.2 <=? 0); rewrite !elem_of_cons; [rewrite IH|];
      tauto.
Qed.

Lemma insert_by_score_sorted x l :
  StronglySorted by_score l -> StronglySorted by_score (insert_by_score x l).
Proof.
  induction l as [|z l IH]; simpl; intros Hs.
  - apply StronglySorted_cons. split; [apply Forall_nil_2|done].
  - apply StronglySorted_cons in Hs as [Hz Hs].
    destruct (x.2 - z.2 <=? 0) eqn:Hc.
    + apply Z.leb_le in Hc. apply StronglySorted_cons. split; [|auto].
      apply Forall_forall. intros y [->|Hy]%insert_by_score_elem.
      * unfold by_score. lia.
      * by eapply Forall_forall in Hz.
    + apply Z.leb_gt in Hc. apply StronglySorted_cons. split.
      * apply Forall_cons. split; [unfold by_score; lia|].
        eapply Forall_impl; [exact Hz|]. unfold by_score. intros; lia.
      * apply StronglySorted_cons. done.
Qed.

Lemma lower_scores_filtered s (l : list (job * Z)) :
  Forall (fun y => y.2 < s) l ->
  filter (fun y : job * Z => y.2 = s) l = [].
Proof.
  induction l as [|w l IH]; intros H; [done|].
  apply Forall_cons in H as [Hw H].
  rewrite filter_cons_False by lia. auto.
Qed.

(** A record is inserted behind the records of the same score. *)
Lemma insert_by_score_stable s x l :
  StronglySorted by_score l ->
  filter (fun y : job * Z => y.2 = s) (insert_by_score x l)
  = filter (fun y : job * Z => y.2 = s) l
    ++ filter (fun y : job * Z => y.2 = s) [x].
Proof.
  induction l as [|z l IH]; simpl; intros Hs; [done|].
  apply StronglySorted_cons in Hs as [Hz Hs].
  destruct (x.2 - z.2 <=? 0) eqn:Hc.
  - rewrite !filter_cons, IH by done. by destruct (decide (z.2 = s)).
  - apply Z.leb_gt in Hc.
    change (x :: z :: l) with ([x] ++ z :: l). rewrite filter_app.
    rewrite (filter_cons _ x []), filter_nil.
    destruct (decide (x.2 = s)) as [Hxs|Hxs]; [|by rewrite app_nil_r].
    rewrite lower_scores_filtered; [done|].
    apply Forall_cons. split; [lia|].
    eapply Forall_impl; [exact Hz|]. unfold by_score. intros; lia.
Qed.

Lemma sort_fold_elem y l : forall acc,
  y ∈ fold_left (fun acc x => insert_by_score x acc) l acc
  <-> y ∈ acc \/ y ∈ l.
Proof.
  induction l as [|x l IH]; intros acc; simpl.
  - split; [auto|]. intros [?|H]; [done|]. by apply elem_of_nil in H.
  - rewrite IH, insert_by_score_elem, elem_of_cons. tauto.
Qed.

Lemma sort_fold_sorted l : forall acc,
  StronglySorted by_score acc ->
  StronglySorted by_score
    (fold_left (fun acc x => insert_by_score x acc) l acc).
Proof.
  induction l as [|x l IH]; intros acc Hs; simpl; [done|].
  by apply IH, insert_by_score_sorted.
Qed.

Lemma sort_fold_stable s l : forall acc,
  StronglySorted by_score acc ->
  filter (fun y : job * Z => y.2 = s)
    (fold_left (fun acc x => insert_by_score x acc) l acc)
  = filter (fun y : job * Z => y.2 = s) acc
    ++ filter (fun y : job * Z => y.2 = s) l.
Proof.
  induction l as [|x l IH]; intros acc Hs; simpl.
  - by rewrite app_nil_r.
  - rewrite IH by by apply insert_by_score_sorted.
    rewrite insert_by_score_stable by done.
    rewrite <- app_assoc. f_equal.
    change (x :: l) with ([x] ++ l). by rewrite filter_app.
Qed.

Lemma filter_sorted (P : job * Z -> Prop) `{!forall x, Decision (P x)} l :
  StronglySorted by_score l -> StronglySorted by_score (filter P l).
Proof.
  induction l as [|x l IH]; intros Hs; [done|].
  apply StronglySorted_cons in Hs as [Hx Hs]. rewrite filter_cons.
  destruct (decide (P x)); [|auto].
  apply StronglySorted_cons. split; [|auto].
  apply Forall_forall. intros y [_ Hy]%list_elem_of_filter.
  by eapply Forall_forall in Hx.
Qed.

Lemma filter_comm {A} (P Q : A -> Prop) `{!forall x, Decision (P x)}
    `{!forall x, Decision (Q x)} (l : list A) :
  filter P (filter Q l) = filter Q (filter P l).
Proof.
  rewrite !list_filter_filter. apply list_filter_iff. tauto.
Qed.

(** X6: the list [main] builds for the digest holds exactly the kept
    records with a job-view URL whose id is not excluded, each with its
    [scoreJob] score; no record stands before one of a higher score,
    and records of the same score stay in the order of arrival. *)
Theorem X6_digest_is_sorted_by_score_stably :
  forall (excludedIds : gset jsstring) (res : list job),
    StronglySorted by_score (withScore excludedIds res) /\
    (forall x, x ∈ withScore excludedIds res <->
       x.1 ∈ res /\ x.2 = scoreJob (x.1) /\
       includes (js "/jobs/view/") (url (x.1)) = true /\
       is_excluded_id excludedIds (x.1) = false) /\
    (forall s,
       filter (fun x : job * Z => x.2 = s) (withScore excludedIds res)
       = filter (fun x : job * Z => x.2 = s)
           (filter (fun x => is_excluded_id excludedIds (x.1) = false)
              (map (fun j => (j, scoreJob j))
                 (filter (fun j => includes (js "/jobs/view/") (url j) = true)
                    res)))).
Proof.
  intros excludedIds res. unfold withScore, sort_by_score.
  split; [|split].
  - apply filter_sorted, sort_fold_sorted. apply SSorted_nil.
  - intros x. split.
    + intros [Hex Hx]%list_elem_of_filter.
      apply sort_fold_elem in Hx as [Hx|Hx]; [by apply elem_of_nil in Hx|].
      apply (list_elem_of_fmap (fun j => (j, scoreJob j))) in Hx
        as (j & -> & [Hv Hj]%list_elem_of_filter).
      done.
    + intros (Hj & Hs & Hv & Hex). apply list_elem_of_filter. split; [done|].
      apply sort_fold_elem. right.
      apply (list_elem_of_fmap (fun j => (j, scoreJob j))).
      exists (x.1). split; [destruct x; simpl in *; congruence|].
      by apply list_elem_of_filter.
  - intros s. rewrite filter_comm, sort_fold_stable by apply SSorted_nil.
    rewrite filter_nil, app_nil_l. apply filter_comm.
Qed.

Lemma ids_of_urls_spec l i :
  i ∈ ids_of_urls l <-> exists u, u ∈ l /\ getJobId u = Some i.
Proof.
  induction l as [|v l IH]; simpl.
  - split.
    + intros H. by apply elem_of_empty in H.
    + intros (u & Hu & _). by apply elem_of_nil in Hu.
  - destruct (getJobId v) as [k|] eqn:Hv.
    + rewrite elem_of_union, elem_of_singleton, IH. split.
      * intros [->|(u & Hu & Hi)].
        -- exists v. split; [apply list_elem_of_here|done].
        -- exists u. split; [by apply list_elem_of_further|done].
      * intros (u & [->|Hu]%elem_of_cons & Hi).
        -- left. congruence.
        -- right. by exists u.
    + rewrite IH. split.
      * intros (u & Hu & Hi). exists u.
        split; [by apply list_elem_of_further|done].
      * intros (u & [->|Hu]%elem_of_cons & Hi); [congruence|]. by exists u.
Qed.

Lemma excluded_ids_spec (dir : directory) i :
  i ∈ getExcludedJobIdsFromPreviousDigests dir <->
  exists name content u,
    dir !! name = Some content /\ is_digest_name name = true /\
    u ∈ marked_urls None 0 content /\ getJobId u = Some i.
Proof.
  unfold getExcludedJobIdsFromPreviousDigests.
  apply (map_fold_weak_ind
    (fun (acc : gset jsstring) (m : directory) =>
       i ∈ acc <->
       exists name content u,
         m !! name = Some content /\ is_digest_name name = true /\
         u ∈ marked_urls None 0 content /\ getJobId u = Some i)).
  - split.
    + intros H. by apply elem_of_empty in H.
    + intros (name & content & u & Hl & _). by rewrite lookup_empty in Hl.
  - intros name content m acc Hfresh IH. split.
    + intros Hin.
      assert (i ∈ acc \/
              (is_digest_name name = true /\
               i ∈ ids_of_urls (marked_urls None 0 content)))
        as [Hacc|[Hn Hi]].
      { destruct (is_digest_name name); [|by left].
        apply elem_of_union in Hin as [?|?]; [right|left]; done. }
      * apply IH in Hacc as (n & c & u & Hl & Hrest).
        exists n, c, u. split; [|done].
        rewrite lookup_insert_ne; [done|]. intros ->. congruence.
      * apply ids_of_urls_spec in Hi as (u & Hu & Hi).
        exists name, content, u. by rewrite lookup_insert_eq.
    + intros (n & c & u & Hl & Hn & Hu & Hi).
      destruct (decide (n = name)) as [->|Hne].
      * rewrite lookup_insert_eq in Hl. injection Hl as ->. rewrite Hn.
        apply elem_of_union. left. apply ids_of_urls_spec. by exists u.
      * rewrite lookup_insert_ne in Hl by done.
        assert (i ∈ acc) as Hacc by (apply IH; by exists n, c, u).
        destruct (is_digest_name name); [|done].
        apply elem_of_union. by right.
Qed.

(** X7: the ids [getExcludedJobIdsFromPreviousDigests] collects are
    exactly the LinkedIn job ids of the URLs on lines marked [x] or [-]
    in the files of the directory named linkedin-jobs-*.md, and no
    record with such an id is in the list [main] builds for the new
    digest. *)
Theorem X7_marked_ids_are_left_out :
  forall (dir : directory) (res : list job) (i : jsstring),
    (i ∈ getExcludedJobIdsFromPreviousDigests dir <->
     exists name content u,
       dir !! name = Some content /\ is_digest_name name = true /\
       u ∈ marked_urls None 0 content /\ getJobId u = Some i) /\
    (i ∈ getExcludedJobIdsFromPreviousDigests dir ->
     forall x, x ∈ withScore (getExcludedJobIdsFromPreviousDigests dir) res ->
               getJobId (url (x.1)) <> Some i).
Proof.
  intros dir res i. split; [apply excluded_ids_spec|].
  intros Hi x [Hex _]%list_elem_of_filter Hid.
  unfold is_excluded_id in Hex. rewrite Hid in Hex.
  by apply bool_decide_eq_false in Hex.
Qed.

End EmailMore.

(** ** The job-line pattern and the lines the steps write *)

Section DigestMore.

Import Scrape DigestText EmailDigest FilterDigest.

Ltac unit_is H c k :=
  assert (c = k) as ->
    by (destruct c as [|?p]; [discriminate H|];
        repeat (match goal with
                | p : positive |- _ =>
                    destruct p as [p|p|]; cbv beta iota in H;
                    try discriminate H
                end); reflexivity).

Lemma span_until_inv stop s : forall a b,
  span_until stop s = (a, b) -> s = a ++ b /\ free_of stop a = true.
Proof.
  induction s as [|c s IH]; simpl; intros a b H.
  - by injection H as <- <-.
  - destruct (c =? stop)%N eqn:Hc.
    + by injection H as <- <-.
    + destruct (span_until stop s) as [a' b'].
      injection H as <- <-. destruct (IH a' b' eq_refl) as [-> Hf].
      split; [done|]. simpl. by rewrite Hc.
Qed.

Lemma span_until_free stop a b :
  free_of stop a = true -> span_until stop (a ++ stop :: b) = (a, stop :: b).
Proof.
  induction a as [|c a IH]; simpl; intros H.
  - by rewrite N.eqb_refl.
  - apply andb_true_iff in H as [Hc H]. apply negb_true_iff in Hc.
    by rewrite Hc, IH.
Qed.

Lemma free_of_app c a b : free_of c (a ++ b) = free_of c a && free_of c b.
Proof. apply forallb_app. Qed.

Lemma startsWith_inv p : forall s,
  startsWith p s = true -> s = p ++ drop (length p) s.
Proof.
  induction p as [|c p IH]; intros s H; [done|].
  destruct s as [|d s]; [done|]. simpl in H.
  destruct (c =? d)%N eqn:Hc; [|done].
  apply N.eqb_eq in Hc as ->. simpl. f_equal. auto.
Qed.

Lemma job_line_text_app mk label u rest :
  job_line_text mk label u ++ rest
  = 45%N :: 32%N :: 91%N :: mk :: 93%N :: 32%N :: 91%N
    :: (label ++ 93%N :: 40%N :: (u ++ 41%N :: rest)).
Proof.
  unfold job_line_text. cbn [js list_ascii_of_string map N_of_ascii].
  cbn. rewrite <- !app_assoc. cbn. by rewrite <- !app_assoc.
Qed.

Lemma parse_job_line_spec markers s mk label u rest :
  parse_job_line markers s = Some (mk, label, u, rest) <->
  s = job_line_text mk label u ++ rest /\ mk ∈ markers /\
  free_of 93 label = true /\ is_link_url u = true.
Proof.
  rewrite job_line_text_app. split.
  - intros H. unfold parse_job_line in H.
    destruct s as [|c0 s]; [discriminate|]. unit_is H c0 45%N.
    destruct s as [|c1 s]; [discriminate|]. unit_is H c1 32%N.
    destruct s as [|c2 s]; [discriminate|]. unit_is H c2 91%N.
    destruct s as [|mk' s]; [discriminate|].
    destruct s as [|c4 s]; [discriminate|]. unit_is H c4 93%N.
    destruct s as [|c5 s]; [discriminate|]. unit_is H c5 32%N.
    destruct s as [|c6 s]; [discriminate|]. unit_is H c6 91%N.
    case_bool_decide as Hmk; [|discriminate].
    destruct (span_until 93 s) as [label' s1] eqn:Hl.
    apply span_until_inv in Hl as [-> Hfree].
    destruct s1 as [|c7 s1]; [discriminate|]. unit_is H c7 93%N.
    destruct s1 as [|c8 s2]; [discriminate|]. unit_is H c8 40%N.
    assert (exists n p,
              (p = js "https:" \/ p = js "http:") /\ n = length p /\
              s2 = p ++ drop n s2 /\
              (if startsWith (js "https:") s2 then Some 6%nat
               else if startsWith (js "http:") s2 then Some 5%nat else None)
              = Some n) as (n & p & Hp & -> & Hs2 & Hn).
    { destruct (startsWith (js "https:") s2) eqn:H6.
      - exists 6%nat, (js "https:"). split; [by left|]. split; [done|].
        split; [|done]. by apply startsWith_inv in H6.
      - destruct (startsWith (js "http:") s2) eqn:H5; [|discriminate].
        exists 5%nat, (js "http:"). split; [by right|]. split; [done|].
        split; [|done]. by apply startsWith_inv in H5. }
    rewrite Hn in H.
    destruct (span_until 41 (drop (length p) s2)) as [b s3] eqn:Hb.
    apply span_until_inv in Hb as [Hd Hfb].
    destruct b as [|c body]; [discriminate|].
    destruct s3 as [|c9 s3]; [discriminate|]. unit_is H c9 41%N.
    assert (take (length p) s2 = p) as Htake.
    { rewrite Hs2 at 1. by rewrite take_app_length. }
    rewrite Htake in H. injection H as -> -> <- ->.
    split; [|split; [done|split; [done|]]].
    + do 8 f_equal. rewrite Hs2, Hd. by rewrite <- app_assoc.
    + unfold is_link_url. rewrite free_of_app, Hfb, andb_true_r.
      apply andb_true_iff. split; [|by destruct Hp as [->| ->]].
      apply orb_true_iff.
      destruct Hp as [->| ->]; [left|right];
        rewrite startsWith_app, length_app, andb_true_l;
        apply Nat.ltb_lt; simpl; lia.
  - intros (-> & Hmk & Hfree & Hu).
    unfold parse_job_line. rewrite bool_decide_eq_true_2 by done.
    rewrite span_until_free by done.
    apply andb_true_iff in Hu as [Hs Hfu].
    assert (exists p c body,
              u = p ++ c :: body /\
              (if startsWith (js "https:") (u ++ 41%N :: rest) then Some 6%nat
               else if startsWith (js "http:") (u ++ 41%N :: rest)
                    then Some 5%nat else None) = Some (length p))
      as (p & c & body & -> & Hn).
    { apply orb_true_iff in Hs as [[Hs Hl]%andb_true_iff|[Hs Hl]%andb_true_iff];
        apply startsWith_inv in Hs; apply Nat.ltb_lt in Hl.
      - destruct (drop (length (js "https:")) u) as [|c body] eqn:Hd.
        { rewrite Hs, length_app in Hl. simpl in Hl. lia. }
        exists (js "https:"), c, body. split; [done|].
        rewrite Hs. by rewrite <- app_assoc, startsWith_app.
      - destruct (drop (length (js "http:")) u) as [|c body] eqn:Hd.
        { rewrite Hs, length_app in Hl. simpl in Hl. lia. }
        exists (js "http:"), c, body. split; [done|].
        rewrite Hs. rewrite <- app_assoc.
        replace (startsWith (js "https:")
                   (js "http:" ++ (c :: body) ++ 41%N :: rest))
          with false by (vm_compute; reflexivity).
        by rewrite startsWith_app. }
    rewrite Hn. rewrite <- app_assoc. rewrite drop_app_length, take_app_length.
    rewrite free_of_app in Hfu. apply andb_true_iff in Hfu as [_ Hfu].
    change ((c :: body) ++ 41%N :: rest) with (c :: (body ++ 41%N :: rest)).
    rewrite app_comm_cons. rewrite span_until_free by done. done.
Qed.

Lemma match_job_line_inv line mk label u :
  match_job_line line = Some (mk, label, u) ->
  line = job_line_text mk label u /\ mk ∈ [32%N; 120%N; 45%N] /\
  free_of 93 label = true /\ is_link_url u = true.
Proof.
  unfold match_job_line.
  destruct (parse_job_line _ line) as [[[[mk' label'] u'] rest]|] eqn:H;
    [|discriminate].
  destruct rest; [|discriminate]. intros [= -> -> ->].
  apply parse_job_line_spec in H. by rewrite app_nil_r in H.
Qed.

Lemma match_job_line_text mk label u :
  mk ∈ [32%N; 120%N; 45%N] -> free_of 93 label = true ->
  is_link_url u = true ->
  match_job_line (job_line_text mk label u) = Some (mk, label, u).
Proof.
  intros Hmk Hl Hu. unfold match_job_line.
  assert (parse_job_line [32%N; 120%N; 45%N]
            (job_line_text mk label u ++ [])
          = Some (mk, label, u, [])) as Hp
    by by apply parse_job_line_spec.
  rewrite app_nil_r in Hp. by rewrite Hp.
Qed.

(** X8: [JOB_LINE_RE] matches a line exactly when the line is
    "- [m] [text](url)" with a marker out of space, x and -, a link
    text without "]" and a URL that starts with http: or https:, has at
    least one more character and no ")"; the groups are the marker, the
    link text and the URL. *)
Theorem X8_job_line_pattern :
  forall (line : jsstring) (mk : N) (label u : jsstring),
    match_job_line line = Some (mk, label, u) <->
    line = job_line_text mk label u /\ mk ∈ [32%N; 120%N; 45%N] /\
    free_of 93 label = true /\ is_link_url u = true.
Proof.
  intros line mk label u. split; [apply match_job_line_inv|].
  intros (-> & Hmk & Hl & Hu). by apply match_job_line_text.
Qed.

Lemma free_of_cons c d s :
  free_of c (d :: s) = negb (d =? c)%N && free_of c s.
Proof. done. Qed.

Lemma free_of_reverse c s : free_of c (reverse s) = free_of c s.
Proof.
  induction s as [|d s IH]; [done|].
  rewrite reverse_cons, free_of_app, IH, !free_of_cons.
  change (free_of c []) with true. rewrite andb_true_r. apply andb_comm.
Qed.

Lemma free_of_trimStart c s :
  free_of c s = true -> free_of c (trimStart s) = true.
Proof.
  induction s as [|d s IH]; [done|]. rewrite free_of_cons.
  intros [Hd Hs]%andb_true_iff. cbn [trimStart].
  destruct (is_space d); [auto|]. by rewrite free_of_cons, Hd, Hs.
Qed.

Lemma free_of_trim c s : free_of c s = true -> free_of c (trim s) = true.
Proof.
  intros H. unfold trim, trimEnd. rewrite free_of_reverse.
  apply free_of_trimStart. rewrite free_of_reverse.
  by apply free_of_trimStart.
Qed.

Lemma free_of_before_sep c s :
  free_of c s = true -> free_of c (before_sep s) = true.
Proof.
  induction s as [|d s IH]; intros H.
  - simpl. by destruct (startsWith SEP []).
  - rewrite free_of_cons in H. apply andb_true_iff in H as [Hd Hs].
    cbn [before_sep]. destruct (startsWith SEP (d :: s)); [done|].
    by rewrite free_of_cons, Hd, IH.
Qed.

Lemma free_of_capitalize s :
  free_of 93 s = true -> free_of 93 (capitalize s) = true.
Proof.
  destruct s as [|c s]; [done|]. rewrite free_of_cons.
  intros [Hc Hs]%andb_true_iff.
  unfold capitalize. destruct (is_line_terminator c).
  { by rewrite free_of_cons, Hc, Hs. }
  rewrite free_of_app, Hs, andb_true_r. unfold upper1.
  apply negb_true_iff, N.eqb_neq in Hc.
  repeat case_match; rewrite ?free_of_cons; change (free_of 93 []) with true;
    rewrite ?andb_true_r; try done;
    apply negb_true_iff, N.eqb_neq;
    repeat match goal with
           | H : (_ && _) = true |- _ => apply andb_true_iff in H as [? ?]
           | H : (_ <=? _)%N = true |- _ => apply N.leb_le in H
           end; lia.
Qed.

Lemma free_of_replace_pipes s :
  free_of 93 s = true -> free_of 93 (replace_pipes s) = true.
Proof.
  induction s as [|c s IH]; [done|]. rewrite free_of_cons.
  intros [Hc Hs]%andb_true_iff. cbn [replace_pipes map].
  rewrite free_of_cons. fold (replace_pipes s). rewrite IH by done.
  destruct (c =? 124)%N; [done|]. by rewrite Hc.
Qed.

Lemma enriched_line_text mk linkText url w pageTitle pageCompany htmlCompany :
  enriched_line mk linkText url w pageTitle pageCompany htmlCompany
  = job_line_text mk
      ((if isGenericLinkText linkText && truthy pageTitle then pageTitle
        else if includes SEP linkText then trim (before_sep linkText)
             else trim linkText)
       ++ SEP
       ++ (if truthy pageCompany then pageCompany
           else if truthy htmlCompany then htmlCompany else [EM_DASH])
       ++ SEP ++ capitalize (work_type_text w)) url.
Proof.
  unfold enriched_line, job_line_text. cbv zeta.
  rewrite <- !app_assoc. reflexivity.
Qed.

(** X9: the line [runFilter] stores for an open job is a job line
    again, with the marker and the URL of the line it replaces, when
    the title and the company names taken from the page hold no "]". *)
Theorem X9_enriched_line_is_a_job_line :
  forall (line : jsstring) (mk : N) (linkText url : jsstring) (w : work_type)
         (pageTitle pageCompany htmlCompany : jsstring),
    match_job_line line = Some (mk, linkText, url) ->
    free_of 93 pageTitle = true ->
    free_of 93 pageCompany = true ->
    free_of 93 htmlCompany = true ->
    exists text,
      match_job_line
        (enriched_line mk linkText url w pageTitle pageCompany htmlCompany)
      = Some (mk, text, url).
Proof.
  intros line mk linkText url w pageTitle pageCompany htmlCompany Hm Ht Hc Hh.
  apply match_job_line_inv in Hm as (_ & Hmk & Hl & Hu).
  rewrite enriched_line_text.
  eexists. apply match_job_line_text; [done| |done].
  rewrite !free_of_app.
  apply andb_true_iff. split.
  { destruct (isGenericLinkText linkText && truthy pageTitle); [done|].
    destruct (includes SEP linkText);
      auto using free_of_trim, free_of_before_sep. }
  apply andb_true_iff. split; [done|].
  apply andb_true_iff. split.
  { destruct (truthy pageCompany); [done|]. by destruct (truthy htmlCompany). }
  apply andb_true_iff. split; [done|]. by destruct w.
Qed.

Lemma fmt_text (j : job) :
  fmt j
  = job_line_text 32
      (replace_pipes
         (if truthy (title j) && (length (title j) <? 120)%nat
          then title j else VIEW_JOB)
       ++ SEP
       ++ replace_pipes (if truthy (company j) then company j else [EM_DASH])
       ++ SEP
       ++ capitalize
            (if truthy (workType j) then workType j else js "unknown"))
      (url j).
Proof.
  unfold fmt, job_line_text. cbv zeta. rewrite <- !app_assoc. reflexivity.
Qed.

(** X10: a line the e-mail step writes for a record is a job line for
    [JOB_LINE_RE] of the filter step, unmarked and with the URL of the
    record, when title, company and work type hold no "]" and the URL
    is one the pattern accepts. *)
Theorem X10_digest_line_is_a_job_line :
  forall j : job,
    free_of 93 (title j) = true ->
    free_of 93 (company j) = true ->
    free_of 93 (workType j) = true ->
    is_link_url (url j) = true ->
    exists text, match_job_line (fmt j) = Some (32%N, text, url j).
Proof.
  intros j Ht Hc Hw Hu. rewrite fmt_text.
  eexists. apply match_job_line_text; [| |done].
  { apply (bool_decide_unpack _). vm_compute. exact I. }
  rewrite !free_of_app.
  apply andb_true_iff. split.
  { apply free_of_replace_pipes. by destruct (_ && _). }
  apply andb_true_iff. split; [done|].
  apply andb_true_iff. split.
  { apply free_of_replace_pipes. by destruct (truthy _). }
  apply andb_true_iff. split; [done|].
  apply free_of_capitalize. by destruct (truthy _).
Qed.

End DigestMore.

Lemma X9_enriched_line_witness :
  FilterDigest.match_job_line
    (js "- [ ] [View job](https://www.linkedin.com/jobs/view/101)")
  = Some (32%N, js "View job", js "https://www.linkedin.com/jobs/view/101") /\
  exists text,
    FilterDigest.match_job_line
      (FilterDigest.enriched_line 32 (js "View job")
         (js "https://www.linkedin.com/jobs/view/101") FilterDigest.Remote
         (js "Head of Product") (js "Acme") [])
    = Some (32%N, text, js "https://www.linkedin.com/jobs/view/101").
Proof.
  split; [reflexivity|].
  apply (X9_enriched_line_is_a_job_line
           (js "- [ ] [View job](https://www.linkedin.com/jobs/view/101)"));
    reflexivity.
Defined.

Lemma X10_digest_line_witness :
  exists text,
    FilterDigest.match_job_line (EmailDigest.fmt EmailDigest.mail_record_2)
    = Some (32%N, text, js "https://www.linkedin.com/jobs/view/123").
Proof.
  apply (X10_digest_line_is_a_job_line EmailDigest.mail_record_2);
    reflexivity.
Defined.

(** ** Lines of a digest *)

Section LinesMore.

Import Scrape DigestText EmailDigest FilterDigest.

Lemma split_lines_from_nonempty s : forall cur, split_lines_from cur s <> [].
Proof.
  induction s as [|c s IH]; intros cur; simpl; [done|].
  destruct (c =? NL)%N; [done|apply IH].
Qed.

Lemma join_cons sep x l :
  l <> [] -> join sep (x :: l) = x ++ sep ++ join sep l.
Proof. by destruct l. Qed.

Lemma join_split_from s : forall cur,
  join [NL] (split_lines_from cur s) = reverse cur ++ s.
Proof.
  induction s as [|c s IH]; intros cur; simpl.
  - by rewrite app_nil_r.
  - destruct (c =? NL)%N eqn:Hc.
    + apply N.eqb_eq in Hc as ->.
      rewrite join_cons by apply split_lines_from_nonempty.
      by rewrite IH.
    + rewrite IH, reverse_cons, <- app_assoc. done.
Qed.

Lemma split_from_line l : forall cur,
  free_of NL l = true -> split_lines_from cur l = [reverse cur ++ l].
Proof.
  induction l as [|c l IH]; intros cur H; simpl.
  - by rewrite app_nil_r.
  - rewrite free_of_cons in H. apply andb_true_iff in H as [Hc Hl].
    apply negb_true_iff in Hc. rewrite Hc, IH by done.
    by rewrite reverse_cons, <- app_assoc.
Qed.

Lemma split_from_app l s : forall cur,
  free_of NL l = true ->
  split_lines_from cur (l ++ NL :: s)
  = (reverse cur ++ l) :: split_lines_from [] s.
Proof.
  induction l as [|c l IH]; intros cur H; simpl.
  - by rewrite app_nil_r.
  - rewrite free_of_cons in H. apply andb_true_iff in H as [Hc Hl].
    apply negb_true_iff in Hc. rewrite Hc, IH by done.
    by rewrite reverse_cons, <- app_assoc.
Qed.

Lemma split_join ls :
  ls <> [] -> Forall (fun l => free_of NL l = true) ls ->
  split_lines (join [NL] ls) = ls.
Proof.
  unfold split_lines. induction ls as [|l ls IH]; [done|]. intros _ H.
  apply Forall_cons in H as [Hl Hls].
  destruct ls as [|l' ls].
  - simpl. by rewrite split_from_line.
  - rewrite join_cons by done. simpl app at 1.
    change ([NL] ++ ?x) with (NL :: x).
    rewrite split_from_app by done. simpl. f_equal. by apply IH.
Qed.

(** X11: [content.split('\n')] followed by [join('\n')] gives the text
    back, and a non-empty list of lines without line feed is what
    [split('\n')] gives for their [join('\n')]. *)
Theorem X11_split_and_join_lines :
  forall (s : jsstring) (ls : list jsstring),
    join [NL] (split_lines s) = s /\
    (ls <> [] -> Forall (fun l => free_of NL l = true) ls ->
     split_lines (join [NL] ls) = ls).
Proof.
  intros s ls. split; [apply join_split_from|apply split_join].
Qed.

End LinesMore.

(** ** The marked lines of earlier digests *)

Section MarkedMore.

Import Scrape DigestText EmailDigest FilterDigest.

Lemma skip_inside b : forall a prev,
  marked_urls prev (length a) (a ++ b)
  = marked_urls (match last a with Some c => Some c | None => prev end) 0 b.
Proof.
  induction a as [|c a IH]; intros prev; [done|].
  cbn [length app marked_urls]. rewrite IH.
  destruct a as [|d a]; [done|].
  change (last (c :: d :: a)) with (last (d :: a)).
  by destruct (proj2 (last_is_Some (d :: a))) as [z ->].
Qed.

Lemma skip_plain r : forall t p,
  is_line_terminator p = false -> plain t = true ->
  marked_urls (Some p) 0 (t ++ r) = marked_urls (Some (last_or p t)) 0 r.
Proof.
  induction t as [|c t IH]; intros p Hp Ht; [done|].
  apply andb_true_iff in Ht as [Hc Ht]. apply negb_true_iff in Hc.
  cbn [app marked_urls line_start]. rewrite Hp, IH by done.
  unfold last_or. destruct t as [|d t]; [done|].
  change (last (c :: d :: t)) with (last (d :: t)).
  by destruct (proj2 (last_is_Some (d :: t))) as [z ->].
Qed.

Lemma last_or_plain t : forall p,
  is_line_terminator p = false -> plain t = true ->
  is_line_terminator (last_or p t) = false.
Proof.
  induction t as [|c t IH]; intros p Hp Ht; [done|].
  apply andb_true_iff in Ht as [Hc Ht]. apply negb_true_iff in Hc.
  unfold last_or. destruct t as [|d t]; [done|].
  change (last (c :: d :: t)) with (last (d :: t)).
  specialize (IH c Hc Ht). unfold last_or in IH.
  destruct (proj2 (last_is_Some (d :: t))) as [z Hz]; [done|].
  by rewrite Hz in *.
Qed.

Lemma startsWith_line p : forall l tail,
  plain p = true -> (tail = [] \/ exists r, tail = NL :: r) ->
  startsWith p (l ++ tail) = true -> startsWith p l = true.
Proof.
  induction p as [|c p IH]; intros l tail Hp Ht H; [done|].
  apply andb_true_iff in Hp as [Hc Hp]. apply negb_true_iff in Hc.
  destruct l as [|d l].
  - destruct Ht as [->|[r ->]]; [done|]. simpl in H.
    destruct (c =? NL)%N eqn:E; [|done].
    apply N.eqb_eq in E as ->. done.
  - simpl in *. destruct (c =? d)%N; [|done]. by eapply IH.
Qed.

Lemma marked_tail z tail :
  is_line_terminator z = false -> (tail = [] \/ exists r, tail = NL :: r) ->
  marked_urls (Some z) 0 tail
  = match tail with [] => [] | _ :: r => marked_urls (Some NL) 0 r end.
Proof.
  intros Hz [->|[r ->]]; [done|]. cbn [marked_urls line_start]. by rewrite Hz.
Qed.

Lemma marked_line prev l tail :
  line_start prev = true -> digest_line l = true ->
  (tail = [] \/ exists r, tail = NL :: r) ->
  marked_urls prev 0 (l ++ tail)
  = option_list (marked_url l)
    ++ match tail with [] => [] | _ :: r => marked_urls (Some NL) 0 r end.
Proof.
  intros Hprev [Hplain Hl]%andb_true_iff Htail.
  destruct l as [|c l].
  { destruct Htail as [->|[r ->]]; [done|].
    cbn [app marked_urls]. rewrite Hprev. done. }
  pose proof Hplain as Hplain'.
  apply andb_true_iff in Hplain as [Hc Hpl]. apply negb_true_iff in Hc.
  fold (plain l) in Hpl.
  assert (is_line_terminator (last_or c l) = false) as Hz
    by by apply last_or_plain.
  cbn [app marked_urls]. rewrite Hprev.
  change (c :: l ++ tail) with ((c :: l) ++ tail).
  unfold marked_url, is_job_line in *.
  destruct (match_job_line (c :: l)) as [[[mk label] u]|] eqn:Hm.
  - apply match_job_line_inv in Hm as (Hline & Hmk & Hlab & Hu).
    case_bool_decide as Hmarked.
    + assert (parse_job_line [120%N; 45%N] ((c :: l) ++ tail)
              = Some (mk, label, u, tail)) as ->.
      { apply parse_job_line_spec. by rewrite Hline. }
      replace (length ((c :: l) ++ tail) - length tail - 1)%nat
        with (length l) by (rewrite length_app; simpl; lia).
      rewrite skip_inside. cbn [option_list app]. f_equal.
      replace (match last l with Some c0 => Some c0 | None => Some c end)
        with (Some (last_or c l)) by (unfold last_or; by destruct (last l)).
      by apply marked_tail.
    + assert (parse_job_line [120%N; 45%N] ((c :: l) ++ tail) = None) as ->.
      { destruct (parse_job_line _ _) as [[[[mk' label'] u'] rest]|] eqn:Hp;
          [|done].
        apply parse_job_line_spec in Hp as (Hs & Hmk' & _).
        rewrite Hline, !job_line_text_app in Hs.
        injection Hs as Hs _. by subst mk'. }
      rewrite skip_plain by done. by apply marked_tail.
  - change (negb (startsWith (js "- [") (c :: l)) = true) in Hl.
    apply negb_true_iff in Hl.
    assert (parse_job_line [120%N; 45%N] ((c :: l) ++ tail) = None) as ->.
    { destruct (parse_job_line _ _) as [[[[mk' label'] u'] rest]|] eqn:Hp;
        [|done].
      apply parse_job_line_spec in Hp as (Hs & _).
      rewrite job_line_text_app in Hs.
      assert (startsWith (js "- [") ((c :: l) ++ tail) = true) as Hsw
        by by rewrite Hs.
      apply startsWith_line in Hsw; [congruence|done|done]. }
    rewrite skip_plain by done. by apply marked_tail.
Qed.

Lemma omap_cons {A B} (f : A -> option B) x l :
  omap f (x :: l) = option_list (f x) ++ omap f l.
Proof. simpl. by destruct (f x). Qed.

Lemma marked_lines ls : forall prev,
  line_start prev = true -> forallb digest_line ls = true ->
  marked_urls prev 0 (join [NL] ls) = omap marked_url ls.
Proof.
  induction ls as [|l ls IH]; intros prev Hprev H; [done|].
  apply andb_true_iff in H as [Hl Hls]. rewrite omap_cons.
  destruct ls as [|l' ls].
  - rewrite <- (app_nil_r (join [NL] [l])).
    change (join [NL] [l]) with l. rewrite marked_line by auto.
    done.
  - rewrite join_cons by done. change ([NL] ++ ?x) with (NL :: x).
    rewrite marked_line by eauto. f_equal. by apply IH.
Qed.

(** X12: on a digest whose lines hold no line terminator and are job
    lines for [JOB_LINE_RE] when they start with "- [", the loop of
    [getExcludedJobIdsFromPreviousDigests] over the matches of its
    pattern finds the URLs of the job lines marked x or -, one for each
    such line, in the order of the lines; when such a digest is a file
    linkedin-jobs-*.md of the directory, no record with the job id of
    one of these URLs is in the list [main] builds for the new
    digest. *)
Theorem X12_marked_lines_are_found :
  forall ls : list jsstring,
    forallb digest_line ls = true ->
    marked_urls None 0 (join [NL] ls) = omap marked_url ls /\
    forall (dir : directory) (name u i : jsstring) (res : list job),
      dir !! name = Some (join [NL] ls) -> is_digest_name name = true ->
      u ∈ omap marked_url ls -> getJobId u = Some i ->
      forall x,
        x ∈ withScore (getExcludedJobIdsFromPreviousDigests dir) res ->
        getJobId (EmailDigest.url (x.1)) <> Some i.
Proof.
  intros ls H.
  assert (marked_urls None 0 (join [NL] ls) = omap marked_url ls) as Hfound
    by by apply marked_lines.
  split; [done|].
  intros dir name u i res Hfile Hname Hu Hid x Hx Hgid.
  apply (email_path_excludes _ _ _ _ Hx Hgid).
  apply excluded_ids_spec. exists name, (join [NL] ls), u.
  by rewrite Hfound.
Qed.

End MarkedMore.

Lemma X12_marked_lines_witness :
  forallb FilterDigest.digest_line FilterDigest.marked_digest_lines = true /\
  DigestText.marked_urls None 0 (join [NL] FilterDigest.marked_digest_lines)
  = [js "https://www.linkedin.com/jobs/view/1"; js "http://example.com/jobs/3"].
Proof.
  split; [reflexivity|].
  rewrite (proj1 (X12_marked_lines_are_found FilterDigest.marked_digest_lines
                    eq_refl)).
  reflexivity.
Defined.

(** ** One record per company *)

Section DedupeMore.

Import Tracker Dedupe.






























End DedupeMore.


(** ** Sequences of status updates *)

Section TrackerMore.

Variable Date_ms : jsstring -> option Z.

Import Tracker.

Lemma apply_status_interview_dates st d n a :
  interview_dates (apply_status Date_ms st d n a)
  = if eqb st INTERVIEW
    then if bool_decide (d ∈ interview_dates a) then interview_dates a
         else interview_dates a ++ [d]
    else interview_dates a.
Proof. unfold apply_status. repeat (case_match; simpl in * ); done. Qed.

Lemma update_first_ids i g l :
  (forall a, id (g a) = id a) -> id <$> update_first i g l = id <$> l.
Proof.
  intros Hg. induction l as [|a l IH]; [done|]. simpl.
  destruct (has_id i a); rewrite !fmap_cons; [by rewrite Hg|by rewrite IH].
Qed.

Lemma perform_ids f c :
  id <$> apps_of (perform Date_ms f c) = id <$> apps_of f.
Proof.
  unfold perform, updateStatus. rewrite apps_of_loadTracker.
  destruct (find_app (c_id c) (apps_of f)); [|done]. simpl.
  apply update_first_ids. intros. apply apply_status_id.
Qed.

Lemma default_last_cons {A} (x y : A) l :
  default x (last (y :: l)) = default y (last l).
Proof.
  destruct l as [|z l]; [done|].
  change (last (y :: z :: l)) with (last (z :: l)).
  by destruct (proj2 (last_is_Some (z :: l))) as [w ->].
Qed.

(** X15: whatever sequence of [updateStatus] calls is run, the status
    history of a record only grows: it is the history before followed
    by one entry for every call on its id, in the order of the calls;
    the status is that of the last such call, the application date
    stays, and the file holds the same ids in the same order. *)
Theorem X15_status_history_is_append_only :
  forall (cs : list call) (f : file) (i : jsstring) (a : application),
    stored i f = Some a ->
    exists a',
      stored i (perform_all Date_ms f cs) = Some a' /\
      status_history a'
      = status_history a
        ++ map (fun c => HistoryEntry (c_status c) (effective_date c)
                           (c_notes c))
             (filter (fun c => c_id c = i) cs) /\
      status a'
      = default (status a)
          (last (c_status <$> filter (fun c => c_id c = i) cs)) /\
      date_applied a' = date_applied a /\
      id <$> apps_of (perform_all Date_ms f cs) = id <$> apps_of f.
Proof.
  induction cs as [|c cs IH]; intros f i a Hf.
  - exists a. simpl. by rewrite app_nil_r.
  - pose proof (stored_perform Date_ms i f c) as Hs. rewrite Hf in Hs.
    simpl in Hs. cbn [perform_all fold_left].
    fold (perform_all Date_ms (perform Date_ms f c) cs).
    rewrite filter_cons. case_bool_decide as Hi.
    + destruct (IH _ _ _ Hs) as (a' & Ha' & Hh & Hst & Hd & Hids).
      exists a'. rewrite decide_True by done.
      split; [done|]. split; [|split; [|split]].
      * rewrite Hh, apply_status_history, <- app_assoc. done.
      * rewrite Hst, apply_status_status, fmap_cons.
        by rewrite default_last_cons.
      * by rewrite Hd, apply_status_date_applied.
      * by rewrite Hids, perform_ids.
    + destruct (IH _ _ _ Hs) as (a' & Ha' & Hh & Hst & Hd & Hids).
      exists a'. rewrite decide_False by done.
      split; [done|]. split; [done|]. split; [done|]. split; [done|].
      by rewrite Hids, perform_ids.
Qed.

(** X16: the interview dates of a record stay without repetition under
    any sequence of [updateStatus] calls, and they are exactly the
    dates the record had and the dates of the calls that moved it to
    'interview'. *)
Theorem X16_interview_dates_are_distinct :
  forall (cs : list call) (f : file) (i : jsstring) (a : application),
    stored i f = Some a ->
    NoDup (interview_dates a) ->
    exists a',
      stored i (perform_all Date_ms f cs) = Some a' /\
      NoDup (interview_dates a') /\
      forall d,
        d ∈ interview_dates a' <->
        d ∈ interview_dates a \/
        exists c, c ∈ cs /\ c_id c = i /\ c_status c = INTERVIEW /\
                  effective_date c = d.
Proof.
  induction cs as [|c cs IH]; intros f i a Hf Hnd.
  - exists a. split; [done|]. split; [done|]. intros d. split; [auto|].
    intros [?|(c & Hc & _)]; [done|]. by apply elem_of_nil in Hc.
  - pose proof (stored_perform Date_ms i f c) as Hs. rewrite Hf in Hs.
    simpl in Hs. cbn [perform_all fold_left].
    fold (perform_all Date_ms (perform Date_ms f c) cs).
    case_bool_decide as Hi.
    + set (a1 := apply_status Date_ms (c_status c) (effective_date c)
                   (c_notes c) a) in *.
      assert (NoDup (interview_dates a1) /\
              forall d, d ∈ interview_dates a1 <->
                        d ∈ interview_dates a \/
                        (c_status c = INTERVIEW /\ effective_date c = d))
        as [Hnd1 Hin1].
      { unfold a1. rewrite apply_status_interview_dates. unfold eqb.
        case_bool_decide as Hst.
        - case_bool_decide as Hd.
          + split; [done|]. intros d. split; [auto|].
            intros [?|[_ <-]]; done.
          + split.
            * apply NoDup_app. split; [done|].
              split; [|apply NoDup_singleton].
              intros d Hd1 Hd2%list_elem_of_singleton. by subst.
            * intros d. rewrite elem_of_app, list_elem_of_singleton. split.
              -- intros [?| ->]; [by left|by right].
              -- intros [?|[_ <-]]; [by left|by right].
        - split; [done|]. intros d. split; [auto|]. intros [?|[? _]]; done. }
      destruct (IH _ _ _ Hs Hnd1) as (a' & Ha' & Hnd' & Hin').
      exists a'. split; [done|]. split; [done|]. intros d.
      rewrite Hin', Hin1. split.
      * intros [[?|[? ?]]|(c' & Hc' & ?)].
        -- by left.
        -- right. exists c. split; [apply list_elem_of_here|done].
        -- right. exists c'. split; [by apply list_elem_of_further|done].
      * intros [?|(c' & [->|Hc']%elem_of_cons & ? & ? & ?)].
        -- left. by left.
        -- left. by right.
        -- right. by exists c'.
    + destruct (IH _ _ _ Hs Hnd) as (a' & Ha' & Hnd' & Hin').
      exists a'. split; [done|]. split; [done|]. intros d.
      rewrite Hin'. split.
      * intros [?|(c' & Hc' & ?)]; [by left|].
        right. exists c'. split; [by apply list_elem_of_further|done].
      * intros [?|(c' & [->|Hc']%elem_of_cons & ? & ?)]; [by left|done|].
        right. by exists c'.
Qed.

End TrackerMore.

Lemma X15_status_history_witness :
  exists a',
    Tracker.stored (js "app-1")
      (Tracker.perform_all Tracker.iso_date_ms Tracker.acme_file
         (Tracker.first_response :: Tracker.later_transitions)) = Some a' /\
    Tracker.status_history a'
    = [ Tracker.HistoryEntry Tracker.APPLIED (js "2026-02-01") [];
        Tracker.HistoryEntry Tracker.RESPONDED (js "2026-02-06") [];
        Tracker.HistoryEntry Tracker.INTERVIEW (js "2026-02-09") [];
        Tracker.HistoryEntry Tracker.RESPONDED (js "2026-02-20") [] ].
Proof.
  destruct (X15_status_history_is_append_only Tracker.iso_date_ms
              (Tracker.first_response :: Tracker.later_transitions)
              Tracker.acme_file (js "app-1") Tracker.acme_application
              eq_refl) as (a' & Ha' & Hh & _).
  exists a'. split; [exact Ha'|]. rewrite Hh. reflexivity.
Defined.

Lemma X16_interview_dates_witness :
  exists a',
    Tracker.stored (js "app-1")
      (Tracker.perform_all Tracker.iso_date_ms Tracker.acme_file
         (Tracker.first_response :: Tracker.later_transitions)) = Some a' /\
    NoDup (Tracker.interview_dates a').
Proof.
  destruct (X16_interview_dates_are_distinct Tracker.iso_date_ms
              (Tracker.first_response :: Tracker.later_transitions)
              Tracker.acme_file (js "app-1") Tracker.acme_application
              eq_refl NoDup_nil_2) as (a' & Ha' & Hnd & _).
  exists a'. split; [exact Ha'|exact Hnd].
Defined.

(** ** The RSS step: titles and the merge into the digest *)

Section RssMore.

Import DigestText RssMerge.

Lemma Forall_trimStart (P : N -> Prop) s :
  Forall P s -> Forall P (trimStart s).
Proof.
  induction s as [|c s IH]; intros H; [done|]. simpl.
  apply Forall_cons in H as [Hc Hs]. destruct (is_space c); [auto|].
  by apply Forall_cons.
Qed.

Lemma Forall_trim (P : N -> Prop) s : Forall P s -> Forall P (trim s).
Proof.
  intros H. unfold trim, trimEnd.
  apply Forall_reverse, Forall_trimStart, Forall_reverse.
  by apply Forall_trimStart.
Qed.

Lemma collapse_ws_from_units b s :
  Forall (fun c => is_space c = true -> c = 32%N) (collapse_ws_from b s).
Proof.
  revert b. induction s as [|c s IH]; intros b; simpl; [done|].
  destruct (is_space c) eqn:Hc.
  - destruct b; [apply IH|]. apply Forall_cons. split; [done|apply IH].
  - apply Forall_cons. split; [congruence|apply IH].
Qed.

Lemma collapse_ws_from_keeps (P : N -> Prop) b s :
  P 32%N -> Forall P s -> Forall P (collapse_ws_from b s).
Proof.
  intros H32. revert b.
  induction s as [|c s IH]; intros b H; simpl; [done|].
  apply Forall_cons in H as [Hc Hs]. destruct (is_space c).
  - destruct b; [by apply IH|]. apply Forall_cons. split; [done|by apply IH].
  - apply Forall_cons. split; [done|by apply IH].
Qed.

Lemma replace_pipes_units s : Forall (fun c => c <> 124%N) (replace_pipes s).
Proof.
  induction s as [|c s IH]; [done|]. cbn [replace_pipes map].
  apply Forall_cons. split; [|apply IH].
  destruct (c =? 124)%N eqn:Hc; [done|]. by apply N.eqb_neq.
Qed.

Lemma forallb_of_Forall (f : N -> bool) s :
  Forall (fun c => f c = true) s -> forallb f s = true.
Proof.
  induction 1 as [|c s Hc _ IH]; [done|]. simpl. by rewrite Hc, IH.
Qed.

(** X17: a title as [sanitizeTitleForMarkdown] returns it has at most
    120 code units, no "|", and no white space other than the space
    character (so no line break). *)
Theorem X17_sanitized_title :
  forall t : jsstring,
    (length (sanitizeTitleForMarkdown t) <= 120)%nat /\
    Forall (fun c => c <> 124%N /\ (is_space c = true -> c = 32%N))
      (sanitizeTitleForMarkdown t) /\
    plain (sanitizeTitleForMarkdown t) = true.
Proof.
  intros t. unfold sanitizeTitleForMarkdown, slice.
  assert (Forall (fun c => c <> 124%N /\ (is_space c = true -> c = 32%N))
            (take (120 - 0) (drop 0 (trim (collapse_ws (replace_pipes t))))))
    as Hunits.
  { apply Forall_take, Forall_drop, Forall_trim. unfold collapse_ws.
    apply Forall_and. split.
    - apply collapse_ws_from_keeps; [done|apply replace_pipes_units].
    - apply collapse_ws_from_units. }
  split; [|split; [done|]].
  - rewrite length_take. lia.
  - unfold plain. apply forallb_of_Forall.
    eapply Forall_impl; [exact Hunits|]. intros c [_ Hc]. simpl in Hc.
    destruct (is_line_terminator c) eqn:Hlt; [|done].
    assert (is_space c = true) as Hsp.
    { unfold is_line_terminator in Hlt.
      repeat (apply orb_true_iff in Hlt as [Hlt|Hlt]);
        apply N.eqb_eq in Hlt; by subst. }
    by rewrite (Hc Hsp) in Hlt.
Qed.

Lemma includes_here p s : startsWith p s = true -> includes p s = true.
Proof. intros H. destruct s; simpl in *; by rewrite H. Qed.

Lemma includes_app_r p a s :
  includes p s = true -> includes p (a ++ s) = true.
Proof.
  intros H. induction a as [|c a IH]; [done|]. simpl.
  rewrite IH. apply orb_true_r.
Qed.

Lemma startsWith_app_l p : forall s r,
  startsWith p s = true -> startsWith p (s ++ r) = true.
Proof.
  induction p as [|c p IH]; intros s r H; [done|].
  destruct s as [|d s]; [done|]. simpl in *.
  destruct (c =? d)%N; [auto|done].
Qed.

Lemma includes_app_l p s r :
  includes p s = true -> includes p (s ++ r) = true.
Proof.
  induction s as [|c s IH]; intros H.
  - simpl in H. rewrite orb_false_r in H. destruct p; [|done].
    by destruct r.
  - simpl in H. apply orb_true_iff in H as [H|H].
    + apply includes_here. by apply (startsWith_app_l _ (c :: s)).
    + simpl. rewrite IH by done. apply orb_true_r.
Qed.

Lemma rss_only_name_fresh today (b : bool) :
  (if b then js "foorilla-pm-" else js "remote-pm-rss-") ++ today ++ js ".md"
  <> digest_name today.
Proof.
  unfold digest_name. destruct b; intros H; vm_compute in H; discriminate.
Qed.

(** X18: a run of [main] touches no file but the RSS-only file of the
    day and the digest of the day, and nothing with --dry-run; what the
    digest of the day held stays, either as it was or (trailing white
    space removed) in front of the appended block; and after a merging
    run (the date text not holding the RSS heading itself) the digest
    of the day exists and holds the RSS heading, and no later run of
    the day changes it. *)
Theorem X18_rss_section_is_merged_once :
  forall (today : jsstring) (o : options)
         (fetched : jsstring -> option (list feed_item))
         (foorillaItems : list feed_item) (dir : directory),
    (dryRun o = true -> main today o fetched foorillaItems dir = dir) /\
    (forall name,
       name <> digest_name today ->
       name <> (if onlyFoorilla o then js "foorilla-pm-"
                else js "remote-pm-rss-") ++ today ++ js ".md" ->
       main today o fetched foorillaItems dir !! name = dir !! name) /\
    (forall c,
       dir !! digest_name today = Some c ->
       exists c1,
         main today o fetched foorillaItems dir !! digest_name today
         = Some c1 /\
         (c1 = c \/ exists block, c1 = trimEnd c ++ block)) /\
    (dryRun o = false -> noMerge o = false -> onlyFoorilla o = false ->
     includes RSS_HEADING (default_digest today) = false ->
     exists c1,
       main today o fetched foorillaItems dir !! digest_name today = Some c1 /\
       includes RSS_HEADING c1 = true /\
       forall o' fetched' foorillaItems',
         main today o' fetched' foorillaItems'
           (main today o fetched foorillaItems dir) !! digest_name today
         = Some c1).
Proof.
  intros today o fetched foorillaItems dir.
  assert (forall o1 f1 i1 d1 c1,
            d1 !! digest_name today = Some c1 ->
            includes RSS_HEADING c1 = true ->
            main today o1 f1 i1 d1 !! digest_name today = Some c1) as Hkeep.
  { intros o1 f1 i1 d1 c1 Hd Hinc. unfold main. cbv zeta.
    destruct (dryRun o1); [done|].
    destruct (noMerge o1 || onlyFoorilla o1).
    - rewrite lookup_insert_ne; [done|]. apply rss_only_name_fresh.
    - rewrite (lookup_insert_ne _ _ (digest_name today));
        [|apply rss_only_name_fresh].
      rewrite Hd, Hinc.
      rewrite lookup_insert_ne; [done|]. apply rss_only_name_fresh. }
  split; [|split; [|split]].
  - intros Hdry. unfold main. cbv zeta. by rewrite Hdry.
  - intros name Hn1 Hn2. unfold main. cbv zeta.
    destruct (dryRun o); [done|].
    destruct (noMerge o || onlyFoorilla o).
    + by rewrite lookup_insert_ne.
    + destruct (includes RSS_HEADING _).
      * by rewrite lookup_insert_ne.
      * rewrite lookup_insert_ne by done. by rewrite lookup_insert_ne.
  - intros c Hc. unfold main. cbv zeta.
    destruct (dryRun o); [by exists c; split; [|left]|].
    destruct (noMerge o || onlyFoorilla o).
    + exists c. split; [|by left].
      rewrite lookup_insert_ne; [done|]. apply rss_only_name_fresh.
    + rewrite (lookup_insert_ne _ _ (digest_name today));
        [|apply rss_only_name_fresh].
      rewrite Hc. destruct (includes RSS_HEADING c).
      * exists c. split; [|by left].
        rewrite lookup_insert_ne; [done|]. apply rss_only_name_fresh.
      * eexists. rewrite lookup_insert_eq. split; [done|]. right.
        by eexists.
  - intros Hdry Hno Honly Hdate.
    assert (exists c1,
              main today o fetched foorillaItems dir !! digest_name today
              = Some c1 /\ includes RSS_HEADING c1 = true)
      as (c1 & Hc1 & Hinc).
    { unfold main. cbv zeta. rewrite Hdry, Hno, Honly. cbn [orb].
      rewrite (lookup_insert_ne _ _ (digest_name today));
        [|apply (rss_only_name_fresh today false)].
      assert (forall c rest,
                includes RSS_HEADING (trimEnd c ++ sectionHeader ++ rest)
                = true) as Hblock.
      { intros c rest. apply includes_app_r. unfold sectionHeader.
        rewrite <- !app_assoc. apply includes_app_r.
        apply includes_here, startsWith_app. }
      destruct (dir !! digest_name today) as [c|] eqn:Hd.
      - destruct (includes RSS_HEADING c) eqn:Hinc.
        + exists c. split; [|done].
          rewrite lookup_insert_ne;
            [done|apply (rss_only_name_fresh today false)].
        + eexists. rewrite lookup_insert_eq. split; [done|].
          rewrite <- !app_assoc. apply Hblock.
      - rewrite Hdate. eexists. rewrite lookup_insert_eq. split; [done|].
        rewrite <- !app_assoc. apply Hblock. }
    exists c1. split; [done|]. split; [done|].
    intros o' fetched' foorillaItems'. by apply Hkeep.
Qed.

End RssMore.

Lemma X18_rss_section_witness :
  exists c1,
    RssMerge.later_directory !! DigestText.digest_name (js "2026-02-07")
    = Some c1 /\
    includes RssMerge.RSS_HEADING c1 = true /\
    forall o' fetched' foorillaItems',
      RssMerge.main (js "2026-02-07") o' fetched' foorillaItems'
        RssMerge.later_directory
      !! DigestText.digest_name (js "2026-02-07")
      = Some c1.
Proof.
  apply (X18_rss_section_is_merged_once (js "2026-02-07")
           RssMerge.all_sources RssMerge.later_feeds []
           (EmailDigest.main (js "2026-02-07") false
              RssMerge.earlier_directory RssMerge.later_mail));
    reflexivity.
Defined.

(** ** What a run of the filter keeps *)

Section FilterMore.

Import Scrape DigestText FilterDigest.

Variable digestName : jsstring.
Variable lines : list jsstring.
Variable page : nat -> visit.
Variable d : disk.

Lemma persist_kept st :
  run_kept digestName lines d st ->
  run_kept digestName lines d (persist digestName lines st).
Proof.
  intros (H0 & H1 & H2 & H3). unfold run_kept.
  rewrite persist_disk. destruct (persist_memory digestName lines st) as [-> _].
  split; [by etrans|]. split; [done|]. split; [|done].
  intros name Hn. unfold persist, saveFilterState. simpl.
  rewrite lookup_insert_ne by done. by apply H2.
Qed.

Lemma after_item_state batchSize st :
  state_of (after_item digestName lines batchSize st) = st \/
  state_of (after_item digestName lines batchSize st)
  = persist digestName lines st.
Proof.
  destruct batchSize as [b|].
  - rewrite after_item_bounded.
    destruct (b <=? processedThisRun st)%nat; [by right|by left].
  - rewrite after_item_unbounded. simpl.
    destruct (_ && _); [by right|by left].
Qed.

Lemma after_item_kept batchSize st :
  run_kept digestName lines d st ->
  run_kept digestName lines d
    (state_of (after_item digestName lines batchSize st)).
Proof.
  intros H. destruct (after_item_state batchSize st) as [->| ->];
    [done|by apply persist_kept].
Qed.

Lemma iteration_kept batchSize k i st :
  run_kept digestName lines d st ->
  run_kept digestName lines d
    (state_of (iteration digestName lines batchSize page k i st)).
Proof.
  intros H.
  destruct (iteration_cases digestName lines page batchSize k i st)
    as [->|(jobId & Hid & Hnone & [[_ ->]|(_ & st1 & Hm & ->)])]; [done| |].
  - by apply after_item_kept.
  - apply after_item_kept.
    destruct H as (H0 & H1 & H2 & H3), Hm as ([sv Hres] & _ & Hd).
    unfold run_kept. rewrite Hd, Hres. split; [done|]. split.
    + etrans; [exact H1|]. by apply insert_subseteq.
    + split; [done|]. intros j Hj.
      destruct (decide (j = jobId)) as [->|Hne]; [right; by exists i|].
      rewrite lookup_insert_ne in Hj by done. by apply H3.
Qed.

Lemma batch_loop_kept batchSize indices : forall k st,
  run_kept digestName lines d st ->
  run_kept digestName lines d
    (state_of (batch_loop digestName lines batchSize page k indices st)).
Proof.
  induction indices as [|i indices IH]; intros k st H; [done|]. simpl.
  pose proof (iteration_kept batchSize k i st H) as Hi.
  destruct (iteration digestName lines batchSize page k i st); [|done].
  by apply IH.
Qed.

End FilterMore.

(** X19: a run of [runFilter] never loses or changes a result saved
    before, leaves the state of the other digests as it was, and saves
    new results only for ids of job lines of the digest. *)
Theorem X19_run_keeps_saved_results :
  forall (digestName : jsstring) (batchSize : option nat)
         (sessionExpired : bool) (page : nat -> FilterDigest.visit)
         (d : FilterDigest.disk),
    FilterDigest.loadFilterState digestName d
    ⊆ FilterDigest.loadFilterState digestName
        (FilterDigest.runFilter digestName batchSize sessionExpired page d) /\
    (forall name,
       name <> digestName ->
       FilterDigest.filterState
         (FilterDigest.runFilter digestName batchSize sessionExpired page d)
       !! name
       = FilterDigest.filterState d !! name) /\
    (forall j,
       is_Some (FilterDigest.loadFilterState digestName
                  (FilterDigest.runFilter digestName batchSize sessionExpired
                     page d) !! j) ->
       is_Some (FilterDigest.loadFilterState digestName d !! j) \/
       exists content i,
         FilterDigest.digest d = Some content /\
         FilterDigest.line_id (FilterDigest.split_lines content) i = Some j).
Proof.
  intros digestName batchSize sessionExpired page d.
  unfold FilterDigest.runFilter.
  destruct (FilterDigest.digest d) as [content|] eqn:Hd; [|by auto].
  set (lines := FilterDigest.split_lines content).
  set (indices := FilterDigest.job_line_indices 0 lines).
  set (st := FilterDigest.initial_state digestName lines d).
  destruct indices as [|i0 rest] eqn:Hindices; [by auto|].
  rewrite <- Hindices.
  destruct (forallb _ indices); [by auto|].
  destruct sessionExpired; [by auto|].
  assert (FilterDigest.run_kept digestName lines d st) as Hst.
  { destruct (initial_state_keeps digestName lines d) as (Hr & _ & Hdisk).
    unfold FilterDigest.run_kept. fold st in Hr, Hdisk. rewrite Hr, Hdisk.
    split; [done|]. split; [done|]. split; [done|]. intros j Hj. by left. }
  pose proof (batch_loop_kept digestName lines page d batchSize indices 0 st
                Hst) as Hloop.
  assert (exists st',
            FilterDigest.run_kept digestName lines d st' /\
            match FilterDigest.batch_loop digestName lines batchSize page 0
                    indices st with
            | FilterDigest.Return st1 => FilterDigest.on_disk st1
            | FilterDigest.Next st1 =>
                FilterDigest.on_disk (FilterDigest.persist digestName lines st1)
            end = FilterDigest.on_disk st') as (st' & Hkept & ->).
  { destruct (FilterDigest.batch_loop _ _ _ _ _ _ _) as [st1|st1].
    - eexists. split; [|done]. by apply persist_kept.
    - by exists st1. }
  destruct Hkept as (H0 & H1 & H2 & H3).
  split; [done|]. split; [done|]. intros j Hj.
  assert (is_Some (FilterDigest.stateResults st' !! j)) as Hmem.
  { destruct Hj as [sv Hj]. exists sv.
    by apply (lookup_weaken _ _ _ _ Hj). }
  destruct (H3 j Hmem) as [?|[i Hi]]; [by left|].
  right. by exists content, i.
Qed.

(** ** From the e-mail step to the filter step *)

Section ComposeMore.

Import Scrape DigestText EmailDigest FilterDigest.

Lemma digits_from_free c fuel : forall k acc,
  is_digit c = false -> free_of c acc = true ->
  free_of c (digits_from fuel k acc) = true.
Proof.
  induction fuel as [|fuel IH]; intros k acc Hc Hacc; [done|].
  cbn [digits_from].
  assert (forall m, (m < 10)%N -> (48 + m)%N <> c) as Hdigit.
  { intros m Hm <-. unfold is_digit in Hc.
    apply andb_false_iff in Hc as [Hc|Hc]; apply N.leb_gt in Hc; lia. }
  assert (free_of c ((48 + k mod 10)%N :: acc) = true) as Hacc'.
  { rewrite free_of_cons, Hacc, andb_true_r.
    apply negb_true_iff, N.eqb_neq, Hdigit. by apply N.mod_lt. }
  destruct (k <? 10)%N; [done|]. by apply IH.
Qed.

Lemma digits_of_nat_free c n :
  is_digit c = false -> free_of c (digits_of_nat n) = true.
Proof. intros Hc. by apply digits_from_free. Qed.

Lemma free_of_replace_pipes_any c s :
  c <> 32%N -> free_of c s = true -> free_of c (replace_pipes s) = true.
Proof.
  intros Hc. induction s as [|x s IH]; [done|]. rewrite free_of_cons.
  intros [Hx Hs]%andb_true_iff. cbn [replace_pipes map].
  rewrite free_of_cons. fold (replace_pipes s). rewrite IH by done.
  destruct (x =? 124)%N; [|by rewrite Hx].
  rewrite andb_true_r. apply negb_true_iff, N.eqb_neq. congruence.
Qed.

Lemma free_of_capitalize_nl s :
  free_of 10 s = true -> free_of 10 (capitalize s) = true.
Proof.
  destruct s as [|c s]; [done|]. rewrite free_of_cons.
  intros [Hc Hs]%andb_true_iff.
  unfold capitalize. destruct (is_line_terminator c).
  { by rewrite free_of_cons, Hc, Hs. }
  rewrite free_of_app, Hs, andb_true_r. unfold upper1.
  apply negb_true_iff, N.eqb_neq in Hc.
  repeat case_match; rewrite ?free_of_cons; change (free_of 10 []) with true;
    rewrite ?andb_true_r; try done;
    apply negb_true_iff, N.eqb_neq;
    repeat match goal with
           | H : (_ && _) = true |- _ => apply andb_true_iff in H as [? ?]
           | H : (_ <=? _)%N = true |- _ => apply N.leb_le in H
           end; lia.
Qed.

Lemma printable_job_line j :
  printable j = true ->
  is_job_line (fmt j) = true /\ free_of 10 (fmt j) = true /\
  exists text, match_job_line (fmt j) = Some (32%N, text, url j).
Proof.
  unfold printable. intros H.
  repeat (apply andb_true_iff in H as [H ?]).
  assert (exists text, match_job_line (fmt j) = Some (32%N, text, url j))
    as [text Hm].
  { rewrite fmt_text. eexists. apply match_job_line_text; [| |done].
    { apply (bool_decide_unpack _). vm_compute. exact I. }
    rewrite !free_of_app.
    apply andb_true_iff. split.
    { apply free_of_replace_pipes. by destruct (_ && _). }
    apply andb_true_iff. split; [done|].
    apply andb_true_iff. split.
    { apply free_of_replace_pipes. by destruct (truthy _). }
    apply andb_true_iff. split; [done|].
    apply free_of_capitalize. by destruct (truthy _). }
  split; [unfold is_job_line; by rewrite Hm|]. split; [|by exists text].
  rewrite fmt_text. unfold job_line_text. rewrite !free_of_app.
  repeat (apply andb_true_iff; split); try done.
  - apply free_of_replace_pipes_any; [done|]. by destruct (_ && _).
  - apply free_of_replace_pipes_any; [done|]. by destruct (truthy _).
  - apply free_of_capitalize_nl. by destruct (truthy _).
Qed.

Lemma not_job_line l :
  startsWith (js "- [") l = false -> is_job_line l = false.
Proof.
  intros H. unfold is_job_line.
  destruct (match_job_line l) as [[[mk label] u]|] eqn:Hm; [|done].
  apply match_job_line_inv in Hm as (-> & _).
  rewrite <- (app_nil_r (job_line_text _ _ _)), job_line_text_app in H.
  done.
Qed.

Lemma header_lines_shape today best other :
  free_of 10 today = true ->
  Forall (fun l => free_of NL l = true) (header_lines today best other) /\
  filter (fun l => is_job_line l = true) (header_lines today best other) = [].
Proof.
  intros Htoday. unfold header_lines. split.
  - repeat (apply Forall_cons; split); try apply Forall_nil_2;
      rewrite ?free_of_app; repeat (apply andb_true_iff; split);
      try done; by apply digits_of_nat_free.
  - repeat (rewrite filter_cons_False;
            [|rewrite not_job_line; [done|done]]).
    done.
Qed.

Lemma record_lines_shape (l : list (job * Z)) :
  Forall (fun x => printable (x.1) = true) l ->
  Forall (fun s => free_of NL s = true)
    (concat (map (fun x : job * Z => [fmt (x.1); []]) l)) /\
  filter (fun s => is_job_line s = true)
    (concat (map (fun x : job * Z => [fmt (x.1); []]) l))
  = (fun x : job * Z => fmt (x.1)) <$> l.
Proof.
  induction 1 as [|x l Hx _ [IH1 IH2]]; [done|].
  destruct (printable_job_line _ Hx) as (Hjob & Hfree & _).
  cbn [map concat app fmap list_fmap]. split.
  - apply Forall_cons. split; [done|]. by apply Forall_cons.
  - rewrite filter_cons_True by done. rewrite filter_cons_False by done.
    by rewrite IH2.
Qed.

Lemma withScore_from excludedIds res x :
  x ∈ withScore excludedIds res -> x.1 ∈ res.
Proof.
  unfold withScore, sort_by_score. intros [_ Hx]%list_elem_of_filter.
  apply sort_fold_elem in Hx as [Hx|Hx]; [by apply elem_of_nil in Hx|].
  apply (list_elem_of_fmap (fun j => (j, scoreJob j))) in Hx
    as (j & -> & [_ Hj]%list_elem_of_filter).
  done.
Qed.

(** X20: in the digest the e-mail step writes for records whose title,
    company and work type hold no "]" and no line feed and whose URL
    the job-line pattern accepts, the job lines [JOB_LINE_RE] of the
    filter step finds are exactly the lines of the records, the best
    matches first and then the others, each unmarked and with the URL
    of its record. *)
Theorem X20_filter_reads_the_digest_of_the_mail_step :
  forall (today : jsstring) (excludedIds : gset jsstring) (res : list job),
    free_of 10 today = true ->
    forallb printable res = true ->
    filter (fun l => is_job_line l = true)
      (split_lines (digest_content today excludedIds res))
    = (fun x : job * Z => fmt (x.1))
        <$> (filter (fun x : job * Z => 5 <= x.2) (withScore excludedIds res)
             ++ filter (fun x : job * Z => x.2 < 5)
                  (withScore excludedIds res)) /\
    forall x, x ∈ withScore excludedIds res ->
      exists text,
        match_job_line (fmt (x.1))
        = Some (32%N, text, EmailDigest.url (x.1)).
Proof.
  intros today excludedIds res Htoday Hres.
  assert (forall x, x ∈ withScore excludedIds res -> printable (x.1) = true)
    as Hprint.
  { intros x Hx%withScore_from.
    apply (proj1 (forallb_forall _ _) Hres), list_elem_of_In, Hx. }
  split; [|intros x Hx; by apply printable_job_line, Hprint].
  unfold digest_content. cbv zeta.
  set (ws := withScore excludedIds res) in *.
  set (best := filter (fun x : job * Z => 5 <= x.2) ws).
  set (other := filter (fun x : job * Z => x.2 < 5) ws).
  assert (Forall (fun x : job * Z => printable (x.1) = true) best) as Hbest.
  { apply Forall_forall. intros x [_ Hx]%list_elem_of_filter. by apply Hprint. }
  assert (Forall (fun x : job * Z => printable (x.1) = true) other) as Hother.
  { apply Forall_forall. intros x [_ Hx]%list_elem_of_filter. by apply Hprint. }
  destruct (header_lines_shape today (length best) (length other) Htoday)
    as [Hh1 Hh2].
  destruct (record_lines_shape best Hbest) as [Hb1 Hb2].
  destruct (record_lines_shape other Hother) as [Ho1 Ho2].
  rewrite split_join.
  - rewrite !filter_app, Hh2, Hb2, Ho2, fmap_app. cbn [app]. f_equal.
  - unfold header_lines. done.
  - repeat (apply Forall_app; split); try done.
    repeat (apply Forall_cons; split); try done.
Qed.

End ComposeMore.

Lemma X20_filter_reads_witness :
  filter (fun l => FilterDigest.is_job_line l = true)
    (FilterDigest.split_lines FilterDigest.two_jobs_digest)
  = [ EmailDigest.fmt
        (EmailDigest.Job (js "https://www.linkedin.com/comm/jobs/view/101")
           (js "Senior Product Manager, Casino") [] []);
      EmailDigest.fmt
        (EmailDigest.Job (js "https://www.linkedin.com/comm/jobs/view/102")
           (js "Head of Product (Remote)") [] []) ].
Proof.
  unfold FilterDigest.two_jobs_digest.
  rewrite (proj1 (X20_filter_reads_the_digest_of_the_mail_step
                    (js "2026-02-07") ∅
                    [ EmailDigest.Job
                        (js "https://www.linkedin.com/comm/jobs/view/101")
                        (js "Senior Product Manager, Casino") [] [];
                      EmailDigest.Job
                        (js "https://www.linkedin.com/comm/jobs/view/102")
                        (js "Head of Product (Remote)") [] [] ]
                    eq_refl eq_refl)).
  vm_compute. reflexivity.
Defined.

(** ** The RSS step: gathering the entries *)

Section GatherMore.

Import DigestText RssMerge.

Lemma push_entry_ok f e g :
  gathered_ok g -> e_url e ∉ seenUrls g -> e_url e <> [] ->
  gathered_ok (push_entry f e g).
Proof.
  intros (H1 & H2 & H3) Hnew Hne.
  set (old := default [] (byFeed g !! f)).
  assert (forall e', e' ∈ old -> byFeed g !! f = Some old) as Hold.
  { intros e' He'. unfold old in *. destruct (byFeed g !! f); [done|].
    by apply elem_of_nil in He'. }
  assert (forall e', e' ∈ old -> e_url e' ∈ seenUrls g) as Hseen.
  { intros e' He'. by apply (H1 f old e' (Hold e' He')). }
  unfold gathered_ok, push_entry. cbn [seenUrls byFeed]. fold old.
  split; [|split].
  - intros f' l' e' Hl' He'.
    destruct (decide (f' = f)) as [->|Hf].
    + rewrite lookup_insert_eq in Hl'. injection Hl' as <-.
      apply elem_of_app in He' as [He'|He'%list_elem_of_singleton].
      * destruct (H1 f old e' (Hold e' He') He') as [? ?].
        split; [|done]. apply elem_of_union. by right.
      * subst e'. split; [|done]. apply elem_of_union. left.
        by apply elem_of_singleton.
    + rewrite lookup_insert_ne in Hl' by done.
      destruct (H1 f' l' e' Hl' He') as [? ?].
      split; [|done]. apply elem_of_union. by right.
  - intros f' l' Hl'. destruct (decide (f' = f)) as [->|Hf].
    + rewrite lookup_insert_eq in Hl'. injection Hl' as <-.
      rewrite fmap_app. apply NoDup_app. split; [|split].
      * destruct old as [|e0 old'] eqn:Hold0; [apply NoDup_nil_2|].
        apply (H2 f). apply (Hold e0). apply list_elem_of_here.
      * intros u (e' & -> & He')%list_elem_of_fmap Hu%list_elem_of_singleton.
        apply Hnew. rewrite <- Hu. by apply Hseen.
      * apply NoDup_singleton.
    + rewrite lookup_insert_ne in Hl' by done. by apply (H2 f').
  - intros f1 f2 l1 l2 e1 e2 Hf Hl1 Hl2 He1 He2.
    destruct (decide (f1 = f)) as [->|Hf1].
    + rewrite lookup_insert_eq in Hl1. injection Hl1 as <-.
      rewrite lookup_insert_ne in Hl2 by done.
      apply elem_of_app in He1 as [He1|He1%list_elem_of_singleton].
      * by apply (H3 f f2 old l2 e1 e2 Hf (Hold e1 He1) Hl2).
      * subst e1. intros Hu. apply Hnew. rewrite Hu.
        by apply (H1 f2 l2 e2).
    + rewrite lookup_insert_ne in Hl1 by done.
      destruct (decide (f2 = f)) as [->|Hf2].
      * rewrite lookup_insert_eq in Hl2. injection Hl2 as <-.
        apply elem_of_app in He2 as [He2|He2%list_elem_of_singleton].
        -- by apply (H3 f1 f l1 old e1 e2 Hf Hl1 (Hold e2 He2)).
        -- subst e2. intros Hu. apply Hnew. rewrite <- Hu.
           by apply (H1 f1 l1 e1).
      * rewrite lookup_insert_ne in Hl2 by done.
        by apply (H3 f1 f2 l1 l2 e1 e2).
Qed.

Lemma open_feed_ok f g :
  gathered_ok g -> byFeed g !! f = None ->
  gathered_ok (Gathered (seenUrls g) (<[f := []]> (byFeed g))).
Proof.
  intros (H1 & H2 & H3) Hnone. unfold gathered_ok. cbn [seenUrls byFeed].
  assert (forall f' l', <[f := []]> (byFeed g) !! f' = Some l' ->
                        forall e', e' ∈ l' -> byFeed g !! f' = Some l')
    as Hsame.
  { intros f' l' Hl' e' He'. destruct (decide (f' = f)) as [->|Hf].
    - rewrite lookup_insert_eq in Hl'. injection Hl' as <-.
      by apply elem_of_nil in He'.
    - by rewrite lookup_insert_ne in Hl'. }
  split; [|split].
  - intros f' l' e' Hl' He'. by apply (H1 f' l' e' (Hsame _ _ Hl' _ He')).
  - intros f' l' Hl'. destruct l' as [|e0 l']; [apply NoDup_nil_2|].
    apply (H2 f'). apply (Hsame _ _ Hl' e0), list_elem_of_here.
  - intros f1 f2 l1 l2 e1 e2 Hf Hl1 Hl2 He1 He2.
    by apply (H3 f1 f2 l1 l2 e1 e2 Hf (Hsame _ _ Hl1 _ He1)
                (Hsame _ _ Hl2 _ He2)).
Qed.

Lemma trimmed_url_new g u :
  orb (negb (truthy u)) (bool_decide (u ∈ seenUrls g)) = false ->
  (u ∉ seenUrls g) /\ u <> [].
Proof.
  intros [Hu Hs]%orb_false_iff. split.
  - by apply bool_decide_eq_false in Hs.
  - by destruct u.
Qed.

Lemma take_rss_item_ok f g it :
  gathered_ok g -> gathered_ok (take_rss_item f g it).
Proof.
  intros Hg. unfold take_rss_item. cbv zeta.
  destruct (negb (truthy (trim (link it))) || _) eqn:Hu; [done|].
  destruct (negb (isProductRole (item_title it))); [done|].
  apply trimmed_url_new in Hu as [? ?]. by apply push_entry_ok.
Qed.

Lemma take_foorilla_item_ok g it :
  gathered_ok g -> gathered_ok (take_foorilla_item g it).
Proof.
  intros Hg. unfold take_foorilla_item. cbv zeta.
  destruct (negb (truthy (trim (link it))) || _) eqn:Hu; [done|].
  destruct (_ && _); [done|].
  destruct (negb (isEuropeanLocation _)); [done|].
  apply trimmed_url_new in Hu as [? ?]. by apply push_entry_ok.
Qed.

Lemma take_source_ok fetched g src :
  gathered_ok g -> gathered_ok (take_source fetched g src).
Proof.
  intros Hg. unfold take_source. cbv zeta.
  set (g1 := match byFeed g !! src.1 with
             | Some _ => g
             | None => Gathered (seenUrls g) (<[src.1 := []]> (byFeed g))
             end).
  assert (gathered_ok g1) as Hg1.
  { unfold g1. destruct (byFeed g !! src.1) eqn:Hf; [done|].
    by apply open_feed_ok. }
  destruct (fetched (src.1)) as [items|]; [|done].
  clearbody g1. revert g1 Hg1.
  induction items as [|it items IH]; intros g1 Hg1; [done|]. simpl.
  by apply IH, take_rss_item_ok.
Qed.

(** X21: the loops of [main] that gather the entries of the feeds keep
    the URLs apart: starting from nothing, after any number of RSS
    sources and Foorilla items, every entry has a non-empty URL that is
    in [seenUrls], no feed lists a URL twice, and no URL is listed under
    two feeds. *)
Theorem X21_no_url_is_gathered_twice :
  forall (fetched : jsstring -> option (list feed_item))
         (sources : list (jsstring * jsstring))
         (foorillaItems : list feed_item),
    let g := fold_left (take_source fetched) sources (Gathered ∅ ∅) in
    let g' :=
      match byFeed g !! FOORILLA with
      | Some _ => g
      | None => Gathered (seenUrls g) (<[FOORILLA := []]> (byFeed g))
      end in
    gathered_ok g /\
    gathered_ok (fold_left take_foorilla_item foorillaItems g').
Proof.
  intros fetched sources foorillaItems.
  assert (gathered_ok (Gathered ∅ ∅)) as H0.
  { split; [|split].
    - intros f l e Hl. cbn [byFeed] in Hl. by rewrite lookup_empty in Hl.
    - intros f l Hl. cbn [byFeed] in Hl. by rewrite lookup_empty in Hl.
    - intros f1 f2 l1 l2 e1 e2 _ Hl. cbn [byFeed] in Hl.
      by rewrite lookup_empty in Hl. }
  assert (forall l g, gathered_ok g ->
                      gathered_ok (fold_left (take_source fetched) l g))
    as Hsources.
  { induction l as [|src l IH]; intros g Hg; [done|]. simpl.
    by apply IH, take_source_ok. }
  assert (forall l g, gathered_ok g ->
                      gathered_ok (fold_left take_foorilla_item l g))
    as Hitems.
  { induction l as [|it l IH]; intros g Hg; [done|]. simpl.
    by apply IH, take_foorilla_item_ok. }
  cbv zeta. split; [by apply Hsources|]. apply Hitems.
  destruct (byFeed _ !! FOORILLA) eqn:Hf; [by apply Hsources|].
  apply open_feed_ok; [by apply Hsources|done].
Qed.

End GatherMore.

(** ** New applications and feedback *)

Section IntakeMore.

Variable Date_ms : jsstring -> option Z.

Import Tracker Scrape Intake.

Lemma find_app_app i l a :
  find_app i (l ++ [a])
  = match find_app i l with
    | Some b => Some b
    | None => if has_id i a then Some a else None
    end.
Proof.
  unfold find_app. induction l as [|b l IH]; simpl.
  - by destruct (has_id i a).
  - by destruct (has_id i b).
Qed.

(** X22: [addApplication] appends one record, 'applied' with a history
    of one entry, and changes no other record; the id it was given
    denotes the new record unless an older record has that id, which
    then stays the one [updateStatus] finds; without a job id in the
    data, the job id is the one of the URL. *)
Theorem X22_added_application :
  forall (today newId : jsstring) (f : file) (data : application_data),
    let app := fst (addApplication today newId f data) in
    let f' := snd (addApplication today newId f data) in
    apps_of f' = apps_of f ++ [app] /\
    id app = newId /\ status app = APPLIED /\
    status_history app
    = [HistoryEntry APPLIED (date_applied app) (notes app)] /\
    (forall j, j <> newId -> stored j f' = stored j f) /\
    stored newId f'
    = match stored newId f with Some a => Some a | None => Some app end /\
    (truthy_opt (d_jobId data) = false ->
     jobId app
     = if truthy_opt (d_url data) then getJobId (default [] (d_url data))
       else None) /\
    forall st date n,
      stored newId f = None ->
      fst (updateStatus Date_ms today f' newId st date n)
      = Some (apply_status Date_ms st (or_else date today) n app).
Proof.
  intros today newId f data app f'.
  assert (apps_of f' = apps_of f ++ [app]) as Happs.
  { unfold f', addApplication. cbn [snd saveTracker apps_of applications].
    by rewrite apps_of_loadTracker. }
  assert (has_id newId app = true) as Hid by by apply has_id_true.
  assert (stored newId f'
          = match stored newId f with Some a => Some a | None => Some app end)
    as Hnew.
  { unfold stored. rewrite Happs, find_app_app, Hid. done. }
  split; [done|]. split; [done|]. split; [done|]. split; [done|].
  split; [|split; [done|split]].
  - intros j Hj. unfold stored. rewrite Happs, find_app_app.
    assert (has_id j app = false) as ->; [|by destruct (find_app j _)].
    apply has_id_false. cbn. congruence.
  - intros Hno. unfold app, addApplication. cbn. by rewrite Hno.
  - intros st date n Hfresh. rewrite Hfresh in Hnew.
    unfold updateStatus. rewrite apps_of_loadTracker.
    unfold stored in Hnew. by rewrite Hnew.
Qed.

Lemma set_feedback_id ty txt a : id (set_feedback ty txt a) = id a.
Proof. done. Qed.

Lemma apply_status_feedback st d n ty txt a :
  apply_status Date_ms st d n (set_feedback ty txt a)
  = set_feedback ty txt (apply_status Date_ms st d n a).
Proof.
  unfold apply_status, set_feedback. repeat (case_match; simpl in * ); done.
Qed.

Lemma update_first_comm i j (g h : application -> application) l :
  (forall a, id (g a) = id a) -> (forall a, id (h a) = id a) ->
  (forall a, g (h a) = h (g a)) ->
  update_first i g (update_first j h l)
  = update_first j h (update_first i g l).
Proof.
  intros Hg Hh Hgh. induction l as [|a l IH]; [done|]. simpl.
  destruct (has_id j a) eqn:Hj, (has_id i a) eqn:Hi; simpl.
  - assert (has_id i (h a) = true) as ->
      by (apply has_id_true; rewrite Hh; by apply has_id_true).
    assert (has_id j (g a) = true) as ->
      by (apply has_id_true; rewrite Hg; by apply has_id_true).
    by rewrite Hgh.
  - assert (has_id i (h a) = false) as ->
      by (apply has_id_false; rewrite Hh; by apply has_id_false).
    by rewrite Hj.
  - assert (has_id j (g a) = false) as ->
      by (apply has_id_false; rewrite Hg; by apply has_id_false).
    by rewrite Hi.
  - by rewrite Hi, Hj, IH.
Qed.

Lemma find_update_first_Some i j g l :
  (forall a, id (g a) = id a) ->
  is_Some (find_app i (update_first j g l)) <-> is_Some (find_app i l).
Proof.
  intros Hg. destruct (decide (i = j)) as [->|Hne].
  - rewrite find_update_first_same by done.
    by rewrite fmap_is_Some.
  - by rewrite find_update_first_other.
Qed.

Lemma updateStatus_file today t i st date n :
  snd (updateStatus Date_ms today (Some t) i st date n)
  = if bool_decide (is_Some (find_app i (applications t)))
    then Some (TrackerFile (Meta (version (meta t)) (created (meta t)) today)
                 (update_first i
                    (apply_status Date_ms st (or_else date today) n)
                    (applications t)))
    else Some t.
Proof.
  unfold updateStatus. cbn [loadTracker].
  destruct (find_app i (applications t)) eqn:Hi.
  - by rewrite bool_decide_eq_true_2.
  - rewrite bool_decide_eq_false_2; [done|]. by intros [? ?].
Qed.

Lemma addFeedback_file today t j ty txt :
  snd (addFeedback today (Some t) j ty txt)
  = if bool_decide (is_Some (find_app j (applications t)))
    then Some (TrackerFile (Meta (version (meta t)) (created (meta t)) today)
                 (update_first j (set_feedback (Some ty) (Some txt))
                    (applications t)))
    else Some t.
Proof.
  unfold addFeedback. cbn [loadTracker].
  destruct (find_app j (applications t)) eqn:Hj.
  - by rewrite bool_decide_eq_true_2.
  - rewrite bool_decide_eq_false_2; [done|]. by intros [? ?].
Qed.

(** X23: feedback and status are independent: [addFeedback] sets the
    two feedback fields of the record its id denotes and nothing else,
    writes nothing for an unknown id, and gives the same tracker file
    whether it runs before or after an [updateStatus] of the same
    day. *)
Theorem X23_feedback_and_status_commute :
  forall (today : jsstring) (f : file) (i st : jsstring)
         (date : option jsstring) (n j ty txt : jsstring),
    snd (addFeedback today
           (snd (updateStatus Date_ms today f i st date n)) j ty txt)
    = snd (updateStatus Date_ms today
             (snd (addFeedback today f j ty txt)) i st date n) /\
    (stored j f = None -> addFeedback today f j ty txt = (None, f)) /\
    (forall a,
       stored j f = Some a ->
       fst (addFeedback today f j ty txt)
       = Some (set_feedback (Some ty) (Some txt) a) /\
       stored j (snd (addFeedback today f j ty txt))
       = Some (set_feedback (Some ty) (Some txt) a)) /\
    (forall k, k <> j ->
       stored k (snd (addFeedback today f j ty txt)) = stored k f).
Proof.
  intros today f i st date n j ty txt.
  split; [|split; [|split]].
  - destruct f as [t|]; [|done].
    rewrite updateStatus_file, addFeedback_file.
    destruct (bool_decide (is_Some (find_app i (applications t)))) eqn:Hi;
      destruct (bool_decide (is_Some (find_app j (applications t)))) eqn:Hj;
      rewrite ?updateStatus_file, ?addFeedback_file; cbn [applications meta
        version created].
    + apply bool_decide_eq_true in Hi, Hj.
      rewrite !bool_decide_eq_true_2.
      * f_equal. f_equal. apply update_first_comm; [done| |].
        -- intros. apply apply_status_id.
        -- intros. symmetry. apply apply_status_feedback.
      * by apply find_update_first_Some.
      * apply find_update_first_Some; [|done]. intros. apply apply_status_id.
    + apply bool_decide_eq_true in Hi. apply bool_decide_eq_false in Hj.
      rewrite bool_decide_eq_false_2, bool_decide_eq_true_2; [done|done|].
      intros H. apply Hj. eapply find_update_first_Some; [|exact H].
      intros. apply apply_status_id.
    + apply bool_decide_eq_false in Hi. apply bool_decide_eq_true in Hj.
      rewrite bool_decide_eq_true_2, bool_decide_eq_false_2; [done| |done].
      intros H. apply Hi. eapply find_update_first_Some; [|exact H]. done.
    + by rewrite Hi, Hj.
  - intros Hj. unfold addFeedback. rewrite apps_of_loadTracker.
    unfold stored in Hj. by rewrite Hj.
  - intros a Hj. unfold addFeedback. rewrite apps_of_loadTracker.
    unfold stored in *. rewrite Hj. cbn [fst snd saveTracker apps_of
      applications]. split; [done|].
    by rewrite find_update_first_same, Hj.
  - intros k Hk. unfold addFeedback. rewrite apps_of_loadTracker.
    unfold stored. destruct (find_app j (apps_of f)); [|done].
    cbn [snd saveTracker apps_of applications].
    by rewrite find_update_first_other.
Qed.

End IntakeMore.

(** ** Progress of a run of the filter *)

Section ProgressMore.

Import Scrape DigestText FilterDigest.

Variable digestName : jsstring.
Variable lines : list jsstring.
Variable page : nat -> visit.

Lemma after_item_memory batchSize st :
  in_memory (after_item digestName lines batchSize st) = stateResults st.
Proof.
  destruct batchSize as [b|].
  - rewrite after_item_bounded. by destruct (b <=? processedThisRun st)%nat.
  - rewrite after_item_unbounded. simpl. by destruct (_ && _).
Qed.

Lemma iteration_grows batchSize k i st :
  stateResults st
  ⊆ in_memory (iteration digestName lines batchSize page k i st).
Proof.
  destruct (iteration_cases digestName lines page batchSize k i st)
    as [->|(jobId & _ & Hnone & [[_ ->]|(_ & st1 & Hm & ->)])]; [done| |].
  - by rewrite after_item_memory.
  - rewrite after_item_memory. destruct Hm as ([sv ->] & _).
    by apply insert_subseteq.
Qed.

Lemma iteration_records batchSize k i st j :
  unreachable (page k) = false -> line_id lines i = Some j ->
  is_Some (in_memory (iteration digestName lines batchSize page k i st) !! j).
Proof.
  intros Hreach Hid. unfold iteration, line_id in *.
  destruct (match_job_line (default [] (lines !! i)))
    as [[[mk linkText] u]|]; [|done].
  rewrite Hid. destruct (stateResults st !! j) eqn:Hres; [by eexists|].
  destruct (page k) as [| | | |w pt pc hc]; try done.
  - rewrite after_item_memory. simpl. rewrite lookup_insert_eq. by eexists.
  - destruct w; rewrite after_item_memory; simpl; rewrite lookup_insert_eq;
      by eexists.
Qed.

Lemma batch_loop_grows batchSize indices : forall k st,
  stateResults st
  ⊆ in_memory (batch_loop digestName lines batchSize page k indices st).
Proof.
  induction indices as [|i indices IH]; intros k st; [done|]. simpl.
  pose proof (iteration_grows batchSize k i st) as Hi.
  destruct (iteration digestName lines batchSize page k i st) as [st1|st1];
    [|done].
  etrans; [exact Hi|]. apply IH.
Qed.

Lemma iteration_unbounded_next k i st :
  exists st1, iteration digestName lines None page k i st = Next st1.
Proof.
  destruct (iteration_cases digestName lines page None k i st)
    as [->|(jobId & _ & _ & [[_ ->]|(_ & st1 & _ & ->)])];
    [by eexists|rewrite after_item_unbounded; by eexists..].
Qed.

Lemma batch_loop_unbounded_next indices : forall k st,
  exists st1, batch_loop digestName lines None page k indices st = Next st1.
Proof.
  induction indices as [|i indices IH]; intros k st; [by eexists|]. simpl.
  destruct (iteration_unbounded_next k i st) as [st1 ->]. apply IH.
Qed.

Lemma batch_loop_records indices : forall k st n i j,
  (forall m, unreachable (page (k + m)) = false) ->
  indices !! n = Some i -> line_id lines i = Some j ->
  is_Some (in_memory (batch_loop digestName lines None page k indices st) !! j).
Proof.
  induction indices as [|i0 indices IH]; intros k st n i j Hreach Hn Hid;
    [done|].
  simpl. destruct (iteration_unbounded_next k i0 st) as [st1 Hst1].
  rewrite Hst1. destruct n as [|n].
  - injection Hn as ->.
    pose proof (iteration_records None k i st j) as Hrec.
    rewrite Hst1 in Hrec. simpl in Hrec.
    destruct Hrec as [sv Hsv]; [|done|].
    { specialize (Hreach 0%nat). by rewrite Nat.add_0_r in Hreach. }
    exists sv. eapply lookup_weaken; [exact Hsv|apply batch_loop_grows].
  - apply (IH (S k) st1 n i j); [|done|done].
    intros m. specialize (Hreach (S m)). by rewrite Nat.add_succ_r in Hreach.
Qed.

End ProgressMore.

(** X24: a run without batch limit in which every job page could be
    reached leaves no job line of the digest without a saved result:
    every job line with a LinkedIn id has its result in the state file,
    and no line is remaining for the next run. *)
Theorem X24_complete_run_leaves_nothing :
  forall (digestName : jsstring) (page : nat -> FilterDigest.visit)
         (d : FilterDigest.disk) (content : jsstring),
    FilterDigest.digest d = Some content ->
    (forall k, FilterDigest.unreachable (page k) = false) ->
    forall i,
      i ∈ FilterDigest.job_line_indices 0
            (FilterDigest.split_lines content) ->
      FilterDigest.is_remaining (FilterDigest.split_lines content)
        (FilterDigest.loadFilterState digestName
           (FilterDigest.runFilter digestName None false page d)) i
      = false.
Proof.
  intros digestName page d content Hd Hreach i Hi.
  unfold FilterDigest.runFilter. rewrite Hd.
  set (lines := FilterDigest.split_lines content) in *.
  set (indices := FilterDigest.job_line_indices 0 lines) in *.
  set (st := FilterDigest.initial_state digestName lines d).
  destruct (initial_state_keeps digestName lines d) as (Hr & _ & Hdisk).
  fold st in Hr, Hdisk.
  destruct indices as [|i0 rest] eqn:Hindices;
    [by apply elem_of_nil in Hi|].
  rewrite <- Hindices in *.
  destruct (forallb _ indices) eqn:Hdone.
  - assert (FilterDigest.loadFilterState digestName
              (FilterDigest.Disk
                 (Some (FilterDigest.digest_from_state lines
                          (FilterDigest.toRemove st)
                          (FilterDigest.skipBlankAfter st)
                          (FilterDigest.lineUpdates st)))
                 (FilterDigest.filterState d))
            = FilterDigest.stateResults st) as -> by by rewrite Hr.
    apply list_elem_of_In in Hi.
    apply (proj1 (forallb_forall _ _) Hdone) in Hi.
    by apply negb_true_iff in Hi.
  - destruct (batch_loop_unbounded_next digestName lines page indices 0 st)
      as [st' Hst'].
    rewrite Hst'. rewrite persist_disk.
    unfold FilterDigest.is_remaining.
    destruct (FilterDigest.match_job_line (default [] (lines !! i)))
      as [[[mk linkText] u]|] eqn:Hm; [|done].
    destruct (Scrape.getJobId u) as [j|] eqn:Hj; [|done].
    apply list_elem_of_lookup in Hi as [n Hn].
    destruct (batch_loop_records digestName lines page indices 0 st n i j)
      as [sv Hsv]; [done|done| |].
    { unfold FilterDigest.line_id. by rewrite Hm. }
    rewrite Hst' in Hsv. simpl in Hsv. by rewrite Hsv.
Qed.

Lemma X24_complete_run_witness :
  FilterDigest.is_remaining
    (FilterDigest.split_lines FilterDigest.two_jobs_digest)
    (FilterDigest.loadFilterState FilterDigest.TODAY_DIGEST
       (FilterDigest.runFilter FilterDigest.TODAY_DIGEST None false
          (fun _ => FilterDigest.remote_page) FilterDigest.two_jobs_disk))
    17%nat
  = false.
Proof.
  apply (X24_complete_run_leaves_nothing FilterDigest.TODAY_DIGEST
           (fun _ => FilterDigest.remote_page) FilterDigest.two_jobs_disk
           FilterDigest.two_jobs_digest eq_refl (fun _ => eq_refl)).
  apply (bool_decide_unpack _). vm_compute. exact I.
Defined.

(** ** Runs with a batch limit *)

Section BatchMore.

Import Scrape DigestText FilterDigest.

Variable digestName : jsstring.
Variable lines : list jsstring.
Variable page : nat -> visit.
Variable b : nat.
Variable before : nat.

Lemma iteration_batch k i st :
  size (stateResults st) = (before + processedThisRun st)%nat ->
  (processedThisRun st < b)%nat ->
  match iteration digestName lines (Some b) page k i st with
  | Next st1 =>
      size (stateResults st1) = (before + processedThisRun st1)%nat /\
      (processedThisRun st1 < b)%nat
  | Return st1 =>
      size (stateResults st1) = (before + b)%nat /\
      loadFilterState digestName (on_disk st1) = stateResults st1
  end.
Proof.
  intros Hsize Hlt.
  destruct (iteration_cases digestName lines page (Some b) k i st)
    as [->|(jobId & _ & Hnone & [[_ ->]|(_ & st1 & Hm & ->)])]; [done| |].
  - rewrite after_item_bounded.
    destruct (Nat.leb_spec b (processedThisRun st)); [lia|done].
  - rewrite after_item_bounded.
    destruct Hm as ([sv Hres] & Hp & _).
    assert (size (stateResults st1) = (before + processedThisRun st1)%nat)
      as Hsize1.
    { rewrite Hres, map_size_insert_None by done. lia. }
    destruct (Nat.leb_spec b (processedThisRun st1)).
    + rewrite persist_disk.
      destruct (persist_memory digestName lines st1) as [-> _].
      split; [|done]. rewrite Hsize1. lia.
    + done.
Qed.

Lemma batch_loop_batch indices : forall k st,
  size (stateResults st) = (before + processedThisRun st)%nat ->
  (processedThisRun st < b)%nat ->
  match batch_loop digestName lines (Some b) page k indices st with
  | Next st1 =>
      size (stateResults st1) = (before + processedThisRun st1)%nat /\
      (processedThisRun st1 < b)%nat
  | Return st1 =>
      size (stateResults st1) = (before + b)%nat /\
      loadFilterState digestName (on_disk st1) = stateResults st1
  end.
Proof.
  induction indices as [|i indices IH]; intros k st Hsize Hlt; [done|].
  simpl. pose proof (iteration_batch k i st Hsize Hlt) as Hi.
  destruct (iteration digestName lines (Some b) page k i st) as [st1|st1];
    [|done].
  destruct Hi as [Hsize1 Hlt1]. by apply IH.
Qed.

End BatchMore.

(** X25: a run with a batch limit of [b] items saves at most [b] new
    results. *)
Theorem X25_batch_run_saves_at_most_a_batch :
  forall (digestName : jsstring) (b : nat) (sessionExpired : bool)
         (page : nat -> FilterDigest.visit) (d : FilterDigest.disk),
    (1 <= b)%nat ->
    (size (FilterDigest.loadFilterState digestName
             (FilterDigest.runFilter digestName (Some b) sessionExpired page d))
     <= size (FilterDigest.loadFilterState digestName d) + b)%nat.
Proof.
  intros digestName b sessionExpired page d Hb.
  unfold FilterDigest.runFilter.
  destruct (FilterDigest.digest d) as [content|] eqn:Hd; [|lia].
  set (lines := FilterDigest.split_lines content).
  set (indices := FilterDigest.job_line_indices 0 lines).
  set (st := FilterDigest.initial_state digestName lines d).
  destruct indices as [|i0 rest] eqn:Hindices; [lia|].
  rewrite <- Hindices.
  destruct (forallb _ indices).
  { unfold FilterDigest.loadFilterState. simpl. lia. }
  destruct sessionExpired; [lia|].
  destruct (initial_state_keeps digestName lines d) as (Hr & Hp & _).
  fold st in Hr, Hp.
  pose proof (batch_loop_batch digestName lines page b
                (size (FilterDigest.loadFilterState digestName d))
                indices 0 st) as Hloop.
  rewrite Hr, Hp in Hloop. specialize (Hloop ltac:(lia) ltac:(lia)).
  destruct (FilterDigest.batch_loop _ _ _ _ _ _ _) as [st1|st1].
  - rewrite persist_disk. lia.
  - destruct Hloop as [Hsize ->]. lia.
Qed.

Lemma X25_batch_run_witness :
  (size (FilterDigest.loadFilterState FilterDigest.TODAY_DIGEST
           (FilterDigest.runFilter FilterDigest.TODAY_DIGEST (Some 1%nat)
              false (fun _ => FilterDigest.remote_page)
              FilterDigest.two_jobs_disk))
   <= size (FilterDigest.loadFilterState FilterDigest.TODAY_DIGEST
              FilterDigest.two_jobs_disk) + 1)%nat.
Proof.
  apply (X25_batch_run_saves_at_most_a_batch FilterDigest.TODAY_DIGEST 1
           false (fun _ => FilterDigest.remote_page)
           FilterDigest.two_jobs_disk).
  lia.
Defined.
